(** * Memory Visualizer (assignment2.py): a shallow embedding and its properties

    The program reads [/proc/meminfo] and [/proc/<pid>/smaps], asks [pidof]
    for the process identifiers of a program and prints text bar charts.

    Modelling choices, all taken from the Python source:
    - Python [int] is [Z]; Python [float] is IEEE 754 binary64, given by the
      Standard Library's [SpecFloat] at precision 53 and [emax] 1024;
    - Python [str] is [string] (ASCII text);
    - exceptions are an [outcome] type; [None] is [option];
    - the interpreter is CPython 3.11 on a 64-bit platform: an index is at
      most 2^63 - 1, a string has at most 2^63 - 50 characters, and [int()]
      and [str()] convert at most 4300 digits;
    - the operating system is a [world]: what [open] and [os.popen] answer
      at each point of the run, and how long a string the interpreter gets
      the memory for; the run threads a [state] holding the I/O attempts
      made so far and the lines printed so far;
    - [MemoryError] is modelled where the size of a string follows the
      length argument: in the bar and in the report lines that hold it.
      The texts the system hands to the program, and the notices made of
      them, are taken to fit in memory, and a world has memory for a
      string of 4096 characters at least. *)

From Stdlib Require Import ZArith List String Ascii Bool Lia.
From Stdlib Require Import QArith Qround.
From Stdlib Require Import DecimalString DecimalPos.
From Stdlib Require DecimalFacts.
From Stdlib Require Import Floats.SpecFloat.
Import ListNotations.

Local Open Scope string_scope.
Local Open Scope Z_scope.

(** ** Exceptions and outcomes *)

Inductive exn_kind :=
| FileNotFoundError
| OSError
| ValueError
| IndexError
| TypeError
| ZeroDivisionError
| OverflowError
| MemoryError.

(** An exception object: its class and the text [str(e)] gives. *)
Record exn := Exn { exn_class : exn_kind; exn_str : string }.

Inductive outcome (A : Type) :=
| Ret (a : A)
| Raise (e : exn).
Arguments Ret {A} a.
Arguments Raise {A} e.

Definition obind {A B} (o : outcome A) (k : A -> outcome B) : outcome B :=
  match o with
  | Ret a => k a
  | Raise e => Raise e
  end.

Declare Scope outcome_scope.
Delimit Scope outcome_scope with outcome.
Notation "'do' x <- c ; k" := (obind c (fun x => k))
  (at level 10, x name, c at level 100, k at level 200) : outcome_scope.

(** ** Python strings *)

Module PyStr.

(** [str.isspace] on ASCII: tab, line feed, vertical tab, form feed,
    carriage return, the four separators 28..31 and the space. *)
Definition is_space (c : ascii) : bool :=
  let n := nat_of_ascii c in
  ((9 <=? n) && (n <=? 13) || (28 <=? n) && (n <=? 32))%nat.

(** [s.startswith(p)] *)
Definition startswith (s p : string) : bool := String.prefix p s.

Definition is_empty (s : string) : bool :=
  match s with EmptyString => true | String _ _ => false end.

(** [s.split()]: the maximal runs of characters that are not white
    space. [cur] is the run being read. *)
Fixpoint split_from (cur : string) (s : string) : list string :=
  match s with
  | EmptyString => if is_empty cur then [] else [cur]
  | String c r =>
      if is_space c
      then (if is_empty cur then split_from "" r else cur :: split_from "" r)
      else split_from (cur ++ String c "") r
  end.

Definition split (s : string) : list string := split_from "" s.

Fixpoint lstrip_by (space : ascii -> bool) (s : string) : string :=
  match s with
  | EmptyString => ""
  | String c r => if space c then lstrip_by space r else s
  end.

Fixpoint rstrip_by (space : ascii -> bool) (s : string) : string :=
  match s with
  | EmptyString => ""
  | String c r =>
      let r' := rstrip_by space r in
      if space c && is_empty r' then "" else String c r'
  end.

(** [s.strip()] *)
Definition strip (s : string) : string := rstrip_by is_space (lstrip_by is_space s).

(** The white space [int()] skips around an ASCII literal: tab, line
    feed, vertical tab, form feed, carriage return and the space, not the
    separators 28..31. *)
Definition is_c_space (c : ascii) : bool :=
  let n := nat_of_ascii c in
  ((9 <=? n) && (n <=? 13) || (n =? 32))%nat.

Definition digit_of (c : ascii) : option Z :=
  let n := nat_of_ascii c in
  if ((48 <=? n) && (n <=? 57))%nat then Some (Z.of_nat (n - 48)) else None.

(** Decimal digits with single underscores between digits, as [int()]
    accepts them. [after_digit] tells whether the previous character
    was a digit. *)
Fixpoint parse_digits (acc : Z) (after_digit : bool) (s : string) : option Z :=
  match s with
  | EmptyString => if after_digit then Some acc else None
  | String c r =>
      match digit_of c with
      | Some d => parse_digits (10 * acc + d) true r
      | None =>
          if Ascii.eqb c "_" && after_digit
          then parse_digits acc false r
          else None
      end
  end.

(** The most digits [int()] and [str()] convert
    ([sys.get_int_max_str_digits()]). *)
Definition max_str_digits : nat := 4300.

(** The digits of a literal, underscores and the sign left out. *)
Fixpoint count_digits (s : string) : nat :=
  match s with
  | EmptyString => O
  | String c r =>
      match digit_of c with
      | Some _ => S (count_digits r)
      | None => count_digits r
      end
  end.

(** [int(s)] for a string: surrounding white space, an optional sign,
    decimal digits, at most [max_str_digits] of them. [None] stands for
    [ValueError]. *)
Definition parse_int (s : string) : option Z :=
  let t := rstrip_by is_c_space (lstrip_by is_c_space s) in
  if (count_digits t <=? max_str_digits)%nat
  then match t with
       | String "+" r => parse_digits 0 false r
       | String "-" r => option_map Z.opp (parse_digits 0 false r)
       | t => parse_digits 0 false t
       end
  else None.

Fixpoint repeat_nat (s : string) (n : nat) : string :=
  match n with
  | O => ""
  | S k => s ++ repeat_nat s k
  end.

(** The text of [n] copies of [s], none when [n <= 0]: what [s * n]
    returns when it returns. *)
Definition mul (s : string) (n : Z) : string := repeat_nat s (Z.to_nat n).

(** The decimal text of [n]: what [str(n)] returns when it returns. *)
Definition of_int (z : Z) : string := NilZero.string_of_int (Z.to_int z).

(** The parts of an f-string, joined. *)
Definition join (parts : list string) : string := fold_right append "" parts.

End PyStr.

(** [int(s)] *)
Definition py_int (s : string) : outcome Z :=
  match PyStr.parse_int s with
  | Some z => Ret z
  | None => Raise (Exn ValueError "invalid literal for int() with base 10")
  end.

(** [str(n)] and [f"{n}"] for an [int]: [ValueError] beyond
    [max_str_digits] digits. *)
Definition py_str (n : Z) : outcome string :=
  if (PyStr.count_digits (PyStr.of_int n) <=? PyStr.max_str_digits)%nat
  then Ret (PyStr.of_int n)
  else Raise (Exn ValueError "Exceeds the limit (4300 digits) for integer string conversion").

(** The largest index, [sys.maxsize]. *)
Definition max_index : Z := 2 ^ 63 - 1.

Definition index_error {A} : outcome A :=
  Raise (Exn OverflowError "cannot fit 'int' into an index-sized integer").

Definition memory_error {A} : outcome A := Raise (Exn MemoryError "").

(** The longest string CPython makes: a string object of more than
    2^63 - 50 characters is refused whatever the memory. *)
Definition max_chars : Z := max_index - 49.

(** [s * n]. The count is made an index first; a count below 1 gives the
    empty string and the count 1 gives [s] itself; a longer string is
    allocated. [memory] is the longest string the interpreter gets the
    memory for; no string is longer than [max_chars]. *)
Definition py_mul (memory : Z) (s : string) (n : Z) : outcome string :=
  if (n <? - 2 ^ 63) || (max_index <? n) then index_error
  else if n <? 1 then Ret ""
  else if n =? 1 then Ret s
  else
    let len := Z.of_nat (String.length s) * n in
    if max_index <? len
    then Raise (Exn OverflowError "repeated string is too long")
    else if len =? 0 then Ret ""
    else if (memory <? len) || (max_chars <? len) then memory_error
    else Ret (PyStr.mul s n).

(** [s + t]. An empty operand gives the other one; else the sum is
    allocated. *)
Definition py_add (memory : Z) (s t : string) : outcome string :=
  if PyStr.is_empty s then Ret t
  else if PyStr.is_empty t then Ret s
  else
    let len := Z.of_nat (String.length s) + Z.of_nat (String.length t) in
    if max_index <? len
    then Raise (Exn OverflowError "strings are too large to concat")
    else if (memory <? len) || (max_chars <? len) then memory_error
    else Ret (s ++ t).

(** An f-string: the parts are joined in one allocation. *)
Definition py_format (memory : Z) (parts : list string) : outcome string :=
  let len := Z.of_nat (String.length (PyStr.join parts)) in
  if max_index <? len
  then Raise (Exn OverflowError "join() result is too long for a Python string")
  else if (memory <? len) || (max_chars <? len) then memory_error
  else Ret (PyStr.join parts).

(** [l[i]] on a list *)
Definition py_index {A} (l : list A) (i : nat) : outcome A :=
  match nth_error l i with
  | Some a => Ret a
  | None => Raise (Exn IndexError "list index out of range")
  end.

(** [int(line.split()[1])], the numeric field of a line of a [/proc] file. *)
Definition field_int (line : string) : outcome Z :=
  (do tok <- py_index (PyStr.split line) 1; py_int tok)%outcome.

(** ** Python floats: IEEE 754 binary64 *)

Module PyFloat.

Definition prec : Z := 53.
Definition emax : Z := 1024.

Definition float := spec_float.

Definition zero : float := S754_zero false.

(** The literal [1024.0] is 2^52 * 2^-42. *)
Definition f1024 : float := S754_finite false 4503599627370496 (-42).

Definition overflow_int {A} : outcome A :=
  Raise (Exn OverflowError "int too large to convert to float").

(** [float(n)] for an [int]: the nearest float, ties to even;
    [OverflowError] beyond the finite range. *)
Definition of_int (z : Z) : outcome float :=
  match binary_normalize prec emax z 0 false with
  | S754_infinity _ => overflow_int
  | x => Ret x
  end.

(** [x * y] on floats; overflow gives an infinity. *)
Definition mul (x y : float) : float := SFmul prec emax x y.

(** [x / y] on floats. *)
Definition div (x y : float) : outcome float :=
  match y with
  | S754_zero _ => Raise (Exn ZeroDivisionError "float division by zero")
  | _ => Ret (SFdiv prec emax x y)
  end.

(** [x < y] on floats. *)
Definition ltb (x y : float) : bool := SFltb x y.

(** [a / b] on two [int]s: the quotient rounded once, to nearest even;
    the sign of a zero result follows the signs of [a] and [b]. *)
Definition int_truediv (a b : Z) : outcome float :=
  let s := xorb (a <? 0) (b <? 0) in
  if b =? 0 then Raise (Exn ZeroDivisionError "division by zero")
  else if a =? 0 then Ret (S754_zero s)
  else
    let '(mz, ez, lz) := SFdiv_core_binary prec emax (Z.abs a) 0 (Z.abs b) 0 in
    match binary_round_aux prec emax s mz ez lz with
    | S754_infinity _ =>
        Raise (Exn OverflowError "integer division result too large for a float")
    | x => Ret x
    end.

(** [int(x)]: truncation toward zero. *)
Definition to_int (x : float) : outcome Z :=
  match x with
  | S754_nan => Raise (Exn ValueError "cannot convert float NaN to integer")
  | S754_infinity _ =>
      Raise (Exn OverflowError "cannot convert float infinity to integer")
  | S754_zero _ => Ret 0
  | S754_finite s m e => Ret (cond_Zopp s (Z.shiftl (Zpos m) e))
  end.

(** [n < x] for an [int] [n] and a float [x]: Python compares the exact
    values. *)
Definition int_ltb (z : Z) (x : float) : bool :=
  match x with
  | S754_nan => false
  | S754_infinity s => negb s
  | S754_zero _ => z <? 0
  | S754_finite s m e =>
      let v := cond_Zopp s (Zpos m) in
      if 0 <=? e then z <? v * 2 ^ e else z * 2 ^ (- e) <? v
  end.

(** The integer nearest to [num / den], ties to even ([0 < den]). *)
Definition round_half_even (num den : Z) : Z :=
  let q := num / den in
  let r := num mod den in
  match 2 * r ?= den with
  | Lt => q
  | Eq => if Z.even q then q else q + 1
  | Gt => q + 1
  end.

(** [|x| * 10^d] rounded to an integer, for a finite [x]. *)
Definition scaled (d : nat) (m : positive) (e : Z) : Z :=
  let p := 10 ^ Z.of_nat d in
  if 0 <=? e then Zpos m * 2 ^ e * p
  else round_half_even (Zpos m * p) (2 ^ (- e)).

(** [s] padded with zeros on the left to [d] characters. *)
Definition pad_zeros (d : nat) (s : string) : string :=
  PyStr.repeat_nat "0" (d - String.length s) ++ s.

(** The decimal text of [n / 10^d] with [d] decimals and the sign [s]. *)
Definition fixed (d : nat) (s : bool) (n : Z) : string :=
  let p := 10 ^ Z.of_nat d in
  (if s then "-" else "")
    ++ PyStr.of_int (n / p)
    ++ match d with
       | O => ""
       | S _ => "." ++ pad_zeros d (PyStr.of_int (n mod p))
       end.

(** [format(x, '.<d>f')] for a float. *)
Definition format_f (d : nat) (x : float) : string :=
  match x with
  | S754_nan => "nan"
  | S754_infinity s => if s then "-inf" else "inf"
  | S754_zero s => fixed d s 0
  | S754_finite s m e => fixed d s (scaled d m e)
  end.

End PyFloat.

(** ** The formatter *)

(** [percent_to_graph(percentage, bar_length)]: [int(percentage * bar_length)]
    fill characters, then spaces up to [bar_length]. [memory] is the
    longest string the interpreter gets the memory for. *)
Definition percent_to_graph (memory : Z) (percentage : PyFloat.float)
    (bar_length : Z) : outcome string :=
  (do len <- PyFloat.of_int bar_length;
   do filled_length <- PyFloat.to_int (PyFloat.mul percentage len);
   do fill <- py_mul memory "#" filled_length;
   do rest <- py_mul memory " " (bar_length - filled_length);
   py_add memory fill rest
  )%outcome.

(** The variable [bytes] of [bytes_to_human_readable] holds the [int]
    argument at first and a [float] after the first division. *)
Inductive num :=
| NInt (z : Z)
| NFloat (x : PyFloat.float).

(** [b < x] *)
Definition num_ltb (b : num) (x : PyFloat.float) : bool :=
  match b with
  | NInt z => PyFloat.int_ltb z x
  | NFloat y => PyFloat.ltb y x
  end.

(** The float an operation on [b] and a float works with. *)
Definition num_to_float (b : num) : outcome PyFloat.float :=
  match b with
  | NInt z => PyFloat.of_int z
  | NFloat y => Ret y
  end.

(** [b / x] *)
Definition num_div (b : num) (x : PyFloat.float) : outcome PyFloat.float :=
  (do y <- num_to_float b; PyFloat.div y x)%outcome.

(** [f"{b:.2f}"] *)
Definition num_format_2f (b : num) : outcome string :=
  (do y <- num_to_float b; Ret (PyFloat.format_f 2 y))%outcome.

Definition units : list string := ["B"; "KiB"; "MiB"; "GiB"; "TiB"].

(** The [for unit in ...] loop; [None] is Python's [None], returned when
    the loop runs out of units. *)
Fixpoint bytes_to_human_readable_loop (us : list string) (bytes : num)
  : outcome (option string) :=
  match us with
  | [] => Ret None
  | unit :: rest =>
      if num_ltb bytes PyFloat.f1024
      then (do s <- num_format_2f bytes; Ret (Some (s ++ " " ++ unit)))%outcome
      else (do b <- num_div bytes PyFloat.f1024;
            bytes_to_human_readable_loop rest (NFloat b))%outcome
  end.

Definition bytes_to_human_readable (bytes : Z) : outcome (option string) :=
  bytes_to_human_readable_loop units (NInt bytes).

(** ** The operating system and the state of a run *)

(** An I/O attempt: [open(path)] or [os.popen(cmd)]. *)
Inductive event :=
| EvOpen (path : string)
| EvPopen (cmd : string).

(** What the system answers to the I/O attempt number [n] of the run:
    the lines of a text file, the output of a command, or an exception;
    and the memory it has for a string, in pages of 4096 characters. *)
Record world := {
  w_open : nat -> string -> outcome (list string);
  w_popen : nat -> string -> outcome string;
  w_memory : positive
}.

Definition page : Z := 4096.

(** The longest string the interpreter gets the memory for. *)
Definition memory_of (w : world) : Z := page * Zpos (w_memory w).

(** The I/O attempts made and the lines printed, oldest first. *)
Record state := {
  st_trace : list event;
  st_out : list string
}.

Definition initial : state := {| st_trace := []; st_out := [] |}.

Definition clock (st : state) : nat := List.length (st_trace st).

Definition log (ev : event) (st : state) : state :=
  {| st_trace := (st_trace st ++ [ev])%list; st_out := st_out st |}.

Definition emit (line : string) (st : state) : state :=
  {| st_trace := st_trace st; st_out := (st_out st ++ [line])%list |}.

Definition M (A : Type) : Type := state -> outcome A * state.

Definition ret {A} (a : A) : M A := fun st => (Ret a, st).

Definition bind {A B} (c : M A) (k : A -> M B) : M B :=
  fun st =>
    match c st with
    | (Ret a, st') => k a st'
    | (Raise e, st') => (Raise e, st')
    end.

Definition lift {A} (o : outcome A) : M A := fun st => (o, st).

Declare Scope run_scope.
Delimit Scope run_scope with run.
Notation "x <- c ;; k" := (bind c (fun x => k))
  (at level 61, c at next level, right associativity) : run_scope.
Notation "c ;; k" := (bind c (fun _ => k))
  (at level 61, right associativity) : run_scope.

(** [print(line)] *)
Definition print (line : string) : M unit := fun st => (Ret tt, emit line st).

Definition meminfo : string := "/proc/meminfo".
Definition smaps (pid : string) : string := "/proc/" ++ pid ++ "/smaps".
Definition pidof (program : string) : string := "pidof " ++ program.

(** Does [except FileNotFoundError] catch [e]? *)
Definition is_file_not_found (e : exn) : bool :=
  match exn_class e with
  | FileNotFoundError => true
  | _ => false
  end.

(** ** The readers *)

(** The loop of [get_sys_mem] over the lines of the file: the value of
    the first line that starts with [MemTotal], [None] without one. *)
Fixpoint get_sys_mem_loop (lines : list string) : outcome (option Z) :=
  match lines with
  | [] => Ret None
  | line :: rest =>
      if PyStr.startswith line "MemTotal"
      then (do total_mem <- field_int line; Ret (Some total_mem))%outcome
      else get_sys_mem_loop rest
  end.

(** The loop of [get_avail_mem] and the fallback after it. *)
Fixpoint get_avail_mem_loop (lines : list string)
    (mem_free swap_free mem_available : Z) : outcome Z :=
  match lines with
  | [] =>
      Ret (if mem_available =? 0 then mem_free + swap_free else mem_available)
  | line :: rest =>
      if PyStr.startswith line "MemFree"
      then (do v <- field_int line;
            get_avail_mem_loop rest v swap_free mem_available)%outcome
      else if PyStr.startswith line "SwapFree"
      then (do v <- field_int line;
            get_avail_mem_loop rest mem_free v mem_available)%outcome
      else if PyStr.startswith line "MemAvailable"
      then (do v <- field_int line;
            get_avail_mem_loop rest mem_free swap_free v)%outcome
      else get_avail_mem_loop rest mem_free swap_free mem_available
  end.

(** The loop of [rss_mem_of_pid]: the value of [rss_total] when the loop
    stops, and the exception that stopped it, if any. *)
Fixpoint rss_mem_of_pid_loop (lines : list string) (rss_total : Z)
  : Z * option exn :=
  match lines with
  | [] => (rss_total, None)
  | line :: rest =>
      if PyStr.startswith line "Rss"
      then match field_int line with
           | Ret v => rss_mem_of_pid_loop rest (rss_total + v)
           | Raise e => (rss_total, Some e)
           end
      else rss_mem_of_pid_loop rest rss_total
  end.

Section Run.

Variable w : world.

(** [open(path, 'r')] and the iteration over its lines. *)
Definition open_lines (path : string) : M (list string) :=
  fun st => (w_open w (clock st) path, log (EvOpen path) st).

Definition get_sys_mem : M (option Z) :=
  (lines <- open_lines meminfo ;; lift (get_sys_mem_loop lines))%run.

Definition get_avail_mem : M Z :=
  (lines <- open_lines meminfo ;; lift (get_avail_mem_loop lines 0 0 0))%run.

(** [pids_of_prog(program)]: the words of what [pidof] prints; any
    exception is reported and leaves the list empty. *)
Definition pids_of_prog (program : string) : M (list string) :=
  fun st =>
    let st1 := log (EvPopen (pidof program)) st in
    match w_popen w (clock st) (pidof program) with
    | Ret out =>
        let pid_list := PyStr.strip out in
        (Ret (if PyStr.is_empty pid_list then [] else PyStr.split pid_list), st1)
    | Raise e =>
        (Ret [],
         emit ("Error finding processes for " ++ program ++ ": " ++ exn_str e) st1)
    end.

(** [rss_mem_of_pid(pid)]: [FileNotFoundError] is reported and the
    function returns what [rss_total] holds. *)
Definition rss_mem_of_pid (pid : string) : M Z :=
  fun st =>
    let st1 := log (EvOpen (smaps pid)) st in
    let '(rss_total, stopped) :=
      match w_open w (clock st) (smaps pid) with
      | Ret lines => rss_mem_of_pid_loop lines 0
      | Raise e => (0, Some e)
      end in
    match stopped with
    | None => (Ret rss_total, st1)
    | Some e =>
        if is_file_not_found e
        then (Ret rss_total, emit ("Process " ++ pid ++ " not found.") st1)
        else (Raise e, st1)
    end.

End Run.

(** ** The driver *)

(** What [parse_command_args] returns. *)
Record Namespace := {
  arg_program : option string;
  arg_human_readable : bool;
  arg_length : Z
}.

(** The truth value of [args.program]: [None] and the empty string are
    false. *)
Definition given (program : option string) : option string :=
  match program with
  | Some (String c r) => Some (String c r)
  | _ => None
  end.

(** [f"{x}"] for the result of [bytes_to_human_readable]. *)
Definition str_of_option (o : option string) : string :=
  match o with
  | Some s => s
  | None => "None"
  end.

(** The text of a size in KiB: [bytes_to_human_readable(kib * 1024)] when
    the human-readable flag is set, [f"{kib} KiB"] otherwise. *)
Definition size_str (human_readable : bool) (kib : Z) : outcome string :=
  if human_readable
  then (do s <- bytes_to_human_readable (kib * 1024); Ret (str_of_option s))%outcome
  else (do s <- py_str kib; Ret (s ++ " KiB"))%outcome.

Definition type_error {A} : outcome A :=
  Raise (Exn TypeError "unsupported operand type(s)").

Section Driver.

Variable w : world.
Variable args : Namespace.

(** The first [for pid in pids] loop of [main]. *)
Fixpoint sum_rss (pids : list string) (total_prog_rss : Z) : M Z :=
  match pids with
  | [] => ret total_prog_rss
  | pid :: rest =>
      (pid_rss <- rss_mem_of_pid w pid ;;
       sum_rss rest (total_prog_rss + pid_rss))%run
  end.

(** The second [for pid in pids] loop of [main]. *)
Fixpoint report_pids (total_mem : Z) (total_mem_hr : string)
    (pids : list string) : M unit :=
  match pids with
  | [] => ret tt
  | pid :: rest =>
      (pid_rss <- rss_mem_of_pid w pid ;;
       pid_rss_hr <- lift (size_str (arg_human_readable args) pid_rss) ;;
       pid_percent_used <- lift (PyFloat.int_truediv pid_rss total_mem) ;;
       bar <- lift (percent_to_graph (memory_of w) pid_percent_used (arg_length args)) ;;
       line <- lift (py_format (memory_of w)
                       [pid; "         ["; bar; "] "; pid_rss_hr; "/"; total_mem_hr]) ;;
       print line ;;
       report_pids total_mem total_mem_hr rest)%run
  end.

(** The branch of [main] taken when [args.program] is true. *)
Definition report_program (program : string) (total_mem : Z)
    (total_mem_hr : string) : M unit :=
  (pids <- pids_of_prog w program ;;
   match pids with
   | [] => print (program ++ " not found.")
   | _ :: _ =>
       total_prog_rss <- sum_rss pids 0 ;;
       total_prog_rss_hr <- lift (size_str (arg_human_readable args) total_prog_rss) ;;
       prog_percent_used <- lift (PyFloat.int_truediv total_prog_rss total_mem) ;;
       bar <- lift (percent_to_graph (memory_of w) prog_percent_used (arg_length args)) ;;
       line <- lift (py_format (memory_of w)
                       [program; "        ["; bar; "] "; total_prog_rss_hr; "/";
                        total_mem_hr]) ;;
       print line ;;
       report_pids total_mem total_mem_hr pids
   end)%run.

(** The branch of [main] taken otherwise. *)
Definition report_system (percent_used : PyFloat.float) (bar_graph : string)
    (used_mem_hr total_mem_hr : string) : M unit :=
  (hundred <- lift (PyFloat.of_int 100) ;;
   line <- lift (py_format (memory_of w)
                   ["Memory         ["; bar_graph; " | ";
                    PyFloat.format_f 0 (PyFloat.mul percent_used hundred); "%] ";
                    used_mem_hr; "/"; total_mem_hr]) ;;
   print line)%run.

Definition main : M unit :=
  (total_mem <- get_sys_mem w ;;
   avail_mem <- get_avail_mem w ;;
   match total_mem with
   | None => lift type_error
   | Some total_mem =>
       let used_mem := total_mem - avail_mem in
       percent_used <- lift (PyFloat.int_truediv used_mem total_mem) ;;
       total_mem_hr <- lift (size_str (arg_human_readable args) total_mem) ;;
       used_mem_hr <- lift (size_str (arg_human_readable args) used_mem) ;;
       avail_mem_hr <- lift (size_str (arg_human_readable args) avail_mem) ;;
       bar_graph <- lift (percent_to_graph (memory_of w) percent_used (arg_length args)) ;;
       match given (arg_program args) with
       | Some program => report_program program total_mem total_mem_hr
       | None => report_system percent_used bar_graph used_mem_hr total_mem_hr
       end
   end)%run.

End Driver.

(** * Vocabulary of the properties *)

Import PyFloat.

(** ** Fields of a memory-info source *)

(** The value of a field of a source, in the words of the
    specification: the number on the line that begins with the label
    (the last such line, should there be several), nothing when no line
    does. *)
Fixpoint field_value (label : string) (lines : list string) : option Z :=
  match lines with
  | [] => None
  | line :: rest =>
      match field_value label rest with
      | Some v => Some v
      | None =>
          if PyStr.startswith line label
          then match field_int line with Ret v => Some v | Raise _ => None end
          else None
      end
  end.

(** A source is readable when each line that begins with one of the
    labels carries a number. *)
Definition readable (labels : list string) (lines : list string) : Prop :=
  Forall (fun line =>
            forall label, In label labels ->
              PyStr.startswith line label = true ->
              exists v, field_int line = Ret v) lines.

(** The value of a field, [d] when the field is absent. *)
Definition or_else (o : option Z) (d : Z) : Z :=
  match o with Some v => v | None => d end.

(** The available memory, in the words of the specification: free plus
    swap-free when the available field is absent or reads zero. *)
Definition available_spec (lines : list string) : Z :=
  match field_value "MemAvailable" lines with
  | Some 0 | None =>
      or_else (field_value "MemFree" lines) 0
      + or_else (field_value "SwapFree" lines) 0
  | Some v => v
  end.

(** The labels [get_avail_mem] looks for. *)
Definition avail_labels : list string := ["MemFree"; "SwapFree"; "MemAvailable"].

(** ** Fields of a memory-map source *)

(** The lines of a memory map that report a resident set size. *)
Definition rss_lines (lines : list string) : list string :=
  filter (fun line => PyStr.startswith line "Rss") lines.

Definition sum_values (values : list Z) : Z := fold_right Z.add 0 values.

(** ** Runs and their I/O attempts *)

(** The state of a run once [get_sys_mem] and [get_avail_mem] have
    returned. *)
Definition after_meminfo : state :=
  {| st_trace := [EvOpen meminfo; EvOpen meminfo]; st_out := [] |}.

Definition is_open (path : string) (ev : event) : bool :=
  match ev with
  | EvOpen p => String.eqb p path
  | EvPopen _ => false
  end.

(** How many times a run opened a path. *)
Definition count_opens (path : string) (trace : list event) : nat :=
  List.length (filter (is_open path) trace).

Definition is_popen (ev : event) : bool :=
  match ev with
  | EvOpen _ => false
  | EvPopen _ => true
  end.

(** How many commands a run started. *)
Definition count_popens (trace : list event) : nat :=
  List.length (filter is_popen trace).

(** Opening the memory map of each process of a list, in order. *)
Definition opens (pids : list string) : list event :=
  map (fun pid => EvOpen (smaps pid)) pids.

(** The process identifiers the resolver returns to [main]. *)
Definition resolved (w : world) (args : Namespace) : list string :=
  match given (arg_program args) with
  | None => []
  | Some program =>
      match fst (pids_of_prog w program after_meminfo) with
      | Ret pids => pids
      | Raise _ => []
      end
  end.

(** The I/O attempts of a run that returns normally, in order. *)
Definition schedule (w : world) (args : Namespace) : list event :=
  ([EvOpen meminfo; EvOpen meminfo]
   ++ match given (arg_program args) with
      | None => []
      | Some program =>
          EvPopen (pidof program) :: opens (resolved w args) ++ opens (resolved w args)
      end)%list.

(** A run from [st] follows [plan]: it makes these attempts, in this
    order, and stops short of the rest only by raising. *)
Definition follows {A} (plan : list event) (st : state) (run : outcome A * state)
  : Prop :=
  match fst run with
  | Ret _ => st_trace (snd run) = (st_trace st ++ plan)%list
  | Raise _ => exists later, (st_trace st ++ plan = st_trace (snd run) ++ later)%list
  end.

(** The statement that every source is read exactly once in a run. *)
Definition reads_once (w : world) (args : Namespace) : Prop :=
  let trace := st_trace (snd (main w args initial)) in
  count_opens meminfo trace = 1%nat /\
  forall pid, In pid (resolved w args) -> count_opens (smaps pid) trace = 1%nat.

(** ** Floats as numbers *)

Definition is_finite (x : float) : bool :=
  match x with
  | S754_zero _ | S754_finite _ _ _ => true
  | _ => false
  end.

(** The number a finite float stands for: [m * 2^e] with its sign. *)
Definition value (x : float) : Q :=
  match x with
  | S754_finite s m e =>
      if 0 <=? e then inject_Z (cond_Zopp s (Zpos m) * 2 ^ e)
      else Qmake (cond_Zopp s (Zpos m)) (Z.to_pos (2 ^ (- e)))
  | _ => 0%Q
  end.

(** Rounding a rational toward zero. *)
Definition Qtrunc (q : Q) : Z :=
  if Qle_bool 0 q then Qfloor q else Qceiling q.

(** The floats 1.0 and -0.5. *)
Definition one : float := S754_finite false 4503599627370496 (-52).
Definition minus_half : float := S754_finite true 4503599627370496 (-53).

(** The exponent of the last place of a binary64 number of magnitude
    [2^e]. *)
Definition fexp64 (e : Z) : Z := Z.max (e - 53) (-1074).

(** A mantissa with nothing below it. *)
Definition exact_record (m : Z) : shr_record :=
  {| shr_m := m; shr_r := false; shr_s := false |}.

(** The end of [binary_round_aux]: a rounded mantissa is normalised once
    more and packed. *)
Definition assemble (s : bool) (q g : Z) : float :=
  let '(mrs, e) := shr_fexp prec emax q g loc_Exact in
  match shr_m mrs with
  | Z0 => S754_zero s
  | Zpos m => if e <=? emax - prec then S754_finite s m e else S754_infinity s
  | Zneg _ => S754_nan
  end.

(** ** Bars *)


(** [c * n] returns for a character [c] and an index-sized [n]: no
    string is allocated for a count of at most 1; a longer one needs the
    memory and at most [max_chars] characters. *)
Definition allocates (memory n : Z) : bool :=
  (n <=? 1) || ((n <=? memory) && (n <=? max_chars)).

(** A count that [str * n] takes. *)
Definition index_sized (n : Z) : Prop := - 2 ^ 63 <= n <= max_index.



(** ** Sample sources *)

Definition nl : string := String (ascii_of_nat 10) "".

(** A memory-info source without [MemAvailable], and one with it. *)
Definition meminfo_fallback : list string :=
  ["MemTotal:        8000000 kB" ++ nl;
   "MemFree:          500000 kB" ++ nl;
   "SwapFree:              0 kB" ++ nl].

Definition meminfo_available : list string :=
  ["MemTotal:        8000000 kB" ++ nl;
   "MemFree:          500000 kB" ++ nl;
   "MemAvailable:    3000000 kB" ++ nl;
   "SwapFree:         123456 kB" ++ nl].

Definition meminfo_small : list string :=
  ["MemTotal:           1000 kB" ++ nl;
   "MemFree:             100 kB" ++ nl;
   "MemAvailable:        250 kB" ++ nl].

(** A memory map of two regions, with Rss 100 and 250. *)
Definition smaps_two_regions : list string :=
  ["00400000-0040b000 r-xp 00000000 08:01 1234    /usr/bin/prog" ++ nl;
   "Size:                 44 kB" ++ nl;
   "Rss:                 100 kB" ++ nl;
   "Pss:                  50 kB" ++ nl;
   "7f0000000000-7f0000021000 rw-p 00000000 00:00 0" ++ nl;
   "Size:                132 kB" ++ nl;
   "Rss:                 250 kB" ++ nl;
   "Pss:                 250 kB" ++ nl].

Definition no_such_file : exn :=
  Exn FileNotFoundError "[Errno 2] No such file or directory".

(** The sample worlds have one page of memory.

    A world with a memory-info source, where [pidof] prints [out] and
    only the process [pid] has a memory map. *)
Definition world_with (mem : list string) (out : string) (pid : string)
    (maps : list string) : world :=
  {| w_open := fun _ path =>
       if String.eqb path meminfo then Ret mem
       else if String.eqb path (smaps pid) then Ret maps
       else Raise no_such_file;
     w_popen := fun _ _ => Ret out;
     w_memory := 1 |}.

(** A world with a memory-info source only. *)
Definition world_of (lines : list string) : world :=
  {| w_open := fun _ path =>
       if String.eqb path meminfo then Ret lines else Raise no_such_file;
     w_popen := fun _ _ => Ret "";
     w_memory := 1 |}.

(** A world where only the process [pid] has a memory map. *)
Definition world_of_smaps (pid : string) (lines : list string) : world :=
  {| w_open := fun _ path =>
       if String.eqb path (smaps pid) then Ret lines else Raise no_such_file;
     w_popen := fun _ _ => Ret "";
     w_memory := 1 |}.

(** Sizes in KiB and a bar of ten characters. *)
Definition args_of (program : option string) : Namespace :=
  {| arg_program := program; arg_human_readable := false; arg_length := 10 |}.

(** ** Words and white space *)

(** Every character of [s] satisfies [p]. *)
Fixpoint all_chars (p : ascii -> bool) (s : string) : bool :=
  match s with
  | EmptyString => true
  | String c r => p c && all_chars p r
  end.

(** [s] holds no white space. *)
Definition no_space (s : string) : bool :=
  all_chars (fun c => negb (PyStr.is_space c)) s.

(** [s] holds white space only. *)
Definition blank (s : string) : bool := all_chars PyStr.is_space s.

(** A word: what [split()] returns the items of. *)
Definition word (s : string) : bool := negb (PyStr.is_empty s) && no_space s.

(** [s] is ASCII text. *)
Definition ascii_text (s : string) : bool :=
  all_chars (fun c => (nat_of_ascii c <? 128)%nat) s.

(** [s] is empty or begins with white space. *)
Definition starts_blank (s : string) : bool :=
  match s with
  | EmptyString => true
  | String c _ => PyStr.is_space c
  end.

Definition is_digit (c : ascii) : bool :=
  match PyStr.digit_of c with Some _ => true | None => false end.

(** ** Lines of the memory-info source *)

(** The lines [get_avail_mem] parses. *)
Definition avail_line (line : string) : bool :=
  existsb (PyStr.startswith line) avail_labels.

(** No line begins with [MemTotal]. *)
Definition no_total (lines : list string) : Prop :=
  Forall (fun line => PyStr.startswith line "MemTotal" = false) lines.

(** ** Signs and sizes *)

(** [x] is a number or an infinity of sign [s] ([true] for minus). *)
Definition has_sign (s : bool) (x : float) : bool :=
  match x with
  | S754_nan => false
  | S754_zero s' | S754_infinity s' | S754_finite s' _ _ => Bool.eqb s' s
  end.

(** The float 100.0. *)
Definition hundred : float := S754_finite false 7036874417766400 (-46).


(** ** Report lines *)



(** The memory map of [pid] can be read at any time and sums to [v]. *)
Definition stable_rss (w : world) (pid : string) (v : Z) : Prop :=
  forall st, rss_mem_of_pid w pid st = (Ret v, log (EvOpen (smaps pid)) st).

(** ** Failing sources *)

(** A memory-info source without [MemTotal]. *)
Definition meminfo_without_total : list string :=
  ["MemFree:          500 kB" ++ nl; "SwapFree:          20 kB" ++ nl].

(** A world whose memory-info source cannot be opened. *)
Definition world_without_meminfo : world :=
  {| w_open := fun _ _ => Raise no_such_file;
     w_popen := fun _ _ => Ret "";
     w_memory := 1 |}.

(** A world where [pidof] fails with [e]. *)
Definition world_failing_pidof (mem : list string) (e : exn) : world :=
  {| w_open := fun _ path =>
       if String.eqb path meminfo then Ret mem else Raise no_such_file;
     w_popen := fun _ _ => Raise e;
     w_memory := 1 |}.

Definition permission_denied : exn := Exn OSError "[Errno 13] Permission denied".

(** A world where the memory map of [pid] may not be read. *)
Definition world_denying (pid : string) : world :=
  {| w_open := fun _ path =>
       if String.eqb path (smaps pid) then Raise permission_denied
       else Raise no_such_file;
     w_popen := fun _ _ => Ret "";
     w_memory := 1 |}.

(** * Properties *)

(** ** Lines and labels *)

Lemma startswith_cons c r a p :
  PyStr.startswith (String c r) (String a p) = true ->
  c = a /\ PyStr.startswith r p = true.
Proof.
  unfold PyStr.startswith. simpl.
  destruct (ascii_dec a c) as [->|]; [auto | discriminate].
Qed.

Lemma startswith_empty a p : PyStr.startswith "" (String a p) = false.
Proof. reflexivity. Qed.

Ltac label_clash :=
  repeat match goal with
         | H : PyStr.startswith ?l _ = true |- _ =>
             is_var l; destruct l;
             [ rewrite startswith_empty in H; discriminate H
             | apply startswith_cons in H; destruct H as [? H] ]
         | H : PyStr.startswith (String _ _) (String _ _) = true |- _ =>
             apply startswith_cons in H; destruct H as [? H]
         end;
  congruence.

Lemma label_free_swap l :
  PyStr.startswith l "MemFree" = true -> PyStr.startswith l "SwapFree" = true -> False.
Proof. intros; label_clash. Qed.

Lemma label_free_avail l :
  PyStr.startswith l "MemFree" = true -> PyStr.startswith l "MemAvailable" = true -> False.
Proof. intros; label_clash. Qed.

Lemma label_swap_avail l :
  PyStr.startswith l "SwapFree" = true -> PyStr.startswith l "MemAvailable" = true -> False.
Proof. intros; label_clash. Qed.

(** The labels the readers look for exclude one another. *)
Lemma labels_apart l :
  (PyStr.startswith l "MemFree" = true ->
     PyStr.startswith l "SwapFree" = false /\
     PyStr.startswith l "MemAvailable" = false) /\
  (PyStr.startswith l "SwapFree" = true ->
     PyStr.startswith l "MemFree" = false /\
     PyStr.startswith l "MemAvailable" = false) /\
  (PyStr.startswith l "MemAvailable" = true ->
     PyStr.startswith l "MemFree" = false /\
     PyStr.startswith l "SwapFree" = false).
Proof.
  pose proof (label_free_swap l). pose proof (label_free_avail l).
  pose proof (label_swap_avail l).
  destruct (PyStr.startswith l "MemFree"), (PyStr.startswith l "SwapFree"),
    (PyStr.startswith l "MemAvailable"); intuition congruence.
Qed.

(** ** The memory-info reader *)

Lemma field_value_cons_hit label line rest v d :
  PyStr.startswith line label = true ->
  field_int line = Ret v ->
  or_else (field_value label (line :: rest)) d
  = or_else (field_value label rest) v.
Proof.
  intros Hs Hf. simpl. destruct (field_value label rest); [reflexivity|].
  now rewrite Hs, Hf.
Qed.

Lemma field_value_cons_miss label line rest :
  PyStr.startswith line label = false ->
  field_value label (line :: rest) = field_value label rest.
Proof.
  intros Hs. simpl. destruct (field_value label rest); [reflexivity|].
  now rewrite Hs.
Qed.

(** The loop keeps, for each label, the number of the last line seen so
    far that begins with it. *)
Lemma get_avail_mem_loop_spec lines :
  readable avail_labels lines ->
  forall mem_free swap_free mem_available,
    get_avail_mem_loop lines mem_free swap_free mem_available
    = Ret (let a := or_else (field_value "MemAvailable" lines) mem_available in
           if a =? 0
           then or_else (field_value "MemFree" lines) mem_free
                + or_else (field_value "SwapFree" lines) swap_free
           else a).
Proof.
  induction 1 as [|line rest Hline Hrest IH]; intros f s a; [reflexivity|].
  pose proof (labels_apart line) as (HF & HS & HA).
  cbn [get_avail_mem_loop].
  destruct (PyStr.startswith line "MemFree") eqn:EF.
  { destruct (Hline "MemFree") as [v Hv]; [simpl; auto | assumption |].
    destruct (HF eq_refl) as [ES EA].
    rewrite Hv; cbn [obind]. rewrite IH.
    rewrite (field_value_cons_miss "SwapFree"), (field_value_cons_miss "MemAvailable")
      by assumption.
    now rewrite (field_value_cons_hit "MemFree" line rest v f). }
  destruct (PyStr.startswith line "SwapFree") eqn:ES.
  { destruct (Hline "SwapFree") as [v Hv]; [simpl; auto | assumption |].
    destruct (HS eq_refl) as [_ EA].
    rewrite Hv; cbn [obind]. rewrite IH.
    rewrite (field_value_cons_miss "MemFree"), (field_value_cons_miss "MemAvailable")
      by assumption.
    now rewrite (field_value_cons_hit "SwapFree" line rest v s). }
  destruct (PyStr.startswith line "MemAvailable") eqn:EA.
  { destruct (Hline "MemAvailable") as [v Hv]; [simpl; auto | assumption |].
    rewrite Hv; cbn [obind]. rewrite IH.
    rewrite (field_value_cons_miss "MemFree"), (field_value_cons_miss "SwapFree")
      by assumption.
    now rewrite (field_value_cons_hit "MemAvailable" line rest v a). }
  rewrite IH.
  now rewrite !field_value_cons_miss by assumption.
Qed.

Ltac readable_lines :=
  unfold readable;
  repeat (constructor;
          [ intros label Hin Hs;
            repeat (destruct Hin as [<-|Hin];
                    [ first [ discriminate Hs | eexists; vm_compute; reflexivity ] |]);
            destruct Hin
          | ]);
  try constructor.

Lemma meminfo_fallback_readable : readable avail_labels meminfo_fallback.
Proof. readable_lines. Qed.

Lemma meminfo_available_readable : readable avail_labels meminfo_available.
Proof. readable_lines. Qed.

(** [get_avail_mem] computes the available memory of the
    specification. *)
Lemma get_avail_mem_run (w : world) (st : state) (lines : list string) :
  w_open w (clock st) meminfo = Ret lines ->
  readable avail_labels lines ->
  get_avail_mem w st = (Ret (available_spec lines), log (EvOpen meminfo) st).
Proof.
  intros Hopen Hread.
  unfold get_avail_mem, bind, open_lines, lift. rewrite Hopen.
  rewrite get_avail_mem_loop_spec by assumption.
  unfold available_spec.
  destruct (field_value "MemAvailable" lines) as [[|p|p]|]; reflexivity.
Qed.

(** C5. Whatever the memory-info source holds: when no line begins with
    [MemAvailable], or the last one reads zero, [get_avail_mem] returns
    MemFree + SwapFree (an absent field counting for zero); when
    [MemAvailable] reads a number other than zero, it returns that number,
    whatever MemFree and SwapFree are. *)
Theorem get_avail_mem_fallback (w : world) (st : state) (lines : list string) :
  w_open w (clock st) meminfo = Ret lines ->
  readable avail_labels lines ->
  (field_value "MemAvailable" lines = None \/
   field_value "MemAvailable" lines = Some 0 ->
   get_avail_mem w st
   = (Ret (or_else (field_value "MemFree" lines) 0
           + or_else (field_value "SwapFree" lines) 0),
      log (EvOpen meminfo) st))
  /\
  (forall v, field_value "MemAvailable" lines = Some v -> v <> 0 ->
   get_avail_mem w st = (Ret v, log (EvOpen meminfo) st)).
Proof.
  intros Hopen Hread.
  rewrite (get_avail_mem_run w st lines Hopen Hread). unfold available_spec. split.
  - intros [-> | ->]; reflexivity.
  - intros v -> Hv. destruct v; [contradiction | reflexivity | reflexivity].
Qed.

Lemma get_avail_mem_fallback_witness :
  get_avail_mem (world_of meminfo_fallback) initial
  = (Ret 500000, log (EvOpen meminfo) initial).
Proof.
  destruct (get_avail_mem_fallback (world_of meminfo_fallback) initial
              meminfo_fallback eq_refl meminfo_fallback_readable) as [H _].
  apply H. left. reflexivity.
Defined.

(** The second example of the specification: with MemAvailable 3000000
    the free and swap-free fields do not count. *)
Example get_avail_mem_available :
  get_avail_mem (world_of meminfo_available) initial
  = (Ret 3000000, log (EvOpen meminfo) initial).
Proof.
  now rewrite (get_avail_mem_run (world_of meminfo_available) initial
                 meminfo_available eq_refl meminfo_available_readable).
Qed.

(** ** The per-process reader *)

Lemma rss_mem_of_pid_loop_sums lines :
  forall values rss_total,
    Forall2 (fun line v => field_int line = Ret v) (rss_lines lines) values ->
    rss_mem_of_pid_loop lines rss_total = (rss_total + sum_values values, None).
Proof.
  induction lines as [|line rest IH]; intros values acc Hv; simpl in *.
  - inversion Hv; subst. simpl. now rewrite Z.add_0_r.
  - destruct (PyStr.startswith line "Rss").
    + inversion Hv as [|? v ? vs Hline Hrest]; subst.
      rewrite Hline, (IH vs) by assumption. simpl. f_equal. lia.
    + now apply IH.
Qed.

(** C6. When the memory-map source of the process exists,
    [rss_mem_of_pid] returns the sum of the numbers of all the lines that
    begin with [Rss]. *)
Theorem rss_mem_of_pid_sums (w : world) (st : state) (pid : string)
    (lines : list string) (values : list Z) :
  w_open w (clock st) (smaps pid) = Ret lines ->
  Forall2 (fun line v => field_int line = Ret v) (rss_lines lines) values ->
  rss_mem_of_pid w pid st = (Ret (sum_values values), log (EvOpen (smaps pid)) st).
Proof.
  intros Hopen Hvalues. unfold rss_mem_of_pid. rewrite Hopen.
  now rewrite (rss_mem_of_pid_loop_sums lines values 0 Hvalues).
Qed.

Lemma rss_mem_of_pid_sums_witness :
  rss_mem_of_pid (world_of_smaps "4242" smaps_two_regions) "4242" initial
  = (Ret 350, log (EvOpen (smaps "4242")) initial).
Proof.
  apply (rss_mem_of_pid_sums (world_of_smaps "4242" smaps_two_regions) initial
           "4242" smaps_two_regions [100; 250]).
  - reflexivity.
  - repeat constructor.
Defined.

(** ** The driver *)

Lemma bind_ret {A B} (c : M A) (k : A -> M B) st a st' :
  c st = (Ret a, st') -> bind c k st = k a st'.
Proof. unfold bind. now intros ->. Qed.

Lemma bind_lift {A B} (o : outcome A) (k : A -> M B) st :
  bind (lift o) k st = match o with Ret a => k a st | Raise e => (Raise e, st) end.
Proof. reflexivity. Qed.

(** The part of [main] before the branch on [args.program]: either it
    raises, having opened the memory-info source once or twice and
    printed nothing, or it hands sizes and a bar to one of the branches. *)
Lemma main_prelude (w : world) (args : Namespace) :
  (exists e st',
      main w args initial = (Raise e, st') /\
      (st_trace st' = [EvOpen meminfo] \/ st_trace st' = st_trace after_meminfo) /\
      st_out st' = []) \/
  (exists total_mem total_mem_hr used_mem_hr percent_used bar_graph,
      main w args initial
      = match given (arg_program args) with
        | Some program => report_program w args program total_mem total_mem_hr after_meminfo
        | None => report_system w percent_used bar_graph used_mem_hr total_mem_hr after_meminfo
        end).
Proof.
  remember (main w args initial) as r eqn:E.
  unfold main, get_sys_mem, get_avail_mem in E.
  unfold bind at 1 in E. unfold bind at 1 in E.
  unfold open_lines at 1 in E. unfold lift at 1 in E.
  destruct (w_open w (clock initial) meminfo) as [lines0|e0].
  2:{ left. eexists _, _. split; [eassumption|]. split; [left|]; reflexivity. }
  destruct (get_sys_mem_loop lines0) as [total|e0].
  2:{ left. eexists _, _. split; [eassumption|]. split; [left|]; reflexivity. }
  unfold bind at 1 in E. unfold bind at 1 in E.
  unfold open_lines at 1 in E. unfold lift at 1 in E.
  destruct (w_open w _ meminfo) as [lines1|e1].
  2:{ left. eexists _, _. split; [eassumption|]. split; [right|]; reflexivity. }
  destruct (get_avail_mem_loop lines1 0 0 0) as [avail|e1].
  2:{ left. eexists _, _. split; [eassumption|]. split; [right|]; reflexivity. }
  destruct total as [total|].
  2:{ left. eexists _, _. split; [eassumption|]. split; [right|]; reflexivity. }
  repeat (rewrite bind_lift in E;
          match type of E with
          | context [match ?o with Ret _ => _ | Raise _ => _ end] =>
              destruct o;
              [| left; eexists _, _; split; [eassumption|]; split; [right|]; reflexivity ]
          end).
  right. eexists _, _, _, _, _.
  destruct (given (arg_program args)); exact E.
Qed.

Lemma no_popen_after_meminfo cmd st :
  st_trace st = [EvOpen meminfo] \/ st_trace st = st_trace after_meminfo ->
  ~ In (EvPopen cmd) (st_trace st).
Proof. intros [-> | ->]; simpl; intuition discriminate. Qed.

(** C8. When a program argument is given, the run reaches the resolver
    and the resolver returns no process identifier, [main] prints
    "<name> not found." after what the resolver printed, does no further
    I/O and returns normally. *)
Theorem main_program_not_found (w : world) (args : Namespace) (program : string) :
  arg_program args = Some program ->
  In (EvPopen (pidof program)) (st_trace (snd (main w args initial))) ->
  fst (pids_of_prog w program after_meminfo) = Ret [] ->
  main w args initial
  = (Ret tt, emit (program ++ " not found.") (snd (pids_of_prog w program after_meminfo)))
  /\ st_trace (snd (main w args initial))
     = [EvOpen meminfo; EvOpen meminfo; EvPopen (pidof program)].
Proof.
  intros Hprog Hin Hres.
  destruct (main_prelude w args) as [(e & st' & Hrun & Htrace & _) | (total & hr & used & pct & bar & Hrun)];
    rewrite Hrun in *.
  - exfalso. exact (no_popen_after_meminfo _ _ Htrace Hin).
  - rewrite Hprog in *. destruct program as [|c r]; cbn [given] in *.
    + exfalso. revert Hin. unfold report_system. rewrite bind_lift.
      destruct (PyFloat.of_int 100);
        [rewrite bind_lift; destruct (py_format _ _)|];
        cbn [print snd emit st_trace after_meminfo In]; intuition discriminate.
    + clear Hrun. unfold report_program in *.
      destruct (pids_of_prog w (String c r) after_meminfo) as [o st3] eqn:Hp.
      simpl in Hres. subst o.
      rewrite (bind_ret _ _ _ _ _ Hp). split; [reflexivity|].
      unfold pids_of_prog in Hp. cbn [print snd emit st_trace].
      destruct (w_popen w (clock after_meminfo) (pidof (String c r)));
        apply (f_equal snd) in Hp; cbn [snd] in Hp; subst st3; reflexivity.
Qed.

Lemma main_program_not_found_witness :
  main (world_with meminfo_small "" "4242" smaps_two_regions)
       (args_of (Some "nonexistent-binary-xyz")) initial
  = (Ret tt,
     {| st_trace := [EvOpen meminfo; EvOpen meminfo;
                     EvPopen "pidof nonexistent-binary-xyz"];
        st_out := ["nonexistent-binary-xyz not found."] |}).
Proof.
  destruct (main_program_not_found
              (world_with meminfo_small "" "4242" smaps_two_regions)
              (args_of (Some "nonexistent-binary-xyz"))
              "nonexistent-binary-xyz" eq_refl) as [H _].
  - vm_compute. auto.
  - reflexivity.
  - rewrite H. reflexivity.
Defined.



(** ** The order of the I/O attempts *)

Lemma follows_lift {A} (o : outcome A) st : follows [] st (lift o st).
Proof.
  unfold follows, lift. destruct o; cbn [fst snd].
  - now rewrite app_nil_r.
  - exists []. reflexivity.
Qed.

Lemma follows_ret {A} (a : A) st : follows [] st (ret a st).
Proof. unfold follows, ret. cbn [fst snd]. now rewrite app_nil_r. Qed.

Lemma follows_print line st : follows [] st (print line st).
Proof. unfold follows, print. cbn [fst snd emit st_trace]. now rewrite app_nil_r. Qed.

Lemma follows_bind {A B} (c : M A) (k : A -> M B) plan1 plan2 st :
  follows plan1 st (c st) ->
  (forall a st', follows plan2 st' (k a st')) ->
  follows (plan1 ++ plan2) st (bind c k st).
Proof.
  unfold follows at 1. unfold bind. intros Hc Hk.
  destruct (c st) as [[a|e] st1]; cbn [fst snd] in *.
  - specialize (Hk a st1). unfold follows in *.
    destruct (fst (k a st1)).
    + now rewrite Hk, Hc, app_assoc.
    + destruct Hk as [later Hk]. exists later. now rewrite <- Hk, Hc, app_assoc.
  - destruct Hc as [later Hc]. exists (later ++ plan2)%list.
    unfold follows. cbn [fst snd]. now rewrite !app_assoc, Hc.
Qed.

Lemma follows_rss w pid st :
  follows [EvOpen (smaps pid)] st (rss_mem_of_pid w pid st).
Proof.
  unfold follows, rss_mem_of_pid.
  destruct (match w_open w (clock st) (smaps pid) with
            | Ret lines => rss_mem_of_pid_loop lines 0
            | Raise e => (0, Some e)
            end) as [total [e|]]; [destruct (is_file_not_found e)|];
    cbn [fst snd log emit st_trace]; try reflexivity.
  exists []. now rewrite app_nil_r.
Qed.

Lemma follows_sum_rss w pids :
  forall total st, follows (opens pids) st (sum_rss w pids total st).
Proof.
  induction pids as [|pid rest IH]; intros total st; cbn [sum_rss opens map].
  - apply follows_ret.
  - apply (follows_bind _ _ [EvOpen (smaps pid)] (opens rest)).
    + apply follows_rss.
    + intros a st'. apply IH.
Qed.

Lemma follows_report_pids w args total_mem total_mem_hr pids :
  forall st,
    follows (opens pids) st (report_pids w args total_mem total_mem_hr pids st).
Proof.
  induction pids as [|pid rest IH]; intros st; cbn [report_pids opens map].
  - apply follows_ret.
  - apply (follows_bind _ _ [EvOpen (smaps pid)] (opens rest)).
    + apply follows_rss.
    + intros pid_rss st1.
      repeat (apply (follows_bind _ _ [] _); [apply follows_lift | intros ? ?]).
      apply (follows_bind _ _ [] _); [apply follows_print | intros ? ?].
      apply IH.
Qed.

Lemma follows_shift {A} ev plan st st1 (run : outcome A * state) :
  st_trace st1 = (st_trace st ++ [ev])%list ->
  follows plan st1 run -> follows (ev :: plan) st run.
Proof.
  unfold follows. intros Hst. rewrite Hst, <- !app_assoc. exact (fun H => H).
Qed.

Lemma pids_of_prog_run w program st :
  exists pids st1,
    pids_of_prog w program st = (Ret pids, st1) /\
    st_trace st1 = (st_trace st ++ [EvPopen (pidof program)])%list.
Proof.
  unfold pids_of_prog.
  destruct (w_popen w (clock st) (pidof program)); eexists _, _; split; reflexivity.
Qed.

Lemma follows_report_program w args program total_mem total_mem_hr st pids st1 :
  pids_of_prog w program st = (Ret pids, st1) ->
  follows (EvPopen (pidof program) :: opens pids ++ opens pids) st
    (report_program w args program total_mem total_mem_hr st).
Proof.
  intros Hp.
  destruct (pids_of_prog_run w program st) as (pids' & st1' & Hp' & Htrace).
  rewrite Hp in Hp'. injection Hp' as <- <-.
  apply (follows_shift _ _ _ st1); [assumption|].
  unfold report_program. rewrite (bind_ret _ _ _ _ _ Hp).
  destruct pids as [|pid rest].
  - apply follows_print.
  - apply follows_bind; [apply follows_sum_rss | intros ? ?].
    repeat (apply (follows_bind _ _ [] _); [apply follows_lift | intros ? ?]).
    apply (follows_bind _ _ [] _); [apply follows_print | intros ? ?].
    apply follows_report_pids.
Qed.

Lemma length_append (s t : string) :
  String.length (s ++ t) = (String.length s + String.length t)%nat.
Proof. induction s as [|c s IH]; simpl; [reflexivity | now rewrite IH]. Qed.

Lemma append_cancel_r (s : string) : forall p q, p ++ s = q ++ s -> p = q.
Proof.
  assert (Hlen : forall p c, String c (p ++ s) <> s).
  { intros p c H. apply (f_equal String.length) in H. simpl in H.
    rewrite length_append in H. lia. }
  induction p as [|c p IH]; intros [|d q] H; simpl in H.
  - reflexivity.
  - symmetry in H. now apply Hlen in H.
  - now apply Hlen in H.
  - injection H as -> H. f_equal. now apply IH.
Qed.

Lemma smaps_inj p q : smaps p = smaps q -> p = q.
Proof.
  unfold smaps. intros H. injection H as H. now apply append_cancel_r in H.
Qed.

Lemma smaps_not_meminfo pid : smaps pid <> meminfo.
Proof.
  unfold smaps, meminfo. intros H. injection H as H.
  assert (Hlen := f_equal String.length H). rewrite length_append in Hlen.
  destruct pid as [|c [|d p]]; simpl in *; try discriminate; lia.
Qed.

Lemma count_opens_app path t1 t2 :
  count_opens path (t1 ++ t2) = (count_opens path t1 + count_opens path t2)%nat.
Proof. unfold count_opens. now rewrite filter_app, length_app. Qed.

Lemma count_opens_meminfo_opens pids : count_opens meminfo (opens pids) = 0%nat.
Proof.
  induction pids as [|pid rest IH]; [reflexivity|].
  unfold count_opens in *. cbn [opens map filter is_open].
  destruct (String.eqb_spec (smaps pid) meminfo) as [H|_]; [|exact IH].
  now apply smaps_not_meminfo in H.
Qed.

Lemma count_opens_smaps_opens pid pids :
  count_opens (smaps pid) (opens pids) = count_occ string_dec pids pid.
Proof.
  induction pids as [|p rest IH]; [reflexivity|].
  unfold count_opens in *. cbn [opens map filter is_open count_occ].
  destruct (String.eqb_spec (smaps p) (smaps pid)) as [H|H].
  - apply smaps_inj in H. subst p.
    destruct (string_dec pid pid); [|contradiction]. simpl. now rewrite <- IH.
  - destruct (string_dec p pid) as [->|_]; [contradiction|]. exact IH.
Qed.

Lemma count_popens_opens pids : count_popens (opens pids) = 0%nat.
Proof. induction pids as [|pid rest IH]; [reflexivity | exact IH]. Qed.

(** C9, as the code has it. The I/O attempts of [main] follow one fixed
    plan. In a run that returns normally the memory-info source is opened
    exactly twice (by [get_sys_mem], then by [get_avail_mem]); [pidof] is
    run exactly once when a program name that is not empty is given, and
    not at all otherwise; and the memory map of each resolved process is
    opened exactly twice for each time the process occurs in the list
    that [pidof] printed (once in the summing loop, once in the reporting
    loop), whatever the opens answer. A run that raises has made an
    initial part of the plan. *)
Theorem io_attempts_follow_schedule (w : world) (args : Namespace) :
  let run := main w args initial in
  match fst run with
  | Ret _ =>
      st_trace (snd run) = schedule w args /\
      count_opens meminfo (st_trace (snd run)) = 2%nat /\
      count_popens (st_trace (snd run))
      = match given (arg_program args) with Some _ => 1%nat | None => 0%nat end /\
      (forall pid, count_opens (smaps pid) (st_trace (snd run))
                   = (2 * count_occ string_dec (resolved w args) pid)%nat)
  | Raise _ => exists later, (schedule w args = st_trace (snd run) ++ later)%list
  end.
Proof.
  intros run.
  assert (Hplan : follows (schedule w args) initial run).
  { subst run. unfold schedule, resolved.
    destruct (main_prelude w args)
      as [(e & st' & Hrun & Htrace & _) | (total & hr & used & pct & bar & Hrun)];
      rewrite Hrun.
    - unfold follows. cbn [fst snd initial st_trace app].
      destruct Htrace as [-> | ->]; cbn [after_meminfo st_trace].
      + eexists. reflexivity.
      + eexists. reflexivity.
    - apply (follows_shift (EvOpen meminfo) _ _ (log (EvOpen meminfo) initial));
        [reflexivity|].
      apply (follows_shift (EvOpen meminfo) _ _ after_meminfo); [reflexivity|].
      destruct (given (arg_program args)) as [program|].
      + destruct (pids_of_prog_run w program after_meminfo) as (pids & st1 & Hp & _).
        rewrite Hp. cbn [fst]. now apply (follows_report_program _ _ _ _ _ _ pids st1).
      + unfold report_system.
        apply (follows_bind _ _ [] []); [apply follows_lift | intros ? ?].
        apply (follows_bind _ _ [] []); [apply follows_lift | intros ? ?].
        apply follows_print. }
  unfold follows in Hplan. cbn [initial st_trace app] in Hplan.
  destruct (fst run); [|exact Hplan].
  rewrite Hplan. split; [reflexivity|].
  unfold schedule.
  destruct (given (arg_program args)) as [program|] eqn:Hgiven.
  - split.
    + change (count_opens meminfo
                ([EvOpen meminfo; EvOpen meminfo; EvPopen (pidof program)]
                 ++ (opens (resolved w args) ++ opens (resolved w args))) = 2%nat).
      now rewrite !count_opens_app, !count_opens_meminfo_opens.
    + split.
      { unfold count_popens.
        cbn [app filter is_popen List.length]. rewrite filter_app, length_app.
        fold (count_popens (opens (resolved w args))).
        now rewrite count_popens_opens. }
      intros pid.
      change (count_opens (smaps pid)
                ([EvOpen meminfo; EvOpen meminfo; EvPopen (pidof program)]
                 ++ (opens (resolved w args) ++ opens (resolved w args)))
              = (2 * count_occ string_dec (resolved w args) pid)%nat).
      rewrite !count_opens_app, !count_opens_smaps_opens.
      assert (H0 : count_opens (smaps pid)
                     [EvOpen meminfo; EvOpen meminfo; EvPopen (pidof program)] = 0%nat).
      { unfold count_opens. cbn [filter is_open].
        destruct (String.eqb_spec meminfo (smaps pid)) as [H|_]; [|reflexivity].
        symmetry in H. now apply smaps_not_meminfo in H. }
      rewrite H0. lia.
  - split; [reflexivity|]. split; [reflexivity|]. intros pid.
    unfold resolved. rewrite Hgiven. cbn [count_occ].
    unfold count_opens. cbn [app filter is_open].
    destruct (String.eqb_spec meminfo (smaps pid)) as [H|_]; [|reflexivity].
    symmetry in H. now apply smaps_not_meminfo in H.
Qed.

(** C9 as stated does not hold: in a run that reports a program with one
    process, the memory-info source and the memory map are each opened
    twice. *)
Lemma reads_once_counterexample :
  ~ reads_once (world_with meminfo_small "4242" "4242" smaps_two_regions)
      (args_of (Some "prog")).
Proof.
  unfold reads_once. intros [H _]. vm_compute in H. discriminate H.
Qed.

(** ** The system report *)

(** C1. With MemTotal 1000 and MemAvailable 250 in the memory-info
    source, no program argument, a bar of length 10 and sizes in KiB,
    [main] prints one line whose bar has 7 fill characters and 3 spaces
    and whose sizes read "750 KiB/1000 KiB". *)
Theorem main_system_report (w : world) (args : Namespace) (lines : list string) :
  (forall n, w_open w n meminfo = Ret lines) ->
  get_sys_mem_loop lines = Ret (Some 1000) ->
  get_avail_mem_loop lines 0 0 0 = Ret 250 ->
  arg_program args = None ->
  arg_human_readable args = false ->
  arg_length args = 10 ->
  main w args initial
  = (Ret tt,
     {| st_trace := [EvOpen meminfo; EvOpen meminfo];
        st_out := ["Memory         [" ++ PyStr.mul "#" 7 ++ PyStr.mul " " 3
                     ++ " | 75%] " ++ "750 KiB/1000 KiB"] |}).
Proof.
  intros Hopen Htotal Havail Hprog Hhuman Hlen.
  unfold main, get_sys_mem, get_avail_mem, open_lines, bind, lift.
  rewrite !Hopen, Htotal, Havail, Hprog, Hhuman, Hlen.
  vm_compute. reflexivity.
Qed.

Lemma main_system_report_witness :
  main (world_of meminfo_small) (args_of None) initial
  = (Ret tt,
     {| st_trace := [EvOpen meminfo; EvOpen meminfo];
        st_out := ["Memory         [#######    | 75%] 750 KiB/1000 KiB"] |}).
Proof.
  apply (main_system_report (world_of meminfo_small) (args_of None) meminfo_small);
    reflexivity.
Defined.

(** ** The float model on known values *)

(** [1 / 3] is 0x1.5555555555555p-2, and [1 / 3 * 3 == 1.0]. *)
Example third_times_three :
  int_truediv 1 3 = Ret (S754_finite false 6004799503160661 (-54)) /\
  obind (of_int 3) (fun three => Ret (mul (S754_finite false 6004799503160661 (-54)) three))
  = Ret one.
Proof. split; vm_compute; reflexivity. Qed.

(** [float(2**53 + 1) == 2.0**53]: ties go to the even mantissa. *)
Example of_int_tie :
  of_int (2 ^ 53 + 1) = Ret (S754_finite false 4503599627370496 1).
Proof. vm_compute. reflexivity. Qed.

(** [f"{0.125:.2f}"] is "0.12" and [f"{2.5:.0f}"] is "2". *)
Example format_f_ties :
  format_f 2 (S754_finite false 4503599627370496 (-55)) = "0.12"%string /\
  format_f 0 (S754_finite false 5629499534213120 (-51)) = "2"%string.
Proof. split; vm_compute; reflexivity. Qed.

(** [int(-1.5) == -1] and [-3 / 2 == -1.5]. *)
Example to_int_toward_zero :
  obind (int_truediv (-3) 2) to_int = Ret (-1).
Proof. vm_compute. reflexivity. Qed.

(** ** Binary digits *)

Lemma digits2_size p : digits2_pos p = Pos.size p.
Proof. induction p; simpl; congruence. Qed.

Lemma digits2_bounds p :
  2 ^ (Zpos (digits2_pos p) - 1) <= Zpos p < 2 ^ Zpos (digits2_pos p).
Proof.
  rewrite digits2_size. split.
  - pose proof (Pos.size_le p) as H.
    assert (H2 : 2 ^ Zpos (Pos.size p) <= 2 * Zpos p).
    { rewrite <- Pos2Z.inj_pow. change (2 * Zpos p) with (Zpos p~0). exact H. }
    replace (Zpos (Pos.size p)) with (Z.succ (Zpos (Pos.size p) - 1)) in H2 by lia.
    rewrite Z.pow_succ_r in H2 by lia. lia.
  - pose proof (Pos.size_gt p) as H. rewrite <- Pos2Z.inj_pow. exact H.
Qed.

Lemma digits2_unique p d :
  2 ^ (d - 1) <= Zpos p < 2 ^ d -> Zpos (digits2_pos p) = d.
Proof.
  intros [Hlo Hhi]. pose proof (digits2_bounds p) as [Hlo' Hhi'].
  assert (0 < d).
  { destruct (Z.lt_trichotomy d 0) as [Hd|[Hd|Hd]]; [| |assumption].
    - rewrite Z.pow_neg_r in Hhi by assumption. lia.
    - subst d. simpl in Hhi. lia. }
  destruct (Z.lt_trichotomy (Zpos (digits2_pos p)) d) as [Hd|[Hd|Hd]]; [|assumption|].
  - assert (2 ^ Zpos (digits2_pos p) <= 2 ^ (d - 1)) by (apply Z.pow_le_mono_r; lia). lia.
  - assert (2 ^ d <= 2 ^ (Zpos (digits2_pos p) - 1)) by (apply Z.pow_le_mono_r; lia). lia.
Qed.

(** ** Shifting right *)

Lemma iter_pos_nat {A} (f : A -> A) p x :
  iter_pos f p x = Nat.iter (Pos.to_nat p) f x.
Proof.
  revert x. induction p as [p IH|p IH|]; intros x; cbn [iter_pos].
  - rewrite !IH. rewrite Pos2Nat.inj_xI.
    replace (S (2 * Pos.to_nat p)) with (Pos.to_nat p + (Pos.to_nat p + 1))%nat by lia.
    rewrite !Nat.iter_add. reflexivity.
  - rewrite !IH. rewrite Pos2Nat.inj_xO.
    replace (2 * Pos.to_nat p)%nat with (Pos.to_nat p + Pos.to_nat p)%nat by lia.
    rewrite Nat.iter_add. reflexivity.
  - reflexivity.
Qed.

Lemma shr_1_spec m r s :
  0 <= m ->
  shr_1 {| shr_m := m; shr_r := r; shr_s := s |}
  = {| shr_m := m / 2; shr_r := Z.odd m; shr_s := r || s |}.
Proof.
  intros Hm. rewrite <- Z.div2_div.
  destruct m as [|[p|p|]|p]; try reflexivity. lia.
Qed.

(** [k] right shifts of an exact record: the quotient, the bit just
    below it and whether anything lies further below. *)
Lemma shr_nat_spec m k :
  0 <= m ->
  Nat.iter (S k) shr_1 {| shr_m := m; shr_r := false; shr_s := false |}
  = {| shr_m := m / 2 ^ Z.of_nat (S k);
       shr_r := Z.testbit m (Z.of_nat k);
       shr_s := negb (m mod 2 ^ Z.of_nat k =? 0) |}.
Proof.
  intros Hm. induction k as [|k IH].
  - rewrite Nat.iter_succ. change (Nat.iter 0 shr_1 ?x) with x.
    rewrite shr_1_spec by assumption.
    change (Z.of_nat 1) with 1. change (Z.of_nat 0) with 0.
    rewrite Z.pow_1_r, Z.pow_0_r, Z.mod_1_r, Z.bit0_odd. reflexivity.
  - rewrite Nat.iter_succ, IH. rewrite shr_1_spec by (apply Z.div_pos; lia).
    f_equal.
    + rewrite Z.div_div by lia.
      rewrite (Nat2Z.inj_succ (S k)), Z.pow_succ_r by lia. f_equal. lia.
    + rewrite <- Z.bit0_odd, Z.div_pow2_bits by lia. reflexivity.
    + rewrite (Nat2Z.inj_succ k).
      pose proof (Z.testbit_spec' m (Z.of_nat k) ltac:(lia)) as Hb.
      pose proof (Z.mod_pos_bound m (2 ^ Z.of_nat k) ltac:(lia)) as Hlow.
      assert (Hsplit : m mod 2 ^ Z.succ (Z.of_nat k)
                       = 2 ^ Z.of_nat k * ((m / 2 ^ Z.of_nat k) mod 2) + m mod 2 ^ Z.of_nat k).
      { rewrite Z.pow_succ_r by lia.
        rewrite (Z.mul_comm 2), Z.rem_mul_r by lia. lia. }
      rewrite Hsplit, <- Hb.
      assert (0 < 2 ^ Z.of_nat k) by lia.
      destruct (Z.testbit m (Z.of_nat k)); cbn [Z.b2z orb].
      * symmetry. apply negb_true_iff, Z.eqb_neq. lia.
      * f_equal. f_equal. lia.
Qed.

Lemma shr_exact_spec m e n :
  0 <= m -> 0 < n ->
  shr (exact_record m) e n
  = ({| shr_m := m / 2 ^ n;
        shr_r := Z.testbit m (n - 1);
        shr_s := negb (m mod 2 ^ (n - 1) =? 0) |}, e + n).
Proof.
  intros Hm Hn. destruct n as [|p|p]; try lia.
  unfold shr, exact_record. rewrite iter_pos_nat.
  destruct (Pos2Nat.is_succ p) as [k Hk]. rewrite Hk.
  rewrite shr_nat_spec by assumption.
  assert (Hp : Zpos p = Z.of_nat (S k)) by lia.
  rewrite Hp. repeat f_equal; lia.
Qed.

(** Shifting right and rounding the record to nearest even is rounding
    the quotient by the power of two. *)
Lemma shr_round_spec m e n :
  0 <= m -> 0 < n ->
  let mrs := fst (shr (exact_record m) e n) in
  round_nearest_even (shr_m mrs) (loc_of_shr_record mrs)
  = round_half_even m (2 ^ n).
Proof.
  intros Hm Hn. rewrite shr_exact_spec by assumption. cbn [fst shr_m].
  unfold round_half_even.
  pose proof (Z.testbit_spec' m (n - 1) ltac:(lia)) as Hb.
  pose proof (Z.mod_pos_bound m (2 ^ (n - 1)) ltac:(lia)) as Hlow.
  assert (Hpow : 2 ^ n = 2 * 2 ^ (n - 1)).
  { rewrite <- Z.pow_succ_r by lia. f_equal. lia. }
  assert (Hsplit : m mod 2 ^ n
                   = 2 ^ (n - 1) * ((m / 2 ^ (n - 1)) mod 2) + m mod 2 ^ (n - 1)).
  { rewrite Hpow, (Z.mul_comm 2), Z.rem_mul_r by lia. lia. }
  rewrite Hsplit, <- Hb, Hpow.
  destruct (Z.testbit m (n - 1)); cbn [Z.b2z];
    destruct (Z.eqb_spec (m mod 2 ^ (n - 1)) 0) as [E|E]; cbn [negb loc_of_shr_record round_nearest_even].
  - rewrite E. replace (2 * (2 ^ (n - 1) * 1 + 0) ?= 2 * 2 ^ (n - 1)) with Eq; [reflexivity|].
    symmetry. apply Z.compare_eq_iff. lia.
  - replace (2 * (2 ^ (n - 1) * 1 + m mod 2 ^ (n - 1)) ?= 2 * 2 ^ (n - 1)) with Gt; [reflexivity|].
    symmetry. apply Z.compare_gt_iff. lia.
  - replace (2 * (2 ^ (n - 1) * 0 + m mod 2 ^ (n - 1)) ?= 2 * 2 ^ (n - 1)) with Lt; [reflexivity|].
    symmetry. apply Z.compare_lt_iff. lia.
  - replace (2 * (2 ^ (n - 1) * 0 + m mod 2 ^ (n - 1)) ?= 2 * 2 ^ (n - 1)) with Lt; [reflexivity|].
    symmetry. apply Z.compare_lt_iff. lia.
Qed.

(** ** Rounding to nearest, ties to even *)

Lemma round_half_even_bounds num den :
  0 < den ->
  num / den <= round_half_even num den <= num / den + 1 /\
  (num mod den = 0 -> round_half_even num den = num / den) /\
  (round_half_even num den = num / den + 1 -> num mod den <> 0).
Proof.
  intros Hden. unfold round_half_even.
  destruct (2 * (num mod den) ?= den) eqn:E.
  - apply Z.compare_eq_iff in E. destruct (Z.even (num / den)); lia.
  - lia.
  - apply Z.compare_gt_iff in E. lia.
Qed.

Lemma fexp_64 e : fexp prec emax e = fexp64 e.
Proof. reflexivity. Qed.

Lemma binary_round_aux_exact s (P : positive) e :
  let g := fexp64 (Zpos (digits2_pos P) + e) in
  binary_round_aux prec emax s (Zpos P) e loc_Exact
  = if g <=? e then assemble s (Zpos P) e
    else assemble s (round_half_even (Zpos P) (2 ^ (g - e))) g.
Proof.
  intros g. unfold binary_round_aux.
  unfold shr_fexp at 1. cbn [Zdigits2 shr_record_of_loc]. rewrite fexp_64. fold g.
  destruct (Z.leb_spec g e) as [Hle|Hlt].
  - assert (Hshr : shr {| shr_m := Zpos P; shr_r := false; shr_s := false |} e (g - e)
                   = (exact_record (Zpos P), e)).
    { unfold shr. destruct (g - e) eqn:E; try reflexivity. lia. }
    rewrite Hshr. reflexivity.
  - pose proof (shr_round_spec (Zpos P) e (g - e) ltac:(lia) ltac:(lia)) as Hr.
    pose proof (shr_exact_spec (Zpos P) e (g - e) ltac:(lia) ltac:(lia)) as He.
    unfold exact_record in *.
    destruct (shr {| shr_m := Zpos P; shr_r := false; shr_s := false |} e (g - e))
      as [mrs e'].
    cbn [fst] in Hr. rewrite Hr.
    injection He as _ He. subst e'. replace (e + (g - e)) with g by lia.
    reflexivity.
Qed.

Lemma shr_fexp_stay q g :
  fexp64 (Zdigits2 q + g) <= g ->
  shr_fexp prec emax q g loc_Exact = (exact_record q, g).
Proof.
  intros H. unfold shr_fexp. rewrite fexp_64. cbn [shr_record_of_loc].
  unfold shr. destruct (fexp64 (Zdigits2 q + g) - g) eqn:E; try reflexivity. lia.
Qed.

Lemma assemble_zero s g : assemble s 0 g = S754_zero s.
Proof.
  unfold assemble, shr_fexp. rewrite fexp_64. cbn [Zdigits2 shr_record_of_loc].
  destruct (Z.leb_spec (fexp64 (0 + g) - g) 0) as [H|H].
  - unfold shr. destruct (fexp64 (0 + g) - g) eqn:E; try reflexivity. lia.
  - change {| shr_m := 0; shr_r := false; shr_s := false |} with (exact_record 0).
    rewrite shr_exact_spec by lia. cbn [shr_m]. now rewrite Z.div_0_l by lia.
Qed.

(** A mantissa of at most 53 digits at an exponent in range is kept. *)
Lemma assemble_fits s (q : positive) g :
  Zpos (digits2_pos q) <= 53 -> -1074 <= g ->
  assemble s (Zpos q) g
  = if g <=? 971 then S754_finite s q g else S754_infinity s.
Proof.
  intros Hd Hg. unfold assemble. rewrite shr_fexp_stay; [reflexivity|].
  cbn [Zdigits2]. unfold fexp64. lia.
Qed.

(** The mantissa 2^53, reached when rounding carries, loses one digit. *)
Lemma assemble_carry s g :
  -1075 <= g ->
  assemble s (2 ^ 53) g
  = if g + 1 <=? 971 then S754_finite s (2 ^ 52) (g + 1) else S754_infinity s.
Proof.
  intros Hg. unfold assemble, shr_fexp. rewrite fexp_64.
  change (Zdigits2 (2 ^ 53)) with 54.
  replace (fexp64 (54 + g) - g) with 1 by (unfold fexp64; lia).
  reflexivity.
Qed.

Lemma iter_xO m d : Zpos (Pos.iter xO m d) = Zpos m * 2 ^ Zpos d.
Proof.
  induction d as [|d IH] using Pos.peano_ind.
  - cbn [Pos.iter]. change (2 ^ 1) with 2. lia.
  - rewrite Pos.iter_succ, Pos2Z.inj_xO, IH, Pos2Z.inj_succ, Z.pow_succ_r by lia. lia.
Qed.

Lemma digits2_shift m k :
  0 <= k ->
  forall p, Zpos p = Zpos m * 2 ^ k ->
  Zpos (digits2_pos p) = Zpos (digits2_pos m) + k.
Proof.
  intros Hk p Hp. apply digits2_unique. rewrite Hp.
  pose proof (digits2_bounds m) as [Hlo Hhi].
  pose proof (Pos2Z.is_pos (digits2_pos m)).
  replace (Zpos (digits2_pos m) + k - 1) with (Zpos (digits2_pos m) - 1 + k) by lia.
  rewrite !Z.pow_add_r by lia.
  assert (0 < 2 ^ k) by (apply Z.pow_pos_nonneg; lia). nia.
Qed.

(** ** Converting an integer to a float *)

Lemma shl_align_spec m e e' :
  (e <= e' -> shl_align m e e' = (m, e)) /\
  (e' < e -> exists p, shl_align m e e' = (p, e') /\ Zpos p = Zpos m * 2 ^ (e - e')).
Proof.
  unfold shl_align. split; intros H.
  - destruct (e' - e) eqn:E; try reflexivity. lia.
  - destruct (e' - e) as [|d|d] eqn:E; try lia.
    exists (Pos.iter xO m d). split; [reflexivity|].
    rewrite iter_xO. f_equal. f_equal. lia.
Qed.

(** Rounding [m * 2^e] to a float: shift left when the mantissa is short,
    keep it when it has the right size, shift right and round when it is
    long. *)
Lemma binary_round_spec s m e :
  let g := fexp64 (Zpos (digits2_pos m) + e) in
  binary_round prec emax s m e
  = if g <? e then assemble s (Zpos m * 2 ^ (e - g)) g
    else if g =? e then assemble s (Zpos m) e
    else assemble s (round_half_even (Zpos m) (2 ^ (g - e))) g.
Proof.
  intros g. unfold binary_round. rewrite fexp_64. fold g.
  destruct (shl_align_spec m e g) as [Hstay Hshift].
  destruct (Z.ltb_spec g e) as [Hlt|Hle].
  - destruct (Hshift Hlt) as (p & -> & Hp).
    rewrite binary_round_aux_exact.
    rewrite (digits2_shift m (e - g) ltac:(lia) p Hp).
    replace (Zpos (digits2_pos m) + (e - g) + g) with (Zpos (digits2_pos m) + e) by lia.
    fold g. rewrite Z.leb_refl. now rewrite Hp.
  - rewrite (Hstay Hle), binary_round_aux_exact. fold g.
    destruct (Z.eqb_spec g e) as [->|Hne].
    + now rewrite Z.leb_refl.
    + destruct (Z.leb_spec g e); [lia | reflexivity].
Qed.

(** [float(z)] for [0 < z < 2^53]: the mantissa is [z] shifted left to
    53 digits; nothing is lost. *)
Lemma of_int_small (z : positive) :
  Zpos z < 2 ^ 53 ->
  exists m e,
    of_int (Zpos z) = Ret (S754_finite false m e) /\
    Zpos (digits2_pos m) = 53 /\
    e = Zpos (digits2_pos z) - 53 /\
    Zpos m = Zpos z * 2 ^ (- e).
Proof.
  intros Hz. pose proof (digits2_bounds z) as [Hlo Hhi].
  set (d := Zpos (digits2_pos z)) in *.
  assert (Hd : 1 <= d <= 53).
  { split; [subst d; lia|].
    destruct (Z.le_gt_cases d 53) as [H|H]; [assumption|].
    assert (2 ^ 53 <= 2 ^ (d - 1)) by (apply Z.pow_le_mono_r; lia). lia. }
  unfold of_int, binary_normalize. rewrite binary_round_spec. fold d.
  replace (fexp64 (d + 0)) with (d - 53) by (unfold fexp64; lia).
  assert (Hpow : 0 < 2 ^ (0 - (d - 53))) by (apply Z.pow_pos_nonneg; lia).
  destruct (Z.ltb_spec (d - 53) 0) as [Hlt|Hge].
  - destruct (Zpos z * 2 ^ (0 - (d - 53))) as [|p|p] eqn:Hp; try lia.
    assert (Hdig := digits2_shift z (0 - (d - 53)) ltac:(lia) p (eq_sym Hp)). fold d in Hdig.
    rewrite assemble_fits by lia.
    replace (d - 53 <=? 971) with true by (symmetry; apply Z.leb_le; lia).
    exists p, (d - 53). repeat split; try lia.
    rewrite <- Hp. f_equal.
  - replace (d - 53 =? 0) with true by (symmetry; apply Z.eqb_eq; lia).
    rewrite assemble_fits by (fold d; lia).
    exists z, 0. cbn [Z.leb Z.compare]. repeat split; try lia.
Qed.

Lemma round_half_even_up num den :
  0 < den ->
  round_half_even num den = num / den + 1 <->
  (den < 2 * (num mod den) \/ (den = 2 * (num mod den) /\ Z.even (num / den) = false)).
Proof.
  intros Hden. unfold round_half_even.
  destruct (2 * (num mod den) ?= den) eqn:E.
  - apply Z.compare_eq_iff in E. destruct (Z.even (num / den)); split; intros H.
    + lia.
    + destruct H as [H|[_ H]]; [lia | discriminate].
    + right. split; [lia | reflexivity].
    + reflexivity.
  - change (2 * (num mod den) < den) in E.
    split; intros H; [exfalso; lia | destruct H as [H1|[H1 H2]]; exfalso; lia].
  - apply Z.compare_gt_iff in E. split; intros H; [left; lia | reflexivity].
Qed.

(** [float(z)] from 2^53 on: the 53 leading digits, rounded to nearest
    even; [OverflowError] from 2^1024 - 2^970 on. *)
Lemma of_int_large (z : positive) :
  2 ^ 53 <= Zpos z ->
  (Zpos z < 2 ^ 1024 - 2 ^ 970 ->
   exists m e,
     of_int (Zpos z) = Ret (S754_finite false m e) /\
     Zpos (digits2_pos m) = 53 /\ 1 <= e <= 971) /\
  (2 ^ 1024 - 2 ^ 970 <= Zpos z -> of_int (Zpos z) = overflow_int).
Proof.
  intros Hz. pose proof (digits2_bounds z) as [Hlo Hhi].
  set (d := Zpos (digits2_pos z)) in *.
  assert (Hd : 54 <= d).
  { destruct (Z.le_gt_cases 54 d) as [H|H]; [assumption|].
    assert (2 ^ d <= 2 ^ 53) by (apply Z.pow_le_mono_r; lia). lia. }
  set (n := d - 53).
  assert (Hn : 0 < n) by (subst n; lia).
  assert (Hpn : 0 < 2 ^ n) by (apply Z.pow_pos_nonneg; lia).
  assert (Hd1 : 2 ^ (d - 1) = 2 ^ 52 * 2 ^ n).
  { rewrite <- Z.pow_add_r by lia. f_equal. subst n. lia. }
  assert (Hd2 : 2 ^ d = 2 ^ 53 * 2 ^ n).
  { rewrite <- Z.pow_add_r by lia. f_equal. subst n. lia. }
  set (q := Zpos z / 2 ^ n).
  set (r := Zpos z mod 2 ^ n).
  assert (Hqr : Zpos z = 2 ^ n * q + r) by (apply Z.div_mod; lia).
  assert (Hr : 0 <= r < 2 ^ n) by (apply Z.mod_pos_bound; lia).
  assert (Hq : 2 ^ 52 <= q < 2 ^ 53) by (split; nia).
  unfold of_int, binary_normalize. rewrite binary_round_spec. fold d.
  replace (fexp64 (d + 0)) with n by (unfold fexp64; subst n; lia).
  destruct (Z.ltb_spec n 0) as [H|_]; [lia|].
  destruct (Z.eqb_spec n 0) as [H|_]; [lia|].
  rewrite Z.sub_0_r.
  pose proof (round_half_even_bounds (Zpos z) (2 ^ n) Hpn) as ([Hq1 Hq2] & _ & _).
  pose proof (round_half_even_up (Zpos z) (2 ^ n) Hpn) as Hup.
  fold q in Hq1, Hq2, Hup. fold r in Hup.
  set (q' := round_half_even (Zpos z) (2 ^ n)) in *.
  assert (Hcases : q' < 2 ^ 53 \/ q' = 2 ^ 53) by lia.
  assert (Hresult :
            assemble false q' n
            = if q' <? 2 ^ 53
              then (if n <=? 971
                    then S754_finite false (Z.to_pos q') n else S754_infinity false)
              else (if n + 1 <=? 971
                    then S754_finite false (2 ^ 52) (n + 1) else S754_infinity false)).
  { destruct Hcases as [Hfit|Hcarry].
    - destruct (Z.ltb_spec q' (2 ^ 53)); [|lia].
      destruct q' as [|p|p]; try lia.
      rewrite assemble_fits; [reflexivity| |lia].
      rewrite (digits2_unique p 53); lia.
    - rewrite Hcarry. rewrite assemble_carry by lia. reflexivity. }
  rewrite Hresult. clear Hresult.
  assert (H1024 : 2 ^ 1024 = 2 ^ 53 * 2 ^ 971) by reflexivity.
  assert (H971 : 2 ^ 971 = 2 * 2 ^ 970) by reflexivity.
  remember (2 ^ 970) as a eqn:Ha. remember (2 ^ 971) as b eqn:Hb.
  remember (2 ^ 1024) as c eqn:Hc.
  assert (Hapos : 0 < a) by (subst a; reflexivity).
  assert (Hmono : forall x y, x <= y -> 2 ^ x <= 2 ^ y)
    by (intros; apply Z.pow_le_mono_r; lia).
  split; intros Hrange.
  - assert (Hn971 : n <= 971).
    { destruct (Z.le_gt_cases n 971) as [H|H]; [assumption|].
      pose proof (Hmono 972 n ltac:(lia)) as Hp.
      assert (2 ^ 972 = 2 * b) by (subst b; reflexivity). nia. }
    destruct (Z.ltb_spec q' (2 ^ 53)) as [Hfit|Hcarry].
    + destruct (Z.leb_spec n 971); [|lia].
      destruct q' as [|p|p]; try lia.
      exists p, n. cbn [Z.to_pos]. repeat split; try lia.
      rewrite (digits2_unique p 53); lia.
    + assert (Hq' : q' = q + 1) by lia.
      destruct (Z.leb_spec (n + 1) 971) as [Hle|Hover].
      * exists (2 ^ 52)%positive, (n + 1). repeat split; try lia.
      * exfalso. assert (n = 971) by lia. subst n.
        assert (Hpb : 2 ^ (d - 53) = b) by (rewrite H; subst b; reflexivity).
        rewrite Hpb in *. apply Hup in Hq'.
        change (2 ^ 53) with 9007199254740992 in *. lia.
  - assert (Hlow : n <= 970 -> False).
    { intros Hle. pose proof (Hmono n 970 Hle) as Hp. rewrite <- Ha in Hp.
      change (2 ^ 53) with 9007199254740992 in *. lia. }
    destruct (Z.ltb_spec q' (2 ^ 53)) as [Hfit|Hcarry].
    + destruct (Z.leb_spec n 971) as [Hle|_]; [|reflexivity].
      exfalso.
      assert (Hn971 : n = 971) by (destruct (Z.eq_dec n 971); [assumption | exfalso; apply Hlow; lia]).
      assert (Hpb : 2 ^ n = b) by (rewrite Hn971; subst b; reflexivity).
      rewrite Hpb in *.
      change (2 ^ 53) with 9007199254740992 in *.
      change (2 ^ 52) with 4503599627370496 in *.
      assert (Hqv : q = 9007199254740991) by nia.
      assert (Hq' : q' = q + 1).
      { apply Hup. rewrite Hqv in *.
        destruct (Z.eq_dec b (2 * r)) as [Heq|Hne]; [right; split; [assumption|reflexivity]|].
        left. lia. }
      lia.
    + destruct (Z.leb_spec (n + 1) 971) as [Hle|_]; [|reflexivity].
      exfalso. apply Hlow. lia.
Qed.

(** ** Dividing by 1024.0 and comparing with it *)

(** A normal float divided by [1024.0] keeps its mantissa; the exponent
    drops by ten. *)
Lemma div_f1024 s m e :
  Zpos (digits2_pos m) = 53 -> -1063 <= e <= 981 ->
  div (S754_finite s m e) f1024 = Ret (S754_finite s m (e - 10)).
Proof.
  intros Hd He. unfold div, f1024, SFdiv, SFdiv_core_binary.
  cbn [Zdigits2]. rewrite Hd, fexp_64.
  change (Zpos (digits2_pos 4503599627370496)) with 53.
  replace (Z.min (fexp64 (53 + e - (53 + -42))) (e - -42)) with (e - 11)
    by (unfold fexp64; lia).
  replace (e - -42 - (e - 11)) with 53 by lia.
  rewrite Z.shiftl_mul_pow2 by lia.
  assert (Hdiv : Z.div_eucl (Zpos m * 2 ^ 53) 4503599627370496 = (Zpos m~0, 0)).
  { pose proof (Z.div_eucl_eq (Zpos m * 2 ^ 53) 4503599627370496 ltac:(lia)) as Heq.
    pose proof (Z.mod_pos_bound (Zpos m * 2 ^ 53) 4503599627370496 ltac:(lia)) as Hb.
    unfold Z.modulo in Hb.
    destruct (Z.div_eucl (Zpos m * 2 ^ 53) 4503599627370496) as [q r].
    change (2 ^ 53) with 9007199254740992 in *.
    assert (q = Zpos m~0 /\ r = 0) as [-> ->] by lia. reflexivity. }
  rewrite Hdiv. change (new_location 4503599627370496 0) with loc_Exact.
  rewrite binary_round_aux_exact. cbn [digits2_pos]. rewrite Pos2Z.inj_succ, Hd.
  replace (fexp64 (Z.succ 53 + (e - 11))) with (e - 10) by (unfold fexp64; lia).
  destruct (Z.leb_spec (e - 10) (e - 11)) as [H|_]; [lia|].
  replace (e - 10 - (e - 11)) with 1 by lia.
  assert (Hr : round_half_even (Zpos m~0) (2 ^ 1) = Zpos m).
  { pose proof (round_half_even_bounds (Zpos m~0) (2 ^ 1) ltac:(lia)) as (_ & Hexact & _).
    change (2 ^ 1) with 2 in *.
    assert (Hmod : Zpos m~0 mod 2 = 0).
    { rewrite Pos2Z.inj_xO, Z.mul_comm. apply Z.mod_mul. lia. }
    rewrite (Hexact Hmod), Pos2Z.inj_xO, Z.mul_comm. apply Z.div_mul. lia. }
  rewrite Hr, assemble_fits, xorb_false_r by lia.
  destruct (Z.leb_spec (e - 10) 971); [reflexivity | lia].
Qed.

Lemma ltb_f1024 m e :
  Zpos (digits2_pos m) = 53 ->
  ltb (S754_finite false m e) f1024 = (e <? -42).
Proof.
  intros Hd. unfold ltb, SFltb, SFcompare, f1024.
  destruct (Z.compare_spec e (-42)) as [->|Hlt|Hgt].
  - pose proof (digits2_bounds m) as [Hlo _]. rewrite Hd in Hlo.
    change (2 ^ (53 - 1)) with (Zpos 4503599627370496) in Hlo.
    rewrite Pos.compare_cont_spec. cbn [Pos.switch_Eq].
    rewrite Pos2Z.inj_compare.
    destruct (Z.compare_spec (Zpos m) (Zpos 4503599627370496)) as [Heq|H|Hg].
    + reflexivity.
    + exfalso. exact (Z.lt_irrefl _ (Z.lt_le_trans _ _ _ H Hlo)).
    + reflexivity.
  - symmetry. apply Z.ltb_lt. assumption.
  - symmetry. apply Z.ltb_ge. lia.
Qed.

(** ** The loop over the units *)

(** One turn of the loop of [bytes_to_human_readable] on a normal
    float. *)
Lemma loop_step unit rest m e :
  Zpos (digits2_pos m) = 53 -> -1063 <= e <= 981 ->
  bytes_to_human_readable_loop (unit :: rest) (NFloat (S754_finite false m e))
  = if e <? -42
    then Ret (Some (format_f 2 (S754_finite false m e) ++ " " ++ unit)%string)
    else bytes_to_human_readable_loop rest (NFloat (S754_finite false m (e - 10))).
Proof.
  intros Hd He. cbn [bytes_to_human_readable_loop num_ltb num_div num_to_float
                       num_format_2f obind].
  rewrite ltb_f1024, div_f1024 by assumption. cbn [obind]. reflexivity.
Qed.

Lemma int_ltb_f1024 z : int_ltb z f1024 = (z <? 1024).
Proof.
  unfold int_ltb, f1024. cbn [cond_Zopp Z.leb Z.compare Z.opp].
  change (2 ^ 42) with 4398046511104.
  destruct (Z.ltb_spec z 1024); [apply Z.ltb_lt | apply Z.ltb_ge]; lia.
Qed.

(** The loop passes over [n] units while the float stays at 1024.0 or
    above. *)
Lemma loop_skip (n : nat) :
  forall us m e,
    Zpos (digits2_pos m) = 53 ->
    -42 + 10 * (Z.of_nat n - 1) <= e <= 981 ->
    (n <= List.length us)%nat ->
    bytes_to_human_readable_loop us (NFloat (S754_finite false m e))
    = bytes_to_human_readable_loop (skipn n us)
        (NFloat (S754_finite false m (e - 10 * Z.of_nat n))).
Proof.
  induction n as [|n IH]; intros us m e Hd He Hlen.
  - cbn [skipn]. now rewrite Z.sub_0_r.
  - destruct us as [|unit rest]; [simpl in Hlen; lia|].
    rewrite loop_step by (try assumption; lia).
    destruct (Z.ltb_spec e (-42)); [lia|].
    cbn [skipn]. rewrite IH by (try assumption; simpl in Hlen; lia).
    replace (e - 10 - 10 * Z.of_nat n) with (e - 10 * Z.of_nat (S n)) by lia.
    reflexivity.
Qed.

(** From the second unit on: the float [m * 2^e] that came out of the
    first division is printed with the unit number [k] when it lies
    between 1024^(k-1) and 1024^k. *)
Lemma loop_select (k : nat) m e rest :
  Zpos (digits2_pos m) = 53 ->
  -42 + 10 * (Z.of_nat k - 1) <= e < -42 + 10 * Z.of_nat k -> e <= 981 ->
  (k < List.length rest)%nat ->
  bytes_to_human_readable_loop rest (NFloat (S754_finite false m e))
  = Ret (Some (format_f 2 (S754_finite false m (e - 10 * Z.of_nat k))
                 ++ " " ++ nth k rest "")%string).
Proof.
  intros Hd He Hmax Hlen.
  rewrite (loop_skip k) by (try assumption; lia).
  destruct (skipn k rest) as [|unit rest'] eqn:Hskip.
  - apply (f_equal (@List.length string)) in Hskip. rewrite length_skipn in Hskip.
    simpl in Hskip. lia.
  - rewrite loop_step by (try assumption; lia).
    destruct (Z.ltb_spec (e - 10 * Z.of_nat k) (-42)); [|lia].
    assert (Hnth : nth k rest ""%string = unit).
    { rewrite <- (firstn_skipn k rest) at 1. rewrite Hskip.
      rewrite app_nth2 by (rewrite length_firstn; lia).
      rewrite length_firstn. replace (k - Nat.min k (List.length rest))%nat with 0%nat by lia.
      reflexivity. }
    now rewrite Hnth.
Qed.

Lemma digits_ge (z : positive) k :
  0 <= k -> 2 ^ k <= Zpos z -> k + 1 <= Zpos (digits2_pos z).
Proof.
  intros Hk Hz. pose proof (digits2_bounds z) as [_ Hhi].
  destruct (Z.le_gt_cases (k + 1) (Zpos (digits2_pos z))) as [H|H]; [assumption|].
  assert (2 ^ Zpos (digits2_pos z) <= 2 ^ k) by (apply Z.pow_le_mono_r; lia). lia.
Qed.

Lemma digits_le (z : positive) k :
  0 <= k -> Zpos z < 2 ^ k -> Zpos (digits2_pos z) <= k.
Proof.
  intros Hk Hz. pose proof (digits2_bounds z) as [Hlo _].
  destruct (Z.le_gt_cases (Zpos (digits2_pos z)) k) as [H|H]; [assumption|].
  assert (2 ^ k <= 2 ^ (Zpos (digits2_pos z) - 1)) by (apply Z.pow_le_mono_r; lia). lia.
Qed.

(** C10, as the code has it. From 1024^5 bytes on no unit is left and
    [bytes_to_human_readable] returns no string: it returns [None] as
    long as the byte count converts to a float, that is below
    2^1024 - 2^970, and raises [OverflowError] at the first division from
    there on. *)
Theorem bytes_to_human_readable_large (bytes : Z) :
  1024 ^ 5 <= bytes ->
  (bytes < 2 ^ 1024 - 2 ^ 970 -> bytes_to_human_readable bytes = Ret None) /\
  (2 ^ 1024 - 2 ^ 970 <= bytes -> bytes_to_human_readable bytes = overflow_int).
Proof.
  intros Hb. change (1024 ^ 5) with (2 ^ 50) in Hb.
  assert (Hpos : 0 < 2 ^ 50) by reflexivity.
  destruct bytes as [|z|z]; try lia.
  unfold bytes_to_human_readable, units.
  cbn [bytes_to_human_readable_loop num_ltb num_div num_to_float].
  rewrite int_ltb_f1024.
  destruct (Z.ltb_spec (Zpos z) 1024) as [H|_];
    [change (2 ^ 50) with 1125899906842624 in Hb; lia|].
  assert (Hrun : forall m e,
             of_int (Zpos z) = Ret (S754_finite false m e) ->
             Zpos (digits2_pos m) = 53 -> -2 <= e <= 971 ->
             obind (obind (of_int (Zpos z)) (fun y => div y f1024))
               (fun b => bytes_to_human_readable_loop ["KiB"; "MiB"; "GiB"; "TiB"]%string
                           (NFloat b))
             = Ret None).
  { intros m e -> Hd He. cbn [obind]. rewrite div_f1024 by (try assumption; lia).
    cbn [obind]. rewrite (loop_skip 4) by (try assumption; simpl; lia).
    reflexivity. }
  assert (Hfail :
            of_int (Zpos z) = overflow_int ->
            obind (obind (of_int (Zpos z)) (fun y => div y f1024))
              (fun b => bytes_to_human_readable_loop ["KiB"; "MiB"; "GiB"; "TiB"]%string
                          (NFloat b))
            = overflow_int).
  { intros ->. reflexivity. }
  assert (Hbig : 2 ^ 53 < 2 ^ 1024 - 2 ^ 970) by reflexivity.
  destruct (Z.lt_ge_cases (Zpos z) (2 ^ 53)) as [Hsmall|Hlarge].
  - destruct (of_int_small z Hsmall) as (m & e & Hof & Hd & He & _).
    pose proof (digits_ge z 50 ltac:(lia) Hb) as Hdz.
    pose proof (digits_le z 53 ltac:(lia) Hsmall) as Hdz'.
    split; intros Hrange.
    + apply (Hrun m e Hof Hd). lia.
    + exfalso. lia.
  - destruct (of_int_large z Hlarge) as [Hfin Hover].
    split; intros Hrange.
    + destruct (Hfin Hrange) as (m & e & Hof & Hd & He).
      apply (Hrun m e Hof Hd). lia.
    + apply Hfail, Hover, Hrange.
Qed.

Lemma bytes_to_human_readable_large_witness :
  bytes_to_human_readable (1024 ^ 5) = Ret None.
Proof.
  destruct (bytes_to_human_readable_large (1024 ^ 5)) as [H _].
  - lia.
  - apply H. reflexivity.
Defined.

(** C10 as stated fails from 2^1024 - 2^970 on: the first division
    raises [OverflowError], the loop is not run to its end. *)
Lemma bytes_to_human_readable_large_counterexample :
  bytes_to_human_readable (2 ^ 1024) <> Ret None.
Proof. vm_compute. discriminate. Qed.

Lemma pow_1024 k : 0 <= k -> 1024 ^ k = 2 ^ (10 * k).
Proof. intros Hk. change 1024 with (2 ^ 10). now rewrite <- Z.pow_mul_r by lia. Qed.

Lemma value_scaled (m : positive) e z k :
  e - k < 0 -> e <= 0 -> 0 <= k ->
  Zpos m = z * 2 ^ (- e) ->
  (value (S754_finite false m (e - k)) * inject_Z (2 ^ k) == inject_Z z)%Q.
Proof.
  intros Hneg He Hk Hm. unfold value.
  destruct (Z.leb_spec 0 (e - k)) as [H|_]; [lia|].
  cbn [cond_Zopp]. unfold Qeq, Qmult, inject_Z. cbn [Qnum Qden].
  assert (Hp : 0 < 2 ^ (- (e - k))) by (apply Z.pow_pos_nonneg; lia).
  rewrite Pos.mul_1_r, Z.mul_1_r, Z2Pos.id by assumption.
  replace (- (e - k)) with (k + - e) by lia.
  rewrite Z.pow_add_r by lia. rewrite Hm. ring.
Qed.

Lemma loop_first unit rest z :
  bytes_to_human_readable_loop (unit :: rest) (NInt z)
  = if z <? 1024
    then obind (of_int z) (fun y => Ret (Some (format_f 2 y ++ " " ++ unit)%string))
    else obind (obind (of_int z) (fun y => div y f1024))
           (fun b => bytes_to_human_readable_loop rest (NFloat b)).
Proof.
  cbn [bytes_to_human_readable_loop num_ltb]. rewrite int_ltb_f1024.
  unfold num_format_2f, num_div, num_to_float.
  destruct (z <? 1024); [destruct (of_int z)|]; reflexivity.
Qed.

(** C4. [bytes_to_human_readable] divides by 1024 until the value is
    below 1024, taking the units B, KiB, MiB, GiB, TiB in this order, and
    prints the value with two decimals and the unit: a byte count between
    1024^k and 1024^(k+1) is printed as the float equal to
    bytes / 1024^k followed by the unit number k. *)
Theorem bytes_to_human_readable_units :
  (forall (bytes : Z) (k : nat),
      (k < 5)%nat -> 0 <= bytes ->
      (k = 0%nat \/ 1024 ^ Z.of_nat k <= bytes) ->
      bytes < 1024 ^ (Z.of_nat k + 1) ->
      exists x,
        (value x * inject_Z (1024 ^ Z.of_nat k) == inject_Z bytes)%Q /\
        bytes_to_human_readable bytes
        = Ret (Some (format_f 2 x ++ " " ++ nth k units "")%string)) /\
  bytes_to_human_readable 0 = Ret (Some "0.00 B"%string) /\
  bytes_to_human_readable 1024 = Ret (Some "1.00 KiB"%string) /\
  bytes_to_human_readable 1536 = Ret (Some "1.50 KiB"%string) /\
  bytes_to_human_readable 1073741824 = Ret (Some "1.00 GiB"%string).
Proof.
  split; [|repeat split; vm_compute; reflexivity].
  intros bytes k Hk Hpos Hlow Hhigh.
  rewrite !pow_1024 in * by lia.
  assert (Hmono : forall x y, x <= y -> 2 ^ x <= 2 ^ y)
    by (intros; apply Z.pow_le_mono_r; lia).
  destruct bytes as [|z|z]; try lia.
  - assert (k = 0%nat) as ->.
    { destruct Hlow as [H|H]; [assumption|].
      assert (0 < 2 ^ (10 * Z.of_nat k)) by (apply Z.pow_pos_nonneg; lia). lia. }
    exists zero. split; reflexivity.
  - pose proof (Hmono (10 * (Z.of_nat k + 1)) 50 ltac:(lia)) as H50.
    assert (Hsmall : Zpos z < 2 ^ 53).
    { pose proof (Hmono 50 53 ltac:(lia)). lia. }
    destruct (of_int_small z Hsmall) as (m & e & Hof & Hd & He & Hm).
    pose proof (digits_le z (10 * (Z.of_nat k + 1)) ltac:(lia) Hhigh) as Hdz.
    unfold bytes_to_human_readable, units.
    rewrite loop_first, Hof. cbn [obind].
    destruct k as [|k'].
    + change (10 * (Z.of_nat 0 + 1)) with 10 in *.
      destruct (Z.ltb_spec (Zpos z) 1024) as [_|H];
        [|change (2 ^ 10) with 1024 in Hhigh; lia].
      exists (S754_finite false m e). split; [|reflexivity].
      replace e with (e - 0) at 1 by lia.
      change (1024 ^ Z.of_nat 0) with (2 ^ 0).
      apply value_scaled; lia.
    + destruct Hlow as [H|Hlow]; [discriminate|].
      pose proof (digits_ge z (10 * Z.of_nat (S k')) ltac:(lia) Hlow) as Hdz'.
      destruct (Z.ltb_spec (Zpos z) 1024) as [H|_].
      { pose proof (Hmono 10 (10 * Z.of_nat (S k')) ltac:(lia)) as H10.
        change (2 ^ 10) with 1024 in H10. lia. }
      rewrite div_f1024 by (try assumption; lia). cbn [obind].
      rewrite (loop_select k') by (try assumption; simpl List.length; lia).
      exists (S754_finite false m (e - 10 * Z.of_nat (S k'))). split.
      * apply value_scaled; lia.
      * replace (e - 10 - 10 * Z.of_nat k') with (e - 10 * Z.of_nat (S k')) by lia.
        reflexivity.
Qed.

Lemma bytes_to_human_readable_units_witness :
  exists x,
    (value x * inject_Z (1024 ^ Z.of_nat 1) == inject_Z 1536)%Q /\
    bytes_to_human_readable 1536
    = Ret (Some (format_f 2 x ++ " " ++ nth 1 units "")%string).
Proof.
  destruct bytes_to_human_readable_units as [H _].
  apply (H 1536 1%nat); [lia | lia | right; simpl; lia | simpl; lia].
Defined.

(** ** Truncation *)

Lemma shiftl_neg a g : g <= 0 -> Z.shiftl a g = a / 2 ^ (- g).
Proof. intros Hg. now rewrite Z.shiftl_div_pow2 by lia. Qed.

(** [int(x)] is the exact value of [x] rounded toward zero. *)
Lemma to_int_trunc x :
  is_finite x = true -> to_int x = Ret (Qtrunc (value x)).
Proof.
  destruct x as [s|s| |s m e]; try discriminate; intros _.
  - reflexivity.
  - unfold to_int, value. f_equal.
    destruct (Z.leb_spec 0 e) as [He|He].
    + rewrite Z.shiftl_mul_pow2 by assumption.
      assert (Hz : forall z, Qtrunc (inject_Z z) = z).
      { intros z. unfold Qtrunc. destruct (Qle_bool 0 (inject_Z z));
          [apply Qfloor_Z | apply Qceiling_Z]. }
      rewrite Hz. destruct s; cbn [cond_Zopp]; lia.
    + rewrite shiftl_neg by lia.
      assert (Hp : 0 < 2 ^ (- e)) by (apply Z.pow_pos_nonneg; lia).
      unfold Qtrunc, Qle_bool, Qceiling, Qfloor, Qopp. cbn [Qnum Qden].
      rewrite Z2Pos.id by assumption.
      destruct s; cbn [cond_Zopp Z.mul Z.opp Z.leb Z.compare]; reflexivity.
Qed.

(** The integer read off a packed mantissa. *)
Lemma to_int_assemble s q g :
  0 <= q <= 2 ^ 53 -> -1074 <= g <= 970 ->
  to_int (assemble s q g) = Ret (cond_Zopp s (Z.shiftl q g)).
Proof.
  intros Hq Hg.
  destruct (Z.eq_dec q 0) as [->|Hq0].
  - rewrite assemble_zero, Z.shiftl_0_l. destruct s; reflexivity.
  - destruct (Z.eq_dec q (2 ^ 53)) as [->|Hq53].
    + rewrite assemble_carry by lia.
      destruct (Z.leb_spec (g + 1) 971); [|lia].
      cbn [to_int]. do 2 f_equal.
      change (2 ^ 53) with (Z.shiftl (Zpos (2 ^ 52)) 1).
      rewrite Z.shiftl_shiftl by lia. f_equal. lia.
    + destruct q as [|p|p]; try lia.
      rewrite assemble_fits; [| apply digits_le; lia | lia].
      destruct (Z.leb_spec g 971); [reflexivity | lia].
Qed.

(** ** Multiplying a fraction by a length *)

(** A fraction of at most one times a length that a float holds exactly:
    the product, rounded to nearest and then truncated, stays between
    zero and the length. *)
Lemma mul_unit_bounds (m1 : positive) e1 (m2 : positive) e2 L :
  e1 <= 0 -> Zpos m1 <= 2 ^ (- e1) ->
  Zpos m2 < 2 ^ 53 -> -1074 <= e2 <= 0 -> Zpos m2 = L * 2 ^ (- e2) ->
  exists k,
    to_int (mul (S754_finite false m1 e1) (S754_finite false m2 e2)) = Ret k /\
    0 <= k <= L.
Proof.
  intros He1 Hm1 Hm2 He2 HL.
  assert (Hp1 : 0 < 2 ^ (- e1)) by (apply Z.pow_pos_nonneg; lia).
  assert (Hp2 : 0 < 2 ^ (- e2)) by (apply Z.pow_pos_nonneg; lia).
  assert (HLpos : 0 < L) by nia.
  unfold mul, SFmul. cbn [xorb]. rewrite binary_round_aux_exact.
  set (P := (m1 * m2)%positive).
  set (E := e1 + e2).
  set (d := Zpos (digits2_pos P)).
  set (g := fexp64 (d + E)).
  assert (HP : Zpos P = Zpos m1 * Zpos m2) by reflexivity.
  (* the length in units of 2^E *)
  assert (HPL : Zpos P <= L * 2 ^ (- E)).
  { subst E. replace (- (e1 + e2)) with (- e2 + - e1) by lia.
    rewrite Z.pow_add_r, Z.mul_assoc, <- HL by lia. nia. }
  assert (Hd : d <= 53 - e1).
  { apply digits_le; [lia|]. replace (53 - e1) with (53 + - e1) by lia.
    rewrite Z.pow_add_r by lia. nia. }
  assert (Hg : -1074 <= g <= e2) by (subst g; unfold fexp64; lia).
  destruct (Z.leb_spec g E) as [Hstay|Hshift].
  - assert (Hd53 : d <= 53) by (subst g; unfold fexp64 in Hstay; lia).
    rewrite assemble_fits by (fold d; lia).
    destruct (Z.leb_spec E 971); [|lia].
    cbn [to_int cond_Zopp]. rewrite shiftl_neg by lia.
    eexists. split; [reflexivity|]. split.
    + apply Z.div_pos; lia.
    + assert (HpE : 0 < 2 ^ (- E)) by (apply Z.pow_pos_nonneg; lia).
      apply Z.div_le_upper_bound; [assumption|]. lia.
  - set (n := g - E) in *.
    assert (Hn : 0 < n) by (subst n; lia).
    assert (Hpn : 0 < 2 ^ n) by (apply Z.pow_pos_nonneg; lia).
    assert (Hpg : 0 < 2 ^ (- g)) by (apply Z.pow_pos_nonneg; lia).
    pose proof (round_half_even_bounds (Zpos P) (2 ^ n) Hpn) as ([Hq1 Hq2] & _ & Hup).
    set (q := Zpos P / 2 ^ n) in *.
    set (r := Zpos P mod 2 ^ n) in *.
    set (q' := round_half_even (Zpos P) (2 ^ n)) in *.
    assert (Hqr : Zpos P = 2 ^ n * q + r) by (apply Z.div_mod; lia).
    assert (Hr : 0 <= r < 2 ^ n) by (apply Z.mod_pos_bound; lia).
    assert (Hq0 : 0 <= q) by (apply Z.div_pos; lia).
    assert (Hq53 : q < 2 ^ 53).
    { apply Z.div_lt_upper_bound; [assumption|].
      pose proof (digits2_bounds P) as [_ Hhi]. fold d in Hhi.
      assert (2 ^ d <= 2 ^ (n + 53)).
      { apply Z.pow_le_mono_r; [lia|]. subst n g. unfold fexp64. lia. }
      rewrite <- Z.pow_add_r by lia. lia. }
    (* the length is a multiple of 2^n *)
    assert (Hmult : L * 2 ^ (- E) = (L * 2 ^ (- g)) * 2 ^ n).
    { rewrite <- Z.mul_assoc, <- Z.pow_add_r by lia. do 2 f_equal. subst n. lia. }
    assert (Hq'L : q' <= L * 2 ^ (- g)).
    { destruct (Z.eq_dec q' (q + 1)) as [Hcarry|Hsame].
      - specialize (Hup Hcarry). fold r in Hup. nia.
      - assert (q' = q) by lia. nia. }
    rewrite to_int_assemble by lia.
    cbn [cond_Zopp]. rewrite shiftl_neg by lia.
    eexists. split; [reflexivity|]. split.
    + apply Z.div_pos; lia.
    + apply Z.div_le_upper_bound; [assumption|]. lia.
Qed.


(** ** Bars *)

Lemma append_nil_r (s : string) : (s ++ "")%string = s.
Proof. induction s as [|c s IH]; simpl; [reflexivity | now rewrite IH]. Qed.

Lemma length_repeat_nat c n :
  String.length (PyStr.repeat_nat (String c "") n) = n.
Proof. induction n as [|n IH]; simpl; [reflexivity | now rewrite IH]. Qed.


Lemma length_mul c n :
  Z.of_nat (String.length (PyStr.mul (String c "") n)) = Z.max 0 n.
Proof. unfold PyStr.mul. rewrite length_repeat_nat. lia. Qed.

Lemma is_empty_mul c n : PyStr.is_empty (PyStr.mul (String c "") n) = (n <=? 0).
Proof.
  unfold PyStr.mul. destruct (Z.leb_spec n 0) as [H|H].
  - now replace (Z.to_nat n) with 0%nat by lia.
  - destruct (Z.to_nat n) eqn:E; [lia | reflexivity].
Qed.

Lemma mul_nat_nonpos s k : k <= 0 -> PyStr.mul s k = "".
Proof. intros Hk. unfold PyStr.mul. now replace (Z.to_nat k) with 0%nat by lia. Qed.

Lemma unit_fraction x :
  is_finite x = true -> (0 <= value x)%Q -> (value x <= 1)%Q ->
  (exists s, x = S754_zero s) \/
  (exists m e, x = S754_finite false m e /\ e <= 0 /\ Zpos m <= 2 ^ (- e)).
Proof.
  destruct x as [s|s| |s m e]; try discriminate; intros _ Hlo Hhi.
  - left. now exists s.
  - right. unfold value in *.
    destruct (Z.leb_spec 0 e) as [He|He].
    + assert (Hp : 0 < 2 ^ e) by (apply Z.pow_pos_nonneg; lia).
      unfold Qle, inject_Z in *. cbn [Qnum Qden] in *.
      destruct s; cbn [cond_Zopp] in *; [lia|].
      exists m, e. split; [reflexivity|].
      assert (e = 0).
      { destruct (Z.eq_dec e 0) as [|Hne]; [assumption|].
        assert (2 ^ 1 <= 2 ^ e) by (apply Z.pow_le_mono_r; lia).
        change (2 ^ 1) with 2 in *. nia. }
      subst e. cbn in *. lia.
    + assert (Hp : 0 < 2 ^ (- e)) by (apply Z.pow_pos_nonneg; lia).
      unfold Qle in *. cbn [Qnum Qden] in *. rewrite Z2Pos.id in * by assumption.
      destruct s; cbn [cond_Zopp] in *; [lia|].
      exists m, e. split; [reflexivity|]. lia.
Qed.

(** [c * n] for a character and an index-sized count: the copies, or
    [MemoryError] when they have to be allocated and cannot. *)
Lemma py_mul_char memory c n :
  index_sized n ->
  py_mul memory (String c "") n
  = if allocates memory n then Ret (PyStr.mul (String c "") n) else memory_error.
Proof.
  unfold py_mul, allocates, index_sized, max_chars, max_index. intros Hn.
  destruct (Z.ltb_spec n (- 2 ^ 63)); [lia|].
  destruct (Z.ltb_spec (2 ^ 63 - 1) n); [lia|]. cbn [orb].
  destruct (Z.ltb_spec n 1) as [H1|H1].
  { destruct (Z.leb_spec n 1); [|lia]. cbn [orb]. now rewrite mul_nat_nonpos by lia. }
  destruct (Z.eqb_spec n 1) as [->|Hne].
  { reflexivity. }
  destruct (Z.leb_spec n 1); [lia|]. cbn [orb String.length].
  change (Z.of_nat 1) with 1. rewrite Z.mul_1_l.
  destruct (Z.ltb_spec (2 ^ 63 - 1) n); [lia|].
  destruct (Z.eqb_spec n 0); [lia|].
  destruct (Z.ltb_spec memory n), (Z.leb_spec n memory),
    (Z.ltb_spec (2 ^ 63 - 1 - 49) n), (Z.leb_spec n (2 ^ 63 - 1 - 49));
    try lia; reflexivity.
Qed.

(** A count that is not an index. *)
Lemma py_mul_index memory s n :
  ~ index_sized n -> py_mul memory s n = index_error.
Proof.
  unfold py_mul, index_sized, max_index. intros Hn.
  destruct (Z.ltb_spec n (- 2 ^ 63)); [reflexivity|].
  destruct (Z.ltb_spec (2 ^ 63 - 1) n); [reflexivity | lia].
Qed.

(** The sum of the two parts of a bar. *)
Lemma py_add_bar memory a b :
  py_add memory (PyStr.mul "#" a) (PyStr.mul " " b)
  = if (a <=? 0) || (b <=? 0) then Ret (PyStr.mul "#" a ++ PyStr.mul " " b)
    else if max_index <? a + b
    then Raise (Exn OverflowError "strings are too large to concat")
    else if (memory <? a + b) || (max_chars <? a + b) then memory_error
    else Ret (PyStr.mul "#" a ++ PyStr.mul " " b).
Proof.
  unfold py_add. rewrite !is_empty_mul, !length_mul.
  destruct (Z.leb_spec a 0) as [Ha|Ha]; cbn [orb].
  { now rewrite (mul_nat_nonpos "#" a) by assumption. }
  destruct (Z.leb_spec b 0) as [Hb|Hb].
  { rewrite (mul_nat_nonpos " " b) by assumption. now rewrite append_nil_r. }
  now rewrite !Z.max_r by lia.
Qed.

(** Line 27 for index-sized counts: the fill is built, then the spaces,
    then their sum. *)
Lemma bar_spec memory a b :
  index_sized a -> index_sized b ->
  obind (py_mul memory "#" a)
    (fun fill => obind (py_mul memory " " b) (fun rest => py_add memory fill rest))
  = if negb (allocates memory a) then memory_error
    else if negb (allocates memory b) then memory_error
    else if (a <=? 0) || (b <=? 0) then Ret (PyStr.mul "#" a ++ PyStr.mul " " b)
    else if max_index <? a + b
    then Raise (Exn OverflowError "strings are too large to concat")
    else if (memory <? a + b) || (max_chars <? a + b) then memory_error
    else Ret (PyStr.mul "#" a ++ PyStr.mul " " b).
Proof.
  intros Ha Hb. rewrite (py_mul_char memory "#" a Ha).
  destruct (allocates memory a); [|reflexivity]. cbn [obind negb].
  rewrite (py_mul_char memory " " b Hb).
  destruct (allocates memory b); [|reflexivity]. cbn [obind negb].
  apply py_add_bar.
Qed.

(** What [percent_to_graph] does once the fill count is known. *)
Lemma percent_to_graph_spec memory f L len k :
  of_int L = Ret len -> to_int (mul f len) = Ret k ->
  (~ index_sized k -> percent_to_graph memory f L = index_error) /\
  (index_sized k -> allocates memory k = true -> ~ index_sized (L - k) ->
   percent_to_graph memory f L = index_error) /\
  (index_sized k -> index_sized (L - k) ->
   percent_to_graph memory f L
   = if negb (allocates memory k) then memory_error
     else if negb (allocates memory (L - k)) then memory_error
     else if (k <=? 0) || (L - k <=? 0)
     then Ret (PyStr.mul "#" k ++ PyStr.mul " " (L - k))
     else if max_index <? L
     then Raise (Exn OverflowError "strings are too large to concat")
     else if (memory <? L) || (max_chars <? L) then memory_error
     else Ret (PyStr.mul "#" k ++ PyStr.mul " " (L - k))).
Proof.
  intros Hlen Hk. unfold percent_to_graph. rewrite Hlen. cbn [obind].
  rewrite Hk. cbn [obind]. split; [|split].
  - intros Hbad. now rewrite py_mul_index.
  - intros Hgood Halloc Hbad. rewrite (py_mul_char memory "#" k Hgood), Halloc.
    cbn [obind]. now rewrite py_mul_index.
  - intros Ha Hb. rewrite (bar_spec memory k (L - k) Ha Hb).
    now replace (k + (L - k)) with L by lia.
Qed.


Lemma Ret_inj {A} (a b : A) : Ret a = Ret b -> a = b.
Proof. intros H. now injection H. Qed.








(** * Further properties *)

(** ** Words and numbers *)

Lemma append_assoc (a b c : string) : (a ++ b) ++ c = a ++ b ++ c.
Proof. induction a; simpl; congruence. Qed.

Lemma no_space_app a b : no_space (a ++ b) = no_space a && no_space b.
Proof.
  unfold no_space. induction a as [|c a IH]; simpl; [reflexivity|].
  now rewrite IH, andb_assoc.
Qed.

Lemma split_from_word w :
  no_space w = true ->
  forall cur s, PyStr.split_from cur (w ++ s) = PyStr.split_from (cur ++ w) s.
Proof.
  unfold no_space.
  induction w as [|c w IH]; simpl; intros Hw cur s.
  - now rewrite append_nil_r.
  - apply andb_prop in Hw as [Hc Hw]. apply negb_true_iff in Hc. rewrite Hc.
    rewrite IH by assumption. now rewrite append_assoc.
Qed.

Lemma split_from_blank b :
  blank b = true ->
  forall s, PyStr.split_from "" (b ++ s) = PyStr.split_from "" s.
Proof.
  unfold blank.
  induction b as [|c b IH]; simpl; intros Hb s; [reflexivity|].
  apply andb_prop in Hb as [Hc Hb]. rewrite Hc. now apply IH.
Qed.

Lemma split_from_words s :
  forall cur, no_space cur = true -> Forall (fun w => word w = true) (PyStr.split_from cur s).
Proof.
  induction s as [|c r IH]; simpl; intros cur Hcur.
  - destruct cur; simpl; constructor; [|constructor].
    unfold word. now rewrite Hcur.
  - destruct (PyStr.is_space c) eqn:Hc.
    + destruct cur; simpl.
      * now apply IH.
      * constructor; [unfold word; now rewrite Hcur | now apply IH].
    + apply IH. rewrite no_space_app, Hcur. unfold no_space. simpl. now rewrite Hc.
Qed.

Lemma split_lstrip s : PyStr.split (PyStr.lstrip_by PyStr.is_space s) = PyStr.split s.
Proof.
  unfold PyStr.split. induction s as [|c r IH]; [reflexivity|].
  cbn [PyStr.lstrip_by]. destruct (PyStr.is_space c) eqn:Hc; [|reflexivity].
  rewrite IH. simpl. now rewrite Hc.
Qed.

Lemma split_from_rstrip s :
  forall cur, PyStr.split_from cur (PyStr.rstrip_by PyStr.is_space s) = PyStr.split_from cur s.
Proof.
  induction s as [|c r IH]; intros cur; [reflexivity|].
  cbn [PyStr.rstrip_by].
  destruct (PyStr.is_space c) eqn:Hc; cbn [andb].
  - destruct (PyStr.is_empty (PyStr.rstrip_by PyStr.is_space r)) eqn:He.
    + cbn [PyStr.split_from]. rewrite Hc. rewrite <- (IH "").
      destruct (PyStr.rstrip_by PyStr.is_space r); [|discriminate].
      cbn. destruct (PyStr.is_empty cur); reflexivity.
    + cbn [PyStr.split_from]. rewrite Hc. now rewrite IH.
  - cbn [PyStr.split_from]. rewrite Hc. now rewrite IH.
Qed.

Lemma split_strip s : PyStr.split (PyStr.strip s) = PyStr.split s.
Proof.
  unfold PyStr.strip, PyStr.split at 1. rewrite split_from_rstrip.
  apply split_lstrip.
Qed.

Lemma split_of_stripped s :
  (if PyStr.is_empty (PyStr.strip s) then [] else PyStr.split (PyStr.strip s))
  = PyStr.split s.
Proof.
  rewrite <- (split_strip s).
  destruct (PyStr.strip s); reflexivity.
Qed.

Lemma split_from_nil s :
  forall cur, PyStr.split_from cur s = [] <-> cur = "" /\ blank s = true.
Proof.
  unfold blank.
  induction s as [|c r IH]; intros cur; cbn [PyStr.split_from all_chars].
  - destruct cur; cbn; intuition congruence.
  - destruct (PyStr.is_space c) eqn:Hc; cbn [andb].
    + destruct cur; cbn [PyStr.is_empty].
      * rewrite IH. intuition.
      * intuition discriminate.
    + rewrite IH. destruct cur; cbn; intuition discriminate.
Qed.

(** The decimal digits of a number are digits. *)
Lemma string_of_uint_digits d : all_chars is_digit (NilEmpty.string_of_uint d) = true.
Proof. induction d; simpl; auto. Qed.

Lemma is_digit_not_space c : is_digit c = true -> PyStr.is_space c = false /\ PyStr.is_c_space c = false.
Proof.
  unfold is_digit, PyStr.digit_of, PyStr.is_space, PyStr.is_c_space.
  destruct ((48 <=? nat_of_ascii c)%nat && (nat_of_ascii c <=? 57)%nat) eqn:E; [|discriminate].
  intros _. apply andb_prop in E as [E1 E2].
  apply Nat.leb_le in E1. apply Nat.leb_le in E2.
  split.
  - apply orb_false_iff; split; apply andb_false_iff.
    + right. apply Nat.leb_gt. lia.
    + right. apply Nat.leb_gt. lia.
  - apply orb_false_iff; split.
    + apply andb_false_iff. right. apply Nat.leb_gt. lia.
    + apply Nat.eqb_neq. lia.
Qed.

Lemma all_chars_impl (p q : ascii -> bool) s :
  (forall c, p c = true -> q c = true) -> all_chars p s = true -> all_chars q s = true.
Proof.
  intros Hpq. induction s as [|c r IH]; simpl; [reflexivity|].
  intros H. apply andb_prop in H as [Hc Hr]. now rewrite (Hpq c Hc), IH.
Qed.

Lemma lstrip_none space s :
  all_chars (fun c => negb (space c)) s = true -> PyStr.lstrip_by space s = s.
Proof.
  destruct s as [|c r]; simpl; [reflexivity|].
  intros H. apply andb_prop in H as [Hc _]. apply negb_true_iff in Hc. now rewrite Hc.
Qed.

Lemma rstrip_none space s :
  all_chars (fun c => negb (space c)) s = true -> PyStr.rstrip_by space s = s.
Proof.
  induction s as [|c r IH]; simpl; [reflexivity|].
  intros H. apply andb_prop in H as [Hc Hr]. apply negb_true_iff in Hc.
  now rewrite Hc, IH.
Qed.

Lemma parse_digits_pos d :
  forall (acc : positive) b,
    (d <> Decimal.Nil \/ b = true) ->
    PyStr.parse_digits (Zpos acc) b (NilEmpty.string_of_uint d)
    = Some (Zpos (Pos.of_uint_acc d acc)).
Proof.
  induction d; intros acc b H;
    [ destruct H as [H| ->]; [now contradiction H | reflexivity ] | .. ];
    cbn [NilEmpty.string_of_uint PyStr.parse_digits Pos.of_uint_acc];
    match goal with
    | |- context [PyStr.digit_of ?c] =>
        let v := eval vm_compute in (PyStr.digit_of c) in
        change (PyStr.digit_of c) with v
    end; cbv iota;
    match goal with
    | |- PyStr.parse_digits ?a true _ = Some (Zpos (Pos.of_uint_acc _ ?p)) =>
        replace a with (Zpos p) by lia
    end;
    apply IHd; now right.
Qed.

Lemma parse_digits_zero d :
  forall b,
    (d <> Decimal.Nil \/ b = true) ->
    PyStr.parse_digits 0 b (NilEmpty.string_of_uint d)
    = Some (Z.of_N (Pos.of_uint d)).
Proof.
  induction d; intros b H;
    [ destruct H as [H| ->]; [now contradiction H | reflexivity ]
    | cbn [NilEmpty.string_of_uint PyStr.parse_digits Pos.of_uint];
      change (PyStr.digit_of "0") with (Some 0); cbv iota;
      apply IHd; now right
    | .. ];
    cbn [NilEmpty.string_of_uint PyStr.parse_digits Pos.of_uint];
    match goal with
    | |- context [PyStr.digit_of ?c] =>
        let v := eval vm_compute in (PyStr.digit_of c) in
        change (PyStr.digit_of c) with v
    end; cbv iota;
    match goal with
    | |- PyStr.parse_digits ?a true _ = Some (Z.of_N (Npos (Pos.of_uint_acc _ ?p))) =>
        change a with (Zpos p)
    end;
    apply parse_digits_pos; now right.
Qed.


Lemma parse_int_unsigned d :
  d <> Decimal.Nil ->
  (PyStr.count_digits (NilEmpty.string_of_uint d) <= PyStr.max_str_digits)%nat ->
  PyStr.parse_int (NilEmpty.string_of_uint d) = Some (Z.of_N (Pos.of_uint d)).
Proof.
  intros Hd Hlimit. unfold PyStr.parse_int. cbv zeta.
  assert (Hn : all_chars (fun c => negb (PyStr.is_c_space c)) (NilEmpty.string_of_uint d) = true).
  { apply (all_chars_impl is_digit); [|apply string_of_uint_digits].
    intros c Hc. apply is_digit_not_space in Hc as [_ ->]. reflexivity. }
  rewrite (lstrip_none _ _ Hn), (rstrip_none _ _ Hn).
  rewrite (proj2 (Nat.leb_le _ _) Hlimit).
  rewrite <- (parse_digits_zero d false) by now left.
  destruct d; reflexivity.
Qed.

Lemma parse_int_negative d :
  d <> Decimal.Nil ->
  (PyStr.count_digits (NilEmpty.string_of_uint d) <= PyStr.max_str_digits)%nat ->
  PyStr.parse_int (String "-" (NilEmpty.string_of_uint d)) = Some (- Z.of_N (Pos.of_uint d)).
Proof.
  intros Hd Hlimit. unfold PyStr.parse_int. cbv zeta.
  assert (Hn : all_chars (fun c => negb (PyStr.is_c_space c))
                 (String "-" (NilEmpty.string_of_uint d)) = true).
  { cbn [all_chars]. apply andb_true_intro; split; [reflexivity|].
    apply (all_chars_impl is_digit); [|apply string_of_uint_digits].
    intros c Hc. apply is_digit_not_space in Hc as [_ ->]. reflexivity. }
  rewrite (lstrip_none _ _ Hn), (rstrip_none _ _ Hn).
  cbn [PyStr.count_digits]. change (PyStr.digit_of "-") with (@None Z). cbv iota.
  rewrite (proj2 (Nat.leb_le _ _) Hlimit).
  rewrite (parse_digits_zero d false) by now left. reflexivity.
Qed.

(** [int(str(n)) == n] whenever [str(n)] returns. *)
Lemma py_int_of_int z text : py_str z = Ret text -> py_int text = Ret z.
Proof.
  unfold py_str.
  destruct (PyStr.count_digits (PyStr.of_int z) <=? PyStr.max_str_digits)%nat eqn:Hlimit;
    [|discriminate].
  intros Htext. apply Ret_inj in Htext. subst text.
  apply Nat.leb_le in Hlimit.
  unfold py_int. unfold PyStr.of_int in *.
  destruct z as [|p|p]; [reflexivity | |].
  - cbn [Z.to_int NilZero.string_of_int] in *. unfold NilZero.string_of_uint in *.
    pose proof (DecimalPos.Unsigned.to_uint_nonnil p) as Hn.
    destruct (Pos.to_uint p) eqn:E; [now contradiction Hn | ..];
      rewrite <- E in *; rewrite parse_int_unsigned by assumption;
      now rewrite DecimalPos.Unsigned.of_to.
  - cbn [Z.to_int NilZero.string_of_int] in *. unfold NilZero.string_of_uint in *.
    pose proof (DecimalPos.Unsigned.to_uint_nonnil p) as Hn.
    assert (Hlimit' : (PyStr.count_digits (NilEmpty.string_of_uint (Pos.to_uint p))
                       <= PyStr.max_str_digits)%nat).
    { destruct (Pos.to_uint p) eqn:E; [now contradiction Hn | ..];
        cbn [PyStr.count_digits] in Hlimit;
        change (PyStr.digit_of "-") with (@None Z) in Hlimit; exact Hlimit. }
    destruct (Pos.to_uint p) eqn:E; [now contradiction Hn | ..];
      rewrite <- E in *; rewrite parse_int_negative by assumption;
      now rewrite DecimalPos.Unsigned.of_to.
Qed.

(** The text of an integer is a word. *)
Lemma of_int_word z : word (PyStr.of_int z) = true.
Proof.
  assert (Hd : forall d, d <> Decimal.Nil -> word (NilEmpty.string_of_uint d) = true).
  { intros d Hd. unfold word. apply andb_true_intro; split.
    - destruct d; try reflexivity. now contradiction Hd.
    - apply (all_chars_impl is_digit); [|apply string_of_uint_digits].
      intros c Hc. apply is_digit_not_space in Hc as [-> _]. reflexivity. }
  unfold PyStr.of_int.
  destruct z as [|p|p]; [reflexivity | |];
    cbn [Z.to_int NilZero.string_of_int]; unfold NilZero.string_of_uint;
    pose proof (DecimalPos.Unsigned.to_uint_nonnil p) as Hn;
    specialize (Hd _ Hn);
    destruct (Pos.to_uint p) eqn:E; try (now contradiction Hn); try exact Hd.
  all: unfold word in *; cbn [PyStr.is_empty negb andb no_space all_chars] in *;
       apply andb_prop in Hd as [_ Hd]; unfold no_space in Hd; cbn [all_chars] in Hd;
       exact Hd.
Qed.

Lemma split_label_field label sep tok tail :
  word label = true -> blank sep = true -> sep <> "" ->
  word tok = true -> starts_blank tail = true ->
  exists rest, PyStr.split (label ++ sep ++ tok ++ tail) = label :: tok :: rest.
Proof.
  unfold word. intros Hl Hs Hne Ht Htail.
  apply andb_prop in Hl as [Hl1 Hl2]. apply andb_prop in Ht as [Ht1 Ht2].
  unfold PyStr.split. rewrite split_from_word by assumption. cbn [append].
  destruct sep as [|c sep]; [now contradiction Hne|].
  unfold blank in Hs. cbn [all_chars] in Hs. apply andb_prop in Hs as [Hc Hs].
  cbn [append PyStr.split_from]. rewrite Hc.
  destruct label as [|a label]; [discriminate|]. cbn [PyStr.is_empty].
  rewrite split_from_blank by assumption.
  rewrite split_from_word by assumption. cbn [append].
  destruct tok as [|b tok]; [discriminate|].
  destruct tail as [|d tail]; cbn [PyStr.split_from PyStr.is_empty].
  - now eexists.
  - cbn [starts_blank] in Htail. rewrite Htail. now eexists.
Qed.

Lemma field_int_raises line e :
  field_int line = Raise e ->
  (exn_class e = IndexError \/ exn_class e = ValueError) /\ is_file_not_found e = false.
Proof.
  unfold field_int, py_index, py_int.
  destruct (nth_error (PyStr.split line) 1) as [tok|]; cbn [obind].
  - destruct (PyStr.parse_int tok); [discriminate|].
    intros [= <-]. split; [now right | reflexivity].
  - intros [= <-]. split; [now left | reflexivity].
Qed.

Lemma py_str_text n text : py_str n = Ret text -> text = PyStr.of_int n.
Proof.
  unfold py_str.
  destruct (PyStr.count_digits (PyStr.of_int n) <=? PyStr.max_str_digits)%nat;
    [|discriminate].
  intros H. apply Ret_inj in H. now symmetry.
Qed.

(** X1. A line of ASCII text made of a label that is one word, white
    space, the decimal text [str(n)] of an integer (one of at most 4300
    digits, so that [str(n)] and [int()] convert it) and a rest that is
    empty or begins with white space: its numeric field
    [int(line.split()[1])] is [n]. *)
Theorem field_int_formatted (label sep tail text : string) (n : Z) :
  word label = true -> ascii_text label = true ->
  blank sep = true -> sep <> "" ->
  starts_blank tail = true -> ascii_text tail = true ->
  py_str n = Ret text ->
  field_int (label ++ sep ++ text ++ tail) = Ret n.
Proof.
  intros Hl _ Hs Hne Ht _ Htext.
  assert (Hword : word text = true)
    by (rewrite (py_str_text n text Htext); apply of_int_word).
  destruct (split_label_field label sep text tail Hl Hs Hne Hword Ht) as [rest Hsplit].
  unfold field_int. rewrite Hsplit. cbn [py_index nth_error obind].
  now apply py_int_of_int.
Qed.

Lemma field_int_formatted_witness :
  field_int ("MemTotal:" ++ "       " ++ "16308224" ++ " kB" ++ nl) = Ret 16308224.
Proof.
  apply (field_int_formatted "MemTotal:" "       " (" kB" ++ nl) "16308224" 16308224);
    [reflexivity | reflexivity | reflexivity | discriminate | reflexivity
    | reflexivity | reflexivity].
Defined.

(** ** The readers on other sources *)

Lemma get_sys_mem_loop_skip pre rest :
  no_total pre -> get_sys_mem_loop (pre ++ rest) = get_sys_mem_loop rest.
Proof.
  induction 1 as [|line pre Hline _ IH]; [reflexivity|].
  cbn [app get_sys_mem_loop]. now rewrite Hline.
Qed.

(** X2. [get_sys_mem] returns at the first line that begins with
    [MemTotal]: the lines after it are not looked at, whatever they hold. *)
Theorem get_sys_mem_first_total (w : world) (st : state)
    (pre : list string) (line : string) (post : list string) :
  w_open w (clock st) meminfo = Ret (pre ++ line :: post)%list ->
  no_total pre ->
  PyStr.startswith line "MemTotal" = true ->
  get_sys_mem w st
  = (obind (field_int line) (fun total_mem => Ret (Some total_mem)),
     log (EvOpen meminfo) st).
Proof.
  intros Hopen Hpre Hline.
  unfold get_sys_mem, bind, open_lines, lift. rewrite Hopen.
  rewrite get_sys_mem_loop_skip by assumption.
  cbn [get_sys_mem_loop]. rewrite Hline.
  destruct (field_int line); reflexivity.
Qed.

Lemma get_sys_mem_first_total_witness :
  get_sys_mem (world_of ["Buffers: 1 kB"; "MemTotal: 1000 kB"; "MemTotal: oops"; "MemTotal"])
    initial
  = (Ret (Some 1000), log (EvOpen meminfo) initial).
Proof.
  apply (get_sys_mem_first_total
           (world_of ["Buffers: 1 kB"; "MemTotal: 1000 kB"; "MemTotal: oops"; "MemTotal"])
           initial ["Buffers: 1 kB"] "MemTotal: 1000 kB" ["MemTotal: oops"; "MemTotal"]).
  - reflexivity.
  - repeat constructor.
  - reflexivity.
Defined.

Lemma get_sys_mem_loop_none lines :
  get_sys_mem_loop lines = Ret None <-> no_total lines.
Proof.
  induction lines as [|line rest IH]; cbn [get_sys_mem_loop].
  - split; [constructor | reflexivity].
  - destruct (PyStr.startswith line "MemTotal") eqn:E.
    + split.
      * destruct (field_int line); discriminate.
      * intros H. inversion H; congruence.
    + rewrite IH. split; [now constructor | intros H; now inversion H].
Qed.

(** X3. [get_sys_mem] returns [None] exactly when no line of the source
    begins with [MemTotal]. *)
Theorem get_sys_mem_none (w : world) (st : state) (lines : list string) :
  w_open w (clock st) meminfo = Ret lines ->
  (get_sys_mem w st = (Ret None, log (EvOpen meminfo) st) <-> no_total lines).
Proof.
  intros Hopen. unfold get_sys_mem, bind, open_lines, lift. rewrite Hopen.
  rewrite <- get_sys_mem_loop_none.
  destruct (get_sys_mem_loop lines) as [[v|]|e]; split; congruence.
Qed.

Lemma get_sys_mem_none_witness :
  get_sys_mem (world_of ["MemFree: 5 kB"; " MemTotal: 9 kB"]) initial
  = (Ret None, log (EvOpen meminfo) initial).
Proof.
  apply (get_sys_mem_none (world_of ["MemFree: 5 kB"; " MemTotal: 9 kB"]) initial
           ["MemFree: 5 kB"; " MemTotal: 9 kB"] eq_refl).
  repeat constructor.
Defined.

Lemma avail_line_false line :
  avail_line line = false ->
  PyStr.startswith line "MemFree" = false /\
  PyStr.startswith line "SwapFree" = false /\
  PyStr.startswith line "MemAvailable" = false.
Proof.
  unfold avail_line. cbn [existsb avail_labels].
  destruct (PyStr.startswith line "MemFree"), (PyStr.startswith line "SwapFree"),
    (PyStr.startswith line "MemAvailable"); cbn; intuition congruence.
Qed.

Lemma avail_line_true line :
  avail_line line = true ->
  PyStr.startswith line "MemFree" = true \/
  PyStr.startswith line "SwapFree" = true \/
  PyStr.startswith line "MemAvailable" = true.
Proof.
  unfold avail_line. cbn [existsb avail_labels].
  destruct (PyStr.startswith line "MemFree"), (PyStr.startswith line "SwapFree"),
    (PyStr.startswith line "MemAvailable"); cbn; intuition congruence.
Qed.

Lemma get_avail_mem_loop_filter lines :
  forall mem_free swap_free mem_available,
    get_avail_mem_loop lines mem_free swap_free mem_available
    = get_avail_mem_loop (filter avail_line lines) mem_free swap_free mem_available.
Proof.
  induction lines as [|line rest IH]; intros f s a; [reflexivity|].
  cbn [filter]. destruct (avail_line line) eqn:E.
  - cbn [get_avail_mem_loop].
    destruct (PyStr.startswith line "MemFree");
      [destruct (field_int line); cbn [obind]; [apply IH | reflexivity]|].
    destruct (PyStr.startswith line "SwapFree");
      [destruct (field_int line); cbn [obind]; [apply IH | reflexivity]|].
    destruct (PyStr.startswith line "MemAvailable");
      [destruct (field_int line); cbn [obind]; [apply IH | reflexivity]|].
    apply IH.
  - apply avail_line_false in E as (E1 & E2 & E3).
    cbn [get_avail_mem_loop]. rewrite E1, E2, E3. apply IH.
Qed.

(** X4. [get_avail_mem] depends only on the lines that begin with
    [MemFree], [SwapFree] or [MemAvailable]: the other lines are never
    parsed, so two sources with the same such lines give the same result. *)
Theorem get_avail_mem_other_lines (w w' : world) (st : state)
    (lines lines' : list string) :
  w_open w (clock st) meminfo = Ret lines ->
  w_open w' (clock st) meminfo = Ret lines' ->
  filter avail_line lines = filter avail_line lines' ->
  get_avail_mem w st = get_avail_mem w' st.
Proof.
  intros Hopen Hopen' Hsame.
  unfold get_avail_mem, bind, open_lines, lift. rewrite Hopen, Hopen'.
  now rewrite (get_avail_mem_loop_filter lines), (get_avail_mem_loop_filter lines'), Hsame.
Qed.

Lemma get_avail_mem_other_lines_witness :
  get_avail_mem (world_of ("Shmem" :: "Cached: many kB" :: meminfo_available)) initial
  = get_avail_mem (world_of meminfo_available) initial.
Proof.
  apply (get_avail_mem_other_lines _ _ initial
           ("Shmem" :: "Cached: many kB" :: meminfo_available) meminfo_available);
    reflexivity.
Defined.

Lemma get_avail_mem_loop_readable pre :
  readable avail_labels pre ->
  forall mem_free swap_free mem_available,
  exists f s a, forall rest,
      get_avail_mem_loop (pre ++ rest) mem_free swap_free mem_available
      = get_avail_mem_loop rest f s a.
Proof.
  induction 1 as [|line pre Hline _ IH]; intros f s a.
  - now exists f, s, a.
  - cbn [app get_avail_mem_loop].
    destruct (PyStr.startswith line "MemFree") eqn:EF.
    { destruct (Hline "MemFree") as [v Hv]; [simpl; auto | assumption |].
      destruct (IH v s a) as (f' & s' & a' & H). exists f', s', a'. intros rest.
      rewrite Hv. cbn [obind]. apply H. }
    destruct (PyStr.startswith line "SwapFree") eqn:ES.
    { destruct (Hline "SwapFree") as [v Hv]; [simpl; auto | assumption |].
      destruct (IH f v a) as (f' & s' & a' & H). exists f', s', a'. intros rest.
      rewrite Hv. cbn [obind]. apply H. }
    destruct (PyStr.startswith line "MemAvailable") eqn:EA.
    { destruct (Hline "MemAvailable") as [v Hv]; [simpl; auto | assumption |].
      destruct (IH f s v) as (f' & s' & a' & H). exists f', s', a'. intros rest.
      rewrite Hv. cbn [obind]. apply H. }
    apply IH.
Qed.

(** X5. [get_avail_mem] does not handle a malformed line: the first line
    that begins with one of its labels and carries no number makes it
    raise [IndexError] or [ValueError], whatever follows. *)
Theorem get_avail_mem_malformed (w : world) (st : state)
    (pre : list string) (line : string) (post : list string) (e : exn) :
  w_open w (clock st) meminfo = Ret (pre ++ line :: post)%list ->
  readable avail_labels pre ->
  avail_line line = true ->
  field_int line = Raise e ->
  get_avail_mem w st = (Raise e, log (EvOpen meminfo) st) /\
  (exn_class e = IndexError \/ exn_class e = ValueError).
Proof.
  intros Hopen Hpre Hline He.
  split; [|now apply field_int_raises in He].
  unfold get_avail_mem, bind, open_lines, lift. rewrite Hopen.
  destruct (get_avail_mem_loop_readable pre Hpre 0 0 0) as (f & s & a & H).
  rewrite H. cbn [get_avail_mem_loop]. rewrite He. cbn [obind].
  apply avail_line_true in Hline as [-> | [-> | ->]];
    repeat match goal with |- context [if ?b then _ else _] => destruct b end;
    reflexivity.
Qed.

Lemma get_avail_mem_malformed_witness :
  get_avail_mem (world_of ["MemFree: 10 kB"; "MemAvailable:"; "SwapFree: 1 kB"]) initial
  = (Raise (Exn IndexError "list index out of range"), log (EvOpen meminfo) initial).
Proof.
  apply (get_avail_mem_malformed
           (world_of ["MemFree: 10 kB"; "MemAvailable:"; "SwapFree: 1 kB"]) initial
           ["MemFree: 10 kB"] "MemAvailable:" ["SwapFree: 1 kB"]
           (Exn IndexError "list index out of range")).
  - reflexivity.
  - readable_lines.
  - reflexivity.
  - reflexivity.
Defined.


(** X6. [pids_of_prog] returns the white-space separated words of what
    [pidof] prints: each is non-empty and holds no white space, and there
    is none exactly when the output is blank. *)
Theorem pids_of_prog_words (w : world) (program : string) (st : state) (out : string) :
  w_popen w (clock st) (pidof program) = Ret out ->
  pids_of_prog w program st = (Ret (PyStr.split out), log (EvPopen (pidof program)) st) /\
  Forall (fun pid => word pid = true) (PyStr.split out) /\
  (PyStr.split out = [] <-> blank out = true).
Proof.
  intros Hout. split; [|split].
  - unfold pids_of_prog. rewrite Hout. now rewrite split_of_stripped.
  - now apply split_from_words.
  - unfold PyStr.split. rewrite split_from_nil. intuition.
Qed.

Lemma pids_of_prog_words_witness :
  pids_of_prog (world_with meminfo_small (" 812  77" ++ nl) "77" smaps_two_regions)
    "prog" after_meminfo
  = (Ret ["812"; "77"], log (EvPopen "pidof prog") after_meminfo).
Proof.
  apply (pids_of_prog_words
           (world_with meminfo_small (" 812  77" ++ nl) "77" smaps_two_regions)
           "prog" after_meminfo (" 812  77" ++ nl) eq_refl).
Defined.

(** X7. [rss_mem_of_pid] handles [FileNotFoundError] only: any other
    failure to open the memory map is raised to the caller with nothing
    printed, and the summing loop of [main] stops there. *)
Theorem rss_mem_of_pid_unreadable (w : world) (st : state) (pid : string) (e : exn)
    (rest : list string) (total_prog_rss : Z) :
  w_open w (clock st) (smaps pid) = Raise e ->
  is_file_not_found e = false ->
  rss_mem_of_pid w pid st = (Raise e, log (EvOpen (smaps pid)) st) /\
  sum_rss w (pid :: rest) total_prog_rss st = (Raise e, log (EvOpen (smaps pid)) st).
Proof.
  intros Hopen Hclass.
  assert (H : rss_mem_of_pid w pid st = (Raise e, log (EvOpen (smaps pid)) st)).
  { unfold rss_mem_of_pid. now rewrite Hopen, Hclass. }
  split; [exact H|]. cbn [sum_rss]. unfold bind. now rewrite H.
Qed.

Lemma rss_mem_of_pid_unreadable_witness :
  sum_rss (world_denying "1") ["1"; "4242"] 0 after_meminfo
  = (Raise permission_denied, log (EvOpen (smaps "1")) after_meminfo).
Proof.
  apply (rss_mem_of_pid_unreadable (world_denying "1") after_meminfo "1"
           permission_denied ["4242"] 0); reflexivity.
Defined.

Lemma rss_mem_of_pid_loop_app pre :
  forall values rss_total rest,
    Forall2 (fun line v => field_int line = Ret v) (rss_lines pre) values ->
    rss_mem_of_pid_loop (pre ++ rest) rss_total
    = rss_mem_of_pid_loop rest (rss_total + sum_values values).
Proof.
  induction pre as [|line pre IH]; intros values acc rest Hv; simpl in *.
  - inversion Hv; subst. simpl. now rewrite Z.add_0_r.
  - destruct (PyStr.startswith line "Rss").
    + inversion Hv as [|? v ? vs Hline Hrest]; subst.
      rewrite Hline, (IH vs) by assumption. simpl. f_equal. lia.
    + now apply IH.
Qed.

(** X8. [rss_mem_of_pid] does not handle a malformed line: the first line
    that begins with [Rss] and carries no number makes it raise
    [IndexError] or [ValueError]; the sum read so far is lost. *)
Theorem rss_mem_of_pid_malformed (w : world) (st : state) (pid : string)
    (pre : list string) (line : string) (post : list string)
    (values : list Z) (e : exn) :
  w_open w (clock st) (smaps pid) = Ret (pre ++ line :: post)%list ->
  Forall2 (fun line v => field_int line = Ret v) (rss_lines pre) values ->
  PyStr.startswith line "Rss" = true ->
  field_int line = Raise e ->
  rss_mem_of_pid w pid st = (Raise e, log (EvOpen (smaps pid)) st) /\
  (exn_class e = IndexError \/ exn_class e = ValueError).
Proof.
  intros Hopen Hpre Hline He.
  destruct (field_int_raises line e He) as [Hclass Hnf].
  split; [|exact Hclass].
  unfold rss_mem_of_pid. rewrite Hopen.
  rewrite (rss_mem_of_pid_loop_app pre values 0 (line :: post) Hpre).
  cbn [rss_mem_of_pid_loop]. rewrite Hline, He. now rewrite Hnf.
Qed.

Lemma rss_mem_of_pid_malformed_witness :
  rss_mem_of_pid (world_of_smaps "7" ["Rss: 4 kB"; "Size: 8 kB"; "Rss: lots kB"; "Rss: 1 kB"])
    "7" initial
  = (Raise (Exn ValueError "invalid literal for int() with base 10"),
     log (EvOpen (smaps "7")) initial).
Proof.
  apply (rss_mem_of_pid_malformed
           (world_of_smaps "7" ["Rss: 4 kB"; "Size: 8 kB"; "Rss: lots kB"; "Rss: 1 kB"])
           initial "7" ["Rss: 4 kB"; "Size: 8 kB"] "Rss: lots kB" ["Rss: 1 kB"] [4]).
  - reflexivity.
  - repeat constructor.
  - reflexivity.
  - reflexivity.
Defined.

(** ** The driver on failing sources *)

Lemma main_meminfo_read (w : world) (args : Namespace) lines0 lines1 total avail :
  w_open w 0%nat meminfo = Ret lines0 ->
  get_sys_mem_loop lines0 = Ret total ->
  w_open w 1%nat meminfo = Ret lines1 ->
  get_avail_mem_loop lines1 0 0 0 = Ret avail ->
  main w args initial
  = match total with
    | None => (type_error, after_meminfo)
    | Some total_mem =>
       (let used_mem := total_mem - avail in
        percent_used <- lift (PyFloat.int_truediv used_mem total_mem) ;;
        total_mem_hr <- lift (size_str (arg_human_readable args) total_mem) ;;
        used_mem_hr <- lift (size_str (arg_human_readable args) used_mem) ;;
        avail_mem_hr <- lift (size_str (arg_human_readable args) avail) ;;
        bar_graph <- lift (percent_to_graph (memory_of w) percent_used (arg_length args)) ;;
        match given (arg_program args) with
        | Some program => report_program w args program total_mem total_mem_hr
        | None => report_system w percent_used bar_graph used_mem_hr total_mem_hr
        end)%run after_meminfo
    end.
Proof.
  intros H0 Ht H1 Ha.
  unfold main, get_sys_mem, get_avail_mem.
  unfold bind at 1. unfold bind at 1. unfold open_lines at 1. unfold lift at 1.
  change (clock initial) with 0%nat. rewrite H0, Ht.
  unfold bind at 1. unfold bind at 1. unfold open_lines at 1. unfold lift at 1.
  change (clock (log (EvOpen meminfo) initial)) with 1%nat. rewrite H1, Ha.
  destruct total; reflexivity.
Qed.

(** X9. [main] does not handle a failure to open the memory-info source:
    the exception is raised after that single attempt, nothing printed. *)
Theorem main_meminfo_unreadable (w : world) (args : Namespace) (e : exn) :
  w_open w 0%nat meminfo = Raise e ->
  main w args initial = (Raise e, {| st_trace := [EvOpen meminfo]; st_out := [] |}).
Proof.
  intros H. unfold main, get_sys_mem.
  unfold bind at 1. unfold bind at 1. unfold open_lines at 1.
  change (clock initial) with 0%nat. now rewrite H.
Qed.

Lemma main_meminfo_unreadable_witness :
  main world_without_meminfo (args_of (Some "prog")) initial
  = (Raise no_such_file, {| st_trace := [EvOpen meminfo]; st_out := [] |}).
Proof.
  apply (main_meminfo_unreadable world_without_meminfo (args_of (Some "prog")) no_such_file).
  reflexivity.
Defined.

(** X10. When no line of the memory-info source begins with [MemTotal],
    [get_sys_mem] returns [None] and [main] raises [TypeError] at the
    subtraction, after [get_avail_mem] has read the source too and before
    anything is printed. *)
Theorem main_without_total (w : world) (args : Namespace)
    (lines0 lines1 : list string) (avail : Z) :
  w_open w 0%nat meminfo = Ret lines0 ->
  no_total lines0 ->
  w_open w 1%nat meminfo = Ret lines1 ->
  get_avail_mem_loop lines1 0 0 0 = Ret avail ->
  exists e,
    main w args initial = (Raise e, after_meminfo) /\ exn_class e = TypeError.
Proof.
  intros H0 Hno H1 Ha. apply get_sys_mem_loop_none in Hno.
  rewrite (main_meminfo_read w args lines0 lines1 None avail H0 Hno H1 Ha).
  eexists. split; reflexivity.
Qed.

Lemma main_without_total_witness :
  exists e,
    main (world_of meminfo_without_total) (args_of None) initial = (Raise e, after_meminfo)
    /\ exn_class e = TypeError.
Proof.
  apply (main_without_total (world_of meminfo_without_total) (args_of None)
           meminfo_without_total meminfo_without_total 520).
  - reflexivity.
  - repeat constructor.
  - reflexivity.
  - reflexivity.
Defined.

(** X11. When [MemTotal] reads zero, [main] raises [ZeroDivisionError] at
    the division, before anything is printed. *)
Theorem main_zero_total (w : world) (args : Namespace)
    (lines0 lines1 : list string) (avail : Z) :
  w_open w 0%nat meminfo = Ret lines0 ->
  get_sys_mem_loop lines0 = Ret (Some 0) ->
  w_open w 1%nat meminfo = Ret lines1 ->
  get_avail_mem_loop lines1 0 0 0 = Ret avail ->
  main w args initial = (Raise (Exn ZeroDivisionError "division by zero"), after_meminfo).
Proof.
  intros H0 Ht H1 Ha.
  now rewrite (main_meminfo_read w args lines0 lines1 (Some 0) avail H0 Ht H1 Ha).
Qed.

Lemma main_zero_total_witness :
  main (world_of ["MemTotal: 0 kB"; "MemFree: 0 kB"]) (args_of None) initial
  = (Raise (Exn ZeroDivisionError "division by zero"), after_meminfo).
Proof.
  apply (main_zero_total (world_of ["MemTotal: 0 kB"; "MemFree: 0 kB"]) (args_of None)
           ["MemTotal: 0 kB"; "MemFree: 0 kB"] ["MemTotal: 0 kB"; "MemFree: 0 kB"] 0);
    reflexivity.
Defined.

(** X12. When [pidof] cannot be run, [pids_of_prog] reports the error and
    returns no process; [main] then prints the not-found notice and
    returns normally. *)
Theorem main_pidof_fails (w : world) (args : Namespace) (program : string) (e : exn) :
  arg_program args = Some program ->
  In (EvPopen (pidof program)) (st_trace (snd (main w args initial))) ->
  w_popen w (clock after_meminfo) (pidof program) = Raise e ->
  main w args initial
  = (Ret tt,
     {| st_trace := [EvOpen meminfo; EvOpen meminfo; EvPopen (pidof program)];
        st_out := ["Error finding processes for " ++ program ++ ": " ++ exn_str e;
                   program ++ " not found."] |}).
Proof.
  intros Hprog Hin Hfail.
  destruct (main_prelude w args)
    as [(e' & st' & Hrun & Htrace & _) | (total & hr & used & pct & bar & Hrun)];
    rewrite Hrun in *.
  - exfalso. exact (no_popen_after_meminfo _ _ Htrace Hin).
  - rewrite Hprog in *. destruct program as [|c r]; cbn [given] in *.
    + exfalso. revert Hin. unfold report_system. rewrite bind_lift.
      destruct (PyFloat.of_int 100);
        [rewrite bind_lift; destruct (py_format _ _)|];
        cbn [print snd emit st_trace after_meminfo In]; intuition discriminate.
    + unfold report_program, bind, pids_of_prog. rewrite Hfail. reflexivity.
Qed.

Lemma main_pidof_fails_witness :
  main (world_failing_pidof meminfo_small (Exn OSError "[Errno 12] Cannot allocate memory"))
    (args_of (Some "prog")) initial
  = (Ret tt,
     {| st_trace := [EvOpen meminfo; EvOpen meminfo; EvPopen "pidof prog"];
        st_out := ["Error finding processes for prog: [Errno 12] Cannot allocate memory";
                   "prog not found."] |}).
Proof.
  apply (main_pidof_fails
           (world_failing_pidof meminfo_small (Exn OSError "[Errno 12] Cannot allocate memory"))
           (args_of (Some "prog")) "prog" (Exn OSError "[Errno 12] Cannot allocate memory")
           eq_refl).
  - vm_compute. auto.
  - reflexivity.
Defined.

(** X13. Without a program name, and also with an empty one, [main] never
    runs [pidof]: a run that returns has read the memory-info source
    twice and printed the one line of the system report; a run that raises
    has printed nothing. *)
Theorem main_without_program (w : world) (args : Namespace) :
  arg_program args = None \/ arg_program args = Some "" ->
  let run := main w args initial in
  (forall cmd, ~ In (EvPopen cmd) (st_trace (snd run))) /\
  match fst run with
  | Ret _ =>
      st_trace (snd run) = [EvOpen meminfo; EvOpen meminfo] /\
      exists text, st_out (snd run) = ["Memory         [" ++ text]
  | Raise _ => st_out (snd run) = []
  end.
Proof.
  intros Hprog run. subst run.
  assert (Hgiven : given (arg_program args) = None)
    by (destruct Hprog as [-> | ->]; reflexivity).
  destruct (main_prelude w args)
    as [(e & st' & Hrun & Htrace & Hout) | (total & hr & used & pct & bar & Hrun)];
    rewrite Hrun; clear Hrun.
  - cbn [fst snd]. split; [|assumption].
    intros cmd. now apply no_popen_after_meminfo.
  - rewrite Hgiven. unfold report_system. rewrite bind_lift.
    assert (Hquiet : forall cmd, ~ In (EvPopen cmd) (st_trace after_meminfo))
      by (intros cmd; cbn [after_meminfo st_trace In]; intuition discriminate).
    destruct (of_int 100) as [hundred|e]; [|now split].
    rewrite bind_lift.
    destruct (py_format _ _) as [line|e] eqn:Hline; [|now split].
    cbn [print fst snd emit st_trace st_out after_meminfo app].
    split; [exact Hquiet|]. split; [reflexivity|].
    unfold py_format in Hline.
    destruct (max_index <? _); [discriminate|].
    destruct ((memory_of w <? _) || _); [discriminate|].
    apply Ret_inj in Hline. subst line.
    cbn [PyStr.join fold_right]. eexists. reflexivity.
Qed.

Lemma main_without_program_witness :
  st_trace (snd (main (world_of meminfo_small) (args_of (Some "")) initial))
  = [EvOpen meminfo; EvOpen meminfo] /\
  exists text,
    st_out (snd (main (world_of meminfo_small) (args_of (Some "")) initial))
    = ["Memory         [" ++ text].
Proof.
  destruct (main_without_program (world_of meminfo_small) (args_of (Some ""))
              (or_intror eq_refl)) as [_ H].
  assert (Hrun : main (world_of meminfo_small) (args_of (Some "")) initial
                 = (Ret tt,
                    {| st_trace := [EvOpen meminfo; EvOpen meminfo];
                       st_out := ["Memory         [#######    | 75%] 750 KiB/1000 KiB"] |}))
    by (vm_compute; reflexivity).
  rewrite Hrun in H |- *. exact H.
Defined.

(** ** Signs *)

Lemma binary_round_aux_opp s m e l :
  binary_round_aux prec emax (negb s) m e l = SFopp (binary_round_aux prec emax s m e l).
Proof.
  unfold binary_round_aux.
  destruct (shr_fexp prec emax m e l) as [mrs e1].
  destruct (shr_fexp prec emax _ e1 loc_Exact) as [mrs' e2].
  destruct (shr_m mrs'); [reflexivity | | reflexivity].
  destruct (e2 <=? emax - prec); reflexivity.
Qed.

(** [float(-n)] is [-float(n)]. *)
Lemma of_int_neg p :
  of_int (Zneg p) = obind (of_int (Zpos p)) (fun x => Ret (SFopp x)).
Proof.
  unfold of_int, binary_normalize, binary_round.
  destruct (shl_align p 0 _) as [mz ez].
  change true with (negb false). rewrite binary_round_aux_opp.
  destruct (binary_round_aux prec emax false (Zpos mz) ez loc_Exact); reflexivity.
Qed.

Lemma mul_opp_r x y : mul x (SFopp y) = SFopp (mul x y).
Proof.
  unfold mul.
  destruct x as [sx|sx| |sx mx ex], y as [sy|sy| |sy my ey]; cbn [SFmul SFopp];
    try reflexivity; try (now rewrite <- negb_xorb_r).
  rewrite <- negb_xorb_r. apply binary_round_aux_opp.
Qed.

Lemma to_int_opp x : to_int (SFopp x) = obind (to_int x) (fun k => Ret (- k)).
Proof.
  destruct x as [s|s| |s m e]; cbn [SFopp to_int obind]; try reflexivity.
  destruct s; cbn [negb cond_Zopp]; f_equal; lia.
Qed.

Lemma shr_1_nonneg mrs : 0 <= shr_m mrs -> 0 <= shr_m (shr_1 mrs).
Proof.
  destruct mrs as [m r s]. cbn [shr_m]. intros Hm.
  destruct m as [|p|p]; [reflexivity | | lia].
  destruct p; cbn; lia.
Qed.

Lemma shr_nonneg mrs e n : 0 <= shr_m mrs -> 0 <= shr_m (fst (shr mrs e n)).
Proof.
  intros Hm. unfold shr. destruct n as [|p|p]; cbn [fst]; try assumption.
  rewrite iter_pos_nat. induction (Pos.to_nat p) as [|k IH]; [assumption|].
  cbn [Nat.iter]. now apply shr_1_nonneg.
Qed.

Lemma assemble_sign s q g : 0 <= q -> has_sign s (assemble s q g) = true.
Proof.
  intros Hq. unfold assemble.
  pose proof (shr_nonneg (shr_record_of_loc q loc_Exact) g
                (fexp prec emax (Zdigits2 q + g) - g) Hq) as H.
  unfold shr_fexp.
  destruct (shr (shr_record_of_loc q loc_Exact) g _) as [mrs e]. cbn [fst] in H.
  destruct (shr_m mrs) as [|m|m]; [apply eqb_reflx | | lia].
  destruct (e <=? emax - prec); apply eqb_reflx.
Qed.

Lemma mul_sign sx mx ex sy my ey :
  has_sign (xorb sx sy) (mul (S754_finite sx mx ex) (S754_finite sy my ey)) = true.
Proof.
  unfold mul, SFmul. rewrite binary_round_aux_exact.
  set (g := fexp64 (Zpos (digits2_pos (mx * my)) + (ex + ey))).
  destruct (Z.leb_spec g (ex + ey)) as [H|H].
  - apply assemble_sign. lia.
  - apply assemble_sign.
    assert (Hp : 0 < 2 ^ (g - (ex + ey))) by (apply Z.pow_pos_nonneg; lia).
    pose proof (round_half_even_bounds (Zpos (mx * my)) _ Hp) as ([Hlo _] & _).
    pose proof (Z.div_pos (Zpos (mx * my)) _ ltac:(lia) Hp). lia.
Qed.

(** [float(n)] for an [n] that has a float: a finite number of the sign
    of [n]. *)
Lemma of_int_finite z :
  - (2 ^ 1024 - 2 ^ 970) < z < 2 ^ 1024 - 2 ^ 970 ->
  exists x, of_int z = Ret x /\ is_finite x = true /\ has_sign (z <? 0) x = true.
Proof.
  assert (Hpos : forall p, Zpos p < 2 ^ 1024 - 2 ^ 970 ->
                   exists m e, of_int (Zpos p) = Ret (S754_finite false m e)).
  { intros p Hp. destruct (Z.lt_ge_cases (Zpos p) (2 ^ 53)) as [Hs|Hl].
    - destruct (of_int_small p Hs) as (m & e & H & _). now exists m, e.
    - destruct (of_int_large p Hl) as [Hfin _].
      destruct (Hfin Hp) as (m & e & H & _). now exists m, e. }
  intros Hz. destruct z as [|p|p].
  - exists zero. repeat split.
  - destruct (Hpos p) as (m & e & H); [lia|]. rewrite H. eexists. repeat split.
  - destruct (Hpos p) as (m & e & H); [lia|]. rewrite of_int_neg, H. eexists. repeat split.
Qed.

(** [float(n)] raises [OverflowError] from 2^1024 - 2^970 on, on both
    sides of zero. *)
Lemma of_int_overflow z :
  2 ^ 1024 - 2 ^ 970 <= Z.abs z -> of_int z = overflow_int.
Proof.
  assert (Hbig : 2 ^ 53 <= 2 ^ 1024 - 2 ^ 970) by (vm_compute; discriminate).
  intros Hz. destruct z as [|p|p].
  - exfalso. cbn [Z.abs] in Hz. lia.
  - apply of_int_large; cbn [Z.abs] in Hz; lia.
  - rewrite of_int_neg. cbn [Z.abs] in Hz.
    destruct (of_int_large p ltac:(lia)) as [_ H]. now rewrite H.
Qed.

(** The float of a length that has one: finite, without the minus
    sign. *)
Lemma of_int_length L len :
  0 <= L -> of_int L = Ret len -> is_finite len = true /\ has_sign false len = true.
Proof.
  intros HL Hlen.
  destruct (Z.lt_ge_cases L (2 ^ 1024 - 2 ^ 970)) as [Hin|Hout].
  - destruct (of_int_finite L ltac:(lia)) as (x & Hx & Hfin & Hsign).
    rewrite Hx in Hlen. apply Ret_inj in Hlen. subst x.
    replace (L <? 0) with false in Hsign by (symmetry; apply Z.ltb_ge; lia).
    now split.
  - rewrite of_int_overflow in Hlen by lia. discriminate.
Qed.

(** The integer part of a float with the minus sign is not positive. *)
Lemma to_int_negative x k :
  has_sign true x = true -> to_int x = Ret k -> k <= 0.
Proof.
  destruct x as [s|s| |s m e]; try discriminate; cbn [has_sign to_int];
    intros Hs Hk; apply eqb_prop in Hs; subst s; apply Ret_inj in Hk; subst k.
  - lia.
  - cbn [cond_Zopp].
    pose proof (proj2 (Z.shiftl_nonneg (Zpos m) e) ltac:(lia)). lia.
Qed.

(** X14. For a finite fraction with the minus sign (a negative number
    or -0.0) and a length from 0 on that has a float, [percent_to_graph]
    puts no fill character in the bar and does not clamp the spaces. When
    the float product overflows to an infinity, [int()] raises
    [OverflowError]. Otherwise the fill count is zero or negative and the
    count of spaces at least the length: [percent_to_graph] raises
    [OverflowError] when one of the two counts is not index-sized,
    [MemoryError] when the spaces cannot be allocated, and returns the
    spaces in every other case. *)
Theorem percent_to_graph_negative (memory : Z) (f : float) (L : Z) (len : float) :
  is_finite f = true -> has_sign true f = true -> 0 <= L ->
  of_int L = Ret len ->
  (is_finite (mul f len) = false ->
   percent_to_graph memory f L
   = Raise (Exn OverflowError "cannot convert float infinity to integer")) /\
  (is_finite (mul f len) = true ->
   let filled := Qtrunc (value (mul f len)) in
   let spaces := L - filled in
   filled <= 0 /\ L <= spaces /\
   percent_to_graph memory f L
   = if filled <? - 2 ^ 63 then index_error
     else if max_index <? spaces then index_error
     else if allocates memory spaces then Ret (PyStr.mul " " spaces)
     else memory_error).
Proof.
  intros Hfin Hneg HL Hlen.
  destruct (of_int_length L len HL Hlen) as [Hlfin Hlsign].
  assert (Hsign : has_sign true (mul f len) = true).
  { destruct f as [s|s| |s m e], len as [s'|s'| |s' m' e']; try discriminate;
      cbn [has_sign] in Hneg, Hlsign;
      apply eqb_prop in Hneg; apply eqb_prop in Hlsign; subst s s';
      [reflexivity | reflexivity | reflexivity |].
    apply (mul_sign true m e false m' e'). }
  split.
  { intros Hinf. unfold percent_to_graph. rewrite Hlen. cbn [obind].
    destruct (mul f len) as [s|s| |s m e];
      [discriminate Hinf | reflexivity | discriminate Hsign | discriminate Hinf]. }
  intros Hprod filled spaces.
  pose proof (to_int_trunc _ Hprod) as Hk. fold filled in Hk.
  pose proof (to_int_negative _ _ Hsign Hk) as Hfilled.
  split; [assumption|]. split; [subst spaces; lia|].
  destruct (percent_to_graph_spec memory f L len filled Hlen Hk) as (Hbad & Hbad' & Hspec).
  destruct (Z.ltb_spec filled (- 2 ^ 63)) as [Hlow|Hlow].
  { apply Hbad. unfold index_sized. lia. }
  assert (Ha : index_sized filled) by (unfold index_sized, max_index; lia).
  assert (Halloc : allocates memory filled = true).
  { unfold allocates. destruct (Z.leb_spec filled 1); [reflexivity | lia]. }
  destruct (Z.ltb_spec max_index spaces) as [Hhigh|Hhigh].
  { apply (Hbad' Ha Halloc). unfold index_sized. fold spaces. lia. }
  rewrite (Hspec Ha) by (unfold index_sized; fold spaces; lia).
  rewrite Halloc. cbn [negb]. fold spaces.
  destruct (allocates memory spaces); cbn [negb]; [|reflexivity].
  destruct (Z.leb_spec filled 0); [|lia]. cbn [orb].
  now rewrite (mul_nat_nonpos "#" filled) by assumption.
Qed.

Lemma percent_to_graph_negative_witness :
  percent_to_graph 4096 minus_half 3 = Ret (PyStr.mul " " 4).
Proof.
  destruct (percent_to_graph_negative 4096 minus_half 3
              (S754_finite false 6755399441055744 (-51)))
    as (_ & H); [reflexivity | reflexivity | lia | reflexivity |].
  destruct (H eq_refl) as (_ & _ & Hrun). rewrite Hrun. reflexivity.
Defined.

(** X15. A length that has no float, from 2^1024 - 2^970 on in either
    direction, makes [percent_to_graph] raise [OverflowError] at the
    product, whatever the fraction and the memory. *)
Theorem percent_to_graph_overflow (memory : Z) (f : float) (L : Z) :
  2 ^ 1024 - 2 ^ 970 <= Z.abs L ->
  percent_to_graph memory f L = overflow_int.
Proof.
  intros HL. unfold percent_to_graph. now rewrite of_int_overflow.
Qed.

Lemma percent_to_graph_overflow_witness :
  percent_to_graph 4096 one (- 2 ^ 1024) = overflow_int.
Proof.
  apply (percent_to_graph_overflow 4096 one (- 2 ^ 1024)). vm_compute. discriminate.
Defined.

(** X16. For a fraction between 0 and 1 and a length from 0 down to
    above -2^53, [percent_to_graph] returns the empty string, whatever
    the memory. *)
Theorem percent_to_graph_nonpositive (memory : Z) (f : float) (L : Z) :
  is_finite f = true -> (0 <= value f)%Q -> (value f <= 1)%Q ->
  - 2 ^ 53 < L <= 0 ->
  percent_to_graph memory f L = Ret "".
Proof.
  intros Hfin Hlo Hhi HL.
  assert (Hempty : forall len k,
             of_int L = Ret len -> to_int (mul f len) = Ret k -> L <= k <= 0 ->
             percent_to_graph memory f L = Ret "").
  { intros len k Hlen Hk Hrange.
    destruct (percent_to_graph_spec memory f L len k Hlen Hk) as (_ & _ & Hspec).
    rewrite Hspec by (unfold index_sized, max_index; lia).
    unfold allocates.
    destruct (Z.leb_spec k 1); [|lia]. destruct (Z.leb_spec (L - k) 1); [|lia].
    destruct (Z.leb_spec k 0); [|lia]. cbn [orb negb].
    now rewrite !mul_nat_nonpos by lia. }
  destruct L as [|p|p]; try lia.
  - apply (Hempty zero 0); [reflexivity | | lia].
    destruct f as [s|s| |s m e]; try discriminate; reflexivity.
  - assert (Hp : Zpos p < 2 ^ 53) by lia.
    destruct (of_int_small p Hp) as (m2 & e2 & Hof & Hd & He & Hm).
    pose proof (digits2_bounds p) as [Hz1 Hz2].
    pose proof (digits_le p 53 ltac:(lia) Hp) as Hdz.
    pose proof (digits2_bounds m2) as [_ Hm2]. rewrite Hd in Hm2.
    assert (Hdpos : 0 < Zpos (digits2_pos p)) by lia.
    assert (Hlen : of_int (Zneg p) = Ret (SFopp (S754_finite false m2 e2)))
      by (now rewrite of_int_neg, Hof).
    destruct (unit_fraction f Hfin Hlo Hhi) as [[s ->] | (m1 & e1 & -> & He1 & Hm1)].
    + apply (Hempty _ 0 Hlen); [reflexivity | lia].
    + destruct (mul_unit_bounds m1 e1 m2 e2 (Zpos p)) as (k & Hk & Hrange);
        try assumption; try lia.
      apply (Hempty _ (- k) Hlen); [|lia].
      rewrite mul_opp_r, to_int_opp, Hk. reflexivity.
Qed.

Lemma percent_to_graph_nonpositive_witness :
  percent_to_graph 4096 (S754_finite false 6755399441055744 (-53)) (-5) = Ret "".
Proof.
  apply (percent_to_graph_nonpositive 4096 (S754_finite false 6755399441055744 (-53)) (-5)).
  - reflexivity.
  - unfold Qle. simpl. lia.
  - unfold Qle. simpl. lia.
  - split; [reflexivity | lia].
Defined.

(** ** Byte counts below 1024 and from 1024^5 on *)

Lemma fixed_int s n :
  0 <= n -> fixed 2 s (n * 100) = (if s then "-" else "") ++ PyStr.of_int n ++ ".00".
Proof.
  intros Hn. unfold fixed. change (10 ^ Z.of_nat 2) with 100.
  now rewrite Z.div_mul, Z.mod_mul by lia.
Qed.

(** An integer below 2^53 in size is printed with two decimals as its
    decimal text followed by ".00". *)
Lemma format_f_int z x :
  - 2 ^ 53 < z < 2 ^ 53 -> of_int z = Ret x ->
  format_f 2 x = PyStr.of_int z ++ ".00".
Proof.
  assert (Hpos : forall p, Zpos p < 2 ^ 53 ->
            exists m e, of_int (Zpos p) = Ret (S754_finite false m e) /\
                        scaled 2 m e = Zpos p * 100).
  { intros p Hp. destruct (of_int_small p Hp) as (m & e & Hof & Hd & He & Hm).
    exists m, e. split; [assumption|].
    pose proof (digits_le p 53 ltac:(lia) Hp) as Hdz.
    unfold scaled. change (10 ^ Z.of_nat 2) with 100.
    destruct (Z.leb_spec 0 e) as [H0|H0].
    - assert (He0 : e = 0) by lia. clear He. subst e.
      change (2 ^ (- 0)) with 1 in Hm. change (2 ^ 0) with 1. lia.
    - assert (Hpw : 0 < 2 ^ (- e)) by (apply Z.pow_pos_nonneg; lia).
      pose proof (round_half_even_bounds (Zpos m * 100) (2 ^ (- e)) Hpw) as (_ & Hex & _).
      assert (Heq : Zpos m * 100 = Zpos p * 100 * 2 ^ (- e)) by (rewrite Hm; ring).
      rewrite Hex by (rewrite Heq; apply Z.mod_mul; lia).
      rewrite Heq. apply Z.div_mul. lia. }
  intros Hz Hx. destruct z as [|p|p].
  - apply Ret_inj in Hx. subst x. reflexivity.
  - destruct (Hpos p ltac:(lia)) as (m & e & Hof & Hs).
    rewrite Hof in Hx. apply Ret_inj in Hx. subst x.
    cbn [format_f]. rewrite Hs. now rewrite fixed_int by lia.
  - destruct (Hpos p ltac:(lia)) as (m & e & Hof & Hs).
    rewrite of_int_neg, Hof in Hx. cbn [obind SFopp negb] in Hx.
    apply Ret_inj in Hx. subst x.
    cbn [format_f]. rewrite Hs. now rewrite fixed_int by lia.
Qed.

(** X17. A byte count below 1024, negative ones included, is never
    scaled: [bytes_to_human_readable] prints its float with the unit B;
    above -2^53 the text is the integer itself followed by ".00 B". *)
Theorem bytes_to_human_readable_below_1024 (bytes : Z) :
  bytes < 1024 ->
  (- (2 ^ 1024 - 2 ^ 970) < bytes ->
   exists x, of_int bytes = Ret x /\
             bytes_to_human_readable bytes = Ret (Some (format_f 2 x ++ " B"))) /\
  (- 2 ^ 53 < bytes ->
   bytes_to_human_readable bytes = Ret (Some (PyStr.of_int bytes ++ ".00 B"))).
Proof.
  intros Hlt.
  assert (Hbig : 1024 < 2 ^ 53 /\ 2 ^ 53 < 2 ^ 1024 - 2 ^ 970)
    by (split; reflexivity).
  assert (Hrun : forall x, of_int bytes = Ret x ->
            bytes_to_human_readable bytes = Ret (Some (format_f 2 x ++ " B"))).
  { intros x Hx. unfold bytes_to_human_readable, units. rewrite loop_first.
    replace (bytes <? 1024) with true by (symmetry; apply Z.ltb_lt; lia).
    now rewrite Hx. }
  split; intros Hlow.
  - destruct (of_int_finite bytes ltac:(lia)) as (x & Hx & _).
    exists x. split; [assumption | now apply Hrun].
  - destruct (of_int_finite bytes ltac:(lia)) as (x & Hx & _).
    rewrite (Hrun x Hx), (format_f_int bytes x) by (assumption || lia).
    now rewrite append_assoc.
Qed.

Lemma bytes_to_human_readable_below_1024_witness :
  bytes_to_human_readable (-5120) = Ret (Some "-5120.00 B").
Proof.
  apply (bytes_to_human_readable_below_1024 (-5120)); reflexivity.
Defined.



(** From 1024^5 bytes on, below the overflow, the loop runs out of
    units. *)
Lemma bytes_to_human_readable_exhausted bytes :
  1024 ^ 5 <= bytes < 2 ^ 1024 - 2 ^ 970 ->
  bytes_to_human_readable bytes = Ret None.
Proof.
  intros [Hb Hrange]. change (1024 ^ 5) with (2 ^ 50) in Hb.
  assert (Hpos : 0 < 2 ^ 50) by reflexivity.
  destruct bytes as [|z|z]; try lia.
  unfold bytes_to_human_readable, units. rewrite loop_first.
  destruct (Z.ltb_spec (Zpos z) 1024) as [H|_];
    [change (2 ^ 50) with 1125899906842624 in Hb; lia|].
  assert (Hnorm : exists m e, of_int (Zpos z) = Ret (S754_finite false m e) /\
                              Zpos (digits2_pos m) = 53 /\ -2 <= e <= 971).
  { destruct (Z.lt_ge_cases (Zpos z) (2 ^ 53)) as [Hsmall|Hlarge].
    - destruct (of_int_small z Hsmall) as (m & e & Hof & Hd & He & _).
      pose proof (digits_ge z 50 ltac:(lia) Hb) as Hdz.
      pose proof (digits_le z 53 ltac:(lia) Hsmall) as Hdz'.
      exists m, e. split; [assumption|]. split; [assumption | lia].
    - destruct (of_int_large z Hlarge) as [Hfin _].
      destruct (Hfin Hrange) as (m & e & Hof & Hd & He).
      exists m, e. split; [assumption|]. split; [assumption | lia]. }
  destruct Hnorm as (m & e & Hof & Hd & He).
  rewrite Hof. cbn [obind]. rewrite div_f1024 by (try assumption; lia).
  cbn [obind]. rewrite (loop_skip 4) by (try assumption; simpl; lia).
  reflexivity.
Qed.

(** X18. With the human-readable flag a size from 2^40 KiB (one pebibyte)
    on, as long as its number of bytes has a float, is printed as the
    text None: [bytes_to_human_readable] runs out of units and the
    f-string prints what it returned. *)
Theorem size_str_none (kib : Z) :
  2 ^ 40 <= kib -> kib * 1024 < 2 ^ 1024 - 2 ^ 970 ->
  size_str true kib = Ret "None".
Proof.
  intros Hlow Hhigh. unfold size_str.
  rewrite bytes_to_human_readable_exhausted; [reflexivity|].
  split; [|assumption]. change (1024 ^ 5) with (2 ^ 40 * 1024). lia.
Qed.

Lemma size_str_none_witness : size_str true (2 ^ 40) = Ret "None".
Proof. apply (size_str_none (2 ^ 40)); [lia | reflexivity]. Defined.

(** ** Shares *)

Lemma shr_1_m mrs : 0 <= shr_m mrs -> shr_m (shr_1 mrs) = shr_m mrs / 2.
Proof.
  destruct mrs as [m r s]. cbn [shr_m]. intros Hm.
  now rewrite shr_1_spec.
Qed.

Lemma shr_iter_m k mrs :
  0 <= shr_m mrs -> shr_m (Nat.iter k shr_1 mrs) = shr_m mrs / 2 ^ Z.of_nat k.
Proof.
  intros Hm. induction k as [|k IH].
  - change (Nat.iter 0 shr_1 mrs) with mrs. now rewrite Z.div_1_r.
  - rewrite Nat.iter_succ. rewrite shr_1_m, IH.
    + rewrite Z.div_div by lia. f_equal.
      rewrite Nat2Z.inj_succ, Z.pow_succ_r by lia. lia.
    + rewrite IH. apply Z.div_pos; lia.
Qed.

Lemma shr_m_spec mrs e n :
  0 <= shr_m mrs ->
  shr_m (fst (shr mrs e n)) = (if 0 <? n then shr_m mrs / 2 ^ n else shr_m mrs) /\
  snd (shr mrs e n) = (if 0 <? n then e + n else e).
Proof.
  intros Hm. unfold shr. destruct n as [|p|p]; cbn [fst snd Z.ltb Z.compare]; auto.
  split; [|reflexivity].
  rewrite iter_pos_nat, shr_iter_m by assumption. now rewrite positive_nat_Z.
Qed.

Lemma round_nearest_even_bounds m l :
  m <= round_nearest_even m l <= m + 1.
Proof.
  unfold round_nearest_even. destruct l as [|[]]; try lia.
  destruct (Z.even m); lia.
Qed.

Lemma binary_round_aux_assemble s m e l :
  binary_round_aux prec emax s m e l
  = assemble s (round_nearest_even (shr_m (fst (shr_fexp prec emax m e l)))
                  (loc_of_shr_record (fst (shr_fexp prec emax m e l))))
      (snd (shr_fexp prec emax m e l)).
Proof.
  unfold binary_round_aux, assemble.
  destruct (shr_fexp prec emax m e l) as [mrs e1]. reflexivity.
Qed.

Lemma Zdigits2_bound q : 0 <= q -> q < 2 ^ Zdigits2 q /\ 0 <= Zdigits2 q.
Proof.
  intros Hq. destruct q as [|p|p]; [split; cbn; lia | | lia].
  cbn [Zdigits2]. pose proof (digits2_bounds p). lia.
Qed.

Lemma Zdigits2_le q k : 0 <= q < 2 ^ k -> 0 <= k -> Zdigits2 q <= k.
Proof.
  intros Hq Hk. destruct q as [|p|p]; [assumption | | lia].
  cbn [Zdigits2]. apply digits_le; lia.
Qed.

(** A finite float [m * 2^e] of at most [L]. *)
Lemma value_bounds (m : positive) e L :
  (if 0 <=? e then Zpos m * 2 ^ e <= L else Zpos m <= L * 2 ^ (- e)) ->
  (0 <= value (S754_finite false m e))%Q /\
  (value (S754_finite false m e) <= inject_Z L)%Q.
Proof.
  unfold value. cbn [cond_Zopp].
  destruct (Z.leb_spec 0 e) as [H0|H0]; intros Hm.
  - assert (Hp : 0 < 2 ^ e) by (apply Z.pow_pos_nonneg; lia).
    unfold Qle, inject_Z. cbn [Qnum Qden]. nia.
  - assert (Hp : 0 < 2 ^ (- e)) by (apply Z.pow_pos_nonneg; lia).
    unfold Qle, inject_Z. cbn [Qnum Qden]. rewrite Z2Pos.id by assumption. lia.
Qed.

(** Packing a mantissa of at most [L * 2^-g]: a float between 0 and [L]. *)
Lemma assemble_value q g L :
  0 <= q <= 2 ^ 53 -> -1074 <= g <= 0 -> q <= L * 2 ^ (- g) ->
  is_finite (assemble false q g) = true /\
  has_sign false (assemble false q g) = true /\
  (0 <= value (assemble false q g))%Q /\
  (value (assemble false q g) <= inject_Z L)%Q.
Proof.
  intros Hq Hg HL.
  assert (Hpg : 0 < 2 ^ (- g)) by (apply Z.pow_pos_nonneg; lia).
  split; [|split; [apply assemble_sign; lia|]].
  - destruct (Z.eq_dec q 0) as [->|Hq0]; [now rewrite assemble_zero|].
    destruct (Z.eq_dec q (2 ^ 53)) as [->|Hne].
    + rewrite assemble_carry by lia. now destruct (Z.leb_spec (g + 1) 971); [|lia].
    + destruct q as [|p|p]; try lia.
      rewrite assemble_fits; [| apply digits_le; lia | lia].
      now destruct (Z.leb_spec g 971); [|lia].
  - destruct (Z.eq_dec q 0) as [->|Hq0].
    { rewrite assemble_zero. unfold value, Qle, inject_Z. cbn [Qnum Qden]. nia. }
    destruct (Z.eq_dec q (2 ^ 53)) as [->|Hne].
    + rewrite assemble_carry by lia.
      destruct (Z.leb_spec (g + 1) 971); [|lia].
      apply value_bounds. change (Zpos (2 ^ 52)) with (2 ^ 52).
      destruct (Z.leb_spec 0 (g + 1)) as [H1|H1].
      * assert (g = 0 \/ g = -1) as [-> | ->] by lia;
          [ change (2 ^ (- 0)) with 1 in HL; change (2 ^ (0 + 1)) with 2
          | change (2 ^ (- -1)) with 2 in HL; change (2 ^ (-1 + 1)) with 1 ];
          change (2 ^ 53) with 9007199254740992 in HL;
          change (2 ^ 52) with 4503599627370496; lia.
      * replace (- g) with (1 + - (g + 1)) in HL by lia.
        rewrite Z.pow_add_r in HL by lia.
        assert (0 < 2 ^ (- (g + 1))) by (apply Z.pow_pos_nonneg; lia).
        change (2 ^ 53) with 9007199254740992 in HL.
        change (2 ^ 52) with 4503599627370496.
        change (2 ^ 1) with 2 in HL. lia.
    + destruct q as [|p|p]; try lia.
      rewrite assemble_fits; [| apply digits_le; lia | lia].
      destruct (Z.leb_spec g 971); [|lia].
      apply value_bounds.
      destruct (Z.leb_spec 0 g) as [H1|H1]; [|assumption].
      assert (g = 0) by lia. subst g. change (2 ^ (- 0)) with 1 in HL.
      change (2 ^ 0) with 1. lia.
Qed.

(** Rounding a mantissa below [2^-e], whatever lies beyond it, gives a
    float between 0 and 1. *)
Lemma binary_round_aux_unit q e l :
  0 <= q < 2 ^ (- e) -> -1074 <= e <= 0 ->
  let x := binary_round_aux prec emax false q e l in
  is_finite x = true /\ has_sign false x = true /\
  (0 <= value x)%Q /\ (value x <= 1)%Q.
Proof.
  intros Hq He x. subst x. rewrite binary_round_aux_assemble.
  unfold shr_fexp. rewrite fexp_64.
  set (d := Zdigits2 q). set (g := fexp64 (d + e)). set (n := g - e).
  assert (Hrec : shr_m (shr_record_of_loc q l) = q) by (destruct l as [|[]]; reflexivity).
  destruct (shr_m_spec (shr_record_of_loc q l) e n ltac:(rewrite Hrec; lia)) as [Hm He1].
  rewrite Hrec in Hm. rewrite He1. clear He1.
  set (mrs := fst (shr (shr_record_of_loc q l) e n)) in *.
  pose proof (round_nearest_even_bounds (shr_m mrs) (loc_of_shr_record mrs)) as Hround.
  set (q' := round_nearest_even (shr_m mrs) (loc_of_shr_record mrs)) in *.
  set (e1 := if 0 <? n then e + n else e).
  destruct (Zdigits2_bound q ltac:(lia)) as [Hd Hd0]. fold d in Hd, Hd0.
  pose proof (Zdigits2_le q (- e) Hq ltac:(lia)) as Hde. fold d in Hde.
  assert (Hpe : 0 < 2 ^ (- e)) by (apply Z.pow_pos_nonneg; lia).
  assert (Hfacts : 0 <= shr_m mrs < 2 ^ 53 /\ shr_m mrs < 2 ^ (- e1) /\ -1074 <= e1 <= 0).
  { subst e1. destruct (Z.ltb_spec 0 n) as [Hn|Hn]; rewrite Hm.
    - assert (Hpn : 0 < 2 ^ n) by (apply Z.pow_pos_nonneg; lia).
      assert (Hg : g <= 0) by (subst g; unfold fexp64; lia).
      assert (Hg' : -1074 <= g) by (subst g; unfold fexp64; lia).
      replace (e + n) with g by (subst n; lia).
      split; [split|split].
      + apply Z.div_pos; lia.
      + apply Z.div_lt_upper_bound; [assumption|].
        rewrite <- Z.pow_add_r by lia.
        assert (2 ^ d <= 2 ^ (n + 53))
          by (apply Z.pow_le_mono_r; [lia|]; subst n g; unfold fexp64; lia).
        lia.
      + apply Z.div_lt_upper_bound; [assumption|].
        rewrite <- Z.pow_add_r by lia.
        replace (n + - g) with (- e) by (subst n; lia). lia.
      + lia.
    - split; [split|split]; try lia.
      assert (d <= 53) by (subst n g; unfold fexp64 in Hn; lia).
      assert (2 ^ d <= 2 ^ 53) by (apply Z.pow_le_mono_r; lia). lia. }
  destruct Hfacts as (Hm53 & Hme & He1).
  apply (assemble_value q' e1 1); lia.
Qed.

Lemma div_eucl_div a b : Z.div_eucl a b = (a / b, a mod b).
Proof. unfold Z.div, Z.modulo. now destruct (Z.div_eucl a b). Qed.

(** The quotient of two positive integers, the smaller first, before
    rounding: a mantissa below [2^-e]. *)
Lemma div_core_unit (a b : positive) :
  Zpos a < Zpos b ->
  exists q e l,
    SFdiv_core_binary prec emax (Zpos a) 0 (Zpos b) 0 = (q, e, l) /\
    0 <= q < 2 ^ (- e) /\ -1074 <= e <= 0.
Proof.
  intros Hab. unfold SFdiv_core_binary. rewrite fexp_64. cbn [Zdigits2].
  pose proof (digits2_bounds a) as [Ha1 Ha2].
  pose proof (digits2_bounds b) as [Hb1 Hb2].
  set (d1 := Zpos (digits2_pos a)) in *. set (d2 := Zpos (digits2_pos b)) in *.
  assert (Hd : d1 <= d2).
  { destruct (Z.le_gt_cases d1 d2) as [H|H]; [assumption|].
    assert (2 ^ d2 <= 2 ^ (d1 - 1)) by (apply Z.pow_le_mono_r; lia). lia. }
  set (e := Z.min (fexp64 (d1 + 0 - (d2 + 0))) (0 - 0)).
  assert (He : -1074 <= e <= -53) by (subst e; unfold fexp64; lia).
  destruct (0 - 0 - e) as [|s|s] eqn:Es; try lia.
  rewrite div_eucl_div. eexists _, _, _. split; [reflexivity|].
  rewrite Z.shiftl_mul_pow2 by lia. rewrite <- Es.
  replace (0 - 0 - e) with (- e) by lia.
  assert (Hp : 0 < 2 ^ (- e)) by (apply Z.pow_pos_nonneg; lia).
  split; [split|lia].
  - apply Z.div_pos; lia.
  - apply Z.div_lt_upper_bound; [lia|]. nia.
Qed.

Lemma int_truediv_same (a : positive) : int_truediv (Zpos a) (Zpos a) = Ret one.
Proof.
  unfold int_truediv. cbn [Z.ltb Z.compare xorb Z.eqb Z.abs].
  unfold SFdiv_core_binary. cbn [Zdigits2].
  replace (Zpos (digits2_pos a) + 0 - (Zpos (digits2_pos a) + 0)) with 0 by lia.
  change (Z.min (fexp prec emax 0) (0 - 0)) with (-53).
  change (0 - 0 - -53) with 53.
  rewrite div_eucl_div. rewrite Z.shiftl_mul_pow2 by lia.
  rewrite (Z.mul_comm (Zpos a)), Z.div_mul, Z.mod_mul by lia.
  assert (Hloc : new_location (Zpos a) 0 = loc_Exact).
  { unfold new_location. destruct (Z.even (Zpos a)); reflexivity. }
  rewrite Hloc. reflexivity.
Qed.

(** The quotient of two integers [0 <= a <= b], [0 < b], as [a / b]
    computes it: a float between 0 and 1. *)
Lemma int_truediv_unit a b :
  0 <= a <= b -> 0 < b ->
  exists x, int_truediv a b = Ret x /\
            is_finite x = true /\ has_sign false x = true /\
            (0 <= value x)%Q /\ (value x <= 1)%Q.
Proof.
  intros Ha Hb. destruct b as [|b|b]; try lia.
  destruct a as [|a|a]; try lia.
  - exists zero. repeat split; unfold Qle; cbn; lia.
  - destruct (Z.eq_dec (Zpos a) (Zpos b)) as [Heq|Hne].
    + injection Heq as ->. rewrite int_truediv_same. exists one.
      repeat split; unfold Qle; cbn; lia.
    + destruct (div_core_unit a b ltac:(lia)) as (q & e & l & Hcore & Hq & He).
      unfold int_truediv. cbn [Z.ltb Z.compare xorb Z.eqb Z.abs]. rewrite Hcore.
      destruct (binary_round_aux_unit q e l Hq He) as (Hfin & Hsign & Hlo & Hhi).
      destruct (binary_round_aux prec emax false q e l) as [s|s| |s m e'] eqn:Ex;
        try discriminate; eexists; repeat split; assumption.
Qed.

(** A fraction of at most one times a length that a float holds exactly:
    the rounded product is a float between zero and the length. *)
Lemma mul_unit_value (m1 : positive) e1 (m2 : positive) e2 L :
  e1 <= 0 -> Zpos m1 <= 2 ^ (- e1) ->
  Zpos m2 < 2 ^ 53 -> -1074 <= e2 <= 0 -> Zpos m2 = L * 2 ^ (- e2) ->
  let x := mul (S754_finite false m1 e1) (S754_finite false m2 e2) in
  is_finite x = true /\ has_sign false x = true /\
  (0 <= value x)%Q /\ (value x <= inject_Z L)%Q.
Proof.
  intros He1 Hm1 Hm2 He2 HL x. subst x.
  assert (Hp1 : 0 < 2 ^ (- e1)) by (apply Z.pow_pos_nonneg; lia).
  assert (Hp2 : 0 < 2 ^ (- e2)) by (apply Z.pow_pos_nonneg; lia).
  assert (HLpos : 0 < L) by nia.
  unfold mul, SFmul. cbn [xorb]. rewrite binary_round_aux_exact.
  set (P := (m1 * m2)%positive).
  set (E := e1 + e2).
  set (d := Zpos (digits2_pos P)).
  set (g := fexp64 (d + E)).
  assert (HP : Zpos P = Zpos m1 * Zpos m2) by reflexivity.
  assert (HPL : Zpos P <= L * 2 ^ (- E)).
  { subst E. replace (- (e1 + e2)) with (- e2 + - e1) by lia.
    rewrite Z.pow_add_r, Z.mul_assoc, <- HL by lia. nia. }
  assert (Hd : d <= 53 - e1).
  { apply digits_le; [lia|]. replace (53 - e1) with (53 + - e1) by lia.
    rewrite Z.pow_add_r by lia. nia. }
  assert (Hg : -1074 <= g <= e2) by (subst g; unfold fexp64; lia).
  destruct (Z.leb_spec g E) as [Hstay|Hshift].
  - assert (Hd53 : d <= 53) by (subst g; unfold fexp64 in Hstay; lia).
    pose proof (digits2_bounds P) as [_ HP53]. fold d in HP53.
    assert (2 ^ d <= 2 ^ 53) by (apply Z.pow_le_mono_r; lia).
    apply assemble_value; lia.
  - set (n := g - E) in *.
    assert (Hn : 0 < n) by (subst n; lia).
    assert (Hpn : 0 < 2 ^ n) by (apply Z.pow_pos_nonneg; lia).
    assert (Hpg : 0 < 2 ^ (- g)) by (apply Z.pow_pos_nonneg; lia).
    pose proof (round_half_even_bounds (Zpos P) (2 ^ n) Hpn) as ([Hq1 Hq2] & _ & Hup).
    set (q := Zpos P / 2 ^ n) in *.
    set (r := Zpos P mod 2 ^ n) in *.
    set (q' := round_half_even (Zpos P) (2 ^ n)) in *.
    assert (Hqr : Zpos P = 2 ^ n * q + r) by (apply Z.div_mod; lia).
    assert (Hr : 0 <= r < 2 ^ n) by (apply Z.mod_pos_bound; lia).
    assert (Hq0 : 0 <= q) by (apply Z.div_pos; lia).
    assert (Hq53 : q < 2 ^ 53).
    { apply Z.div_lt_upper_bound; [assumption|].
      pose proof (digits2_bounds P) as [_ Hhi]. fold d in Hhi.
      assert (2 ^ d <= 2 ^ (n + 53)).
      { apply Z.pow_le_mono_r; [lia|]. subst n g. unfold fexp64. lia. }
      rewrite <- Z.pow_add_r by lia. lia. }
    assert (Hmult : L * 2 ^ (- E) = (L * 2 ^ (- g)) * 2 ^ n).
    { rewrite <- Z.mul_assoc, <- Z.pow_add_r by lia. do 2 f_equal. subst n. lia. }
    assert (Hq'L : q' <= L * 2 ^ (- g)).
    { destruct (Z.eq_dec q' (q + 1)) as [Hcarry|Hsame].
      - specialize (Hup Hcarry). fold r in Hup. nia.
      - assert (q' = q) by lia. nia. }
    apply assemble_value; lia.
Qed.

(** A float between 0 and [L] printed without decimals: the text of an
    integer from 0 to [L]. *)
Lemma format_f_whole x L :
  is_finite x = true -> has_sign false x = true ->
  (0 <= value x)%Q -> (value x <= inject_Z L)%Q ->
  exists n, 0 <= n <= L /\ format_f 0 x = PyStr.of_int n.
Proof.
  assert (Hfixed : forall n, fixed 0 false n = PyStr.of_int n).
  { intros n. unfold fixed. change (10 ^ Z.of_nat 0) with 1.
    rewrite Z.div_1_r. cbn [append]. apply append_nil_r. }
  destruct x as [s|s| |s m e]; try discriminate; cbn [has_sign];
    intros _ Hs Hlo Hhi; apply eqb_prop in Hs; subst s; cbn [format_f];
    rewrite Hfixed.
  - exists 0. split; [|reflexivity].
    unfold value, Qle, inject_Z in Hhi. cbn [Qnum Qden] in Hhi. lia.
  - eexists. split; [|reflexivity].
    unfold scaled. change (10 ^ Z.of_nat 0) with 1.
    unfold value in Hhi. cbn [cond_Zopp] in Hhi.
    destruct (Z.leb_spec 0 e) as [He|He].
    + assert (Hp : 0 < 2 ^ e) by (apply Z.pow_pos_nonneg; lia).
      unfold Qle, inject_Z in Hhi. cbn [Qnum Qden] in Hhi. nia.
    + assert (Hp : 0 < 2 ^ (- e)) by (apply Z.pow_pos_nonneg; lia).
      unfold Qle, inject_Z in Hhi. cbn [Qnum Qden] in Hhi.
      rewrite Z2Pos.id in Hhi by assumption.
      rewrite Z.mul_1_r in *.
      pose proof (round_half_even_bounds (Zpos m) (2 ^ (- e)) Hp) as ([Hq1 Hq2] & _ & Hup).
      pose proof (Z.div_pos (Zpos m) (2 ^ (- e)) ltac:(lia) Hp) as Hq0.
      assert (Hq : Zpos m / 2 ^ (- e) <= L)
        by (apply Z.div_le_upper_bound; [assumption | lia]).
      split; [lia|].
      destruct (Z.eq_dec (round_half_even (Zpos m) (2 ^ (- e))) (Zpos m / 2 ^ (- e) + 1))
        as [Hcarry|Hsame]; [|lia].
      specialize (Hup Hcarry).
      pose proof (Z.div_mod (Zpos m) (2 ^ (- e)) ltac:(lia)) as Hdm.
      pose proof (Z.mod_pos_bound (Zpos m) (2 ^ (- e)) Hp) as Hmod.
      nia.
Qed.

(** X19. The share [a / b] of a part in a total, [0 <= a <= b] and
    [0 < b], is a float between 0 and 1, and the percentage
    [f"{share * 100:.0f}"] is the text of a whole number from 0 to 100. *)
Theorem percent_used_text (a b : Z) :
  0 <= a <= b -> 0 < b ->
  exists percent_used n,
    int_truediv a b = Ret percent_used /\
    is_finite percent_used = true /\
    (0 <= value percent_used)%Q /\ (value percent_used <= 1)%Q /\
    of_int 100 = Ret hundred /\
    0 <= n <= 100 /\
    format_f 0 (mul percent_used hundred) = PyStr.of_int n.
Proof.
  intros Ha Hb.
  destruct (int_truediv_unit a b Ha Hb) as (x & Hx & Hfin & Hsign & Hlo & Hhi).
  assert (Hprod : exists n, 0 <= n <= 100 /\ format_f 0 (mul x hundred) = PyStr.of_int n).
  { destruct (unit_fraction x Hfin Hlo Hhi) as [[s ->] | (m1 & e1 & -> & He1 & Hm1)].
    - cbn [has_sign] in Hsign. apply eqb_prop in Hsign. subst s.
      exists 0. split; [lia | reflexivity].
    - destruct (mul_unit_value m1 e1 7036874417766400 (-46) 100)
        as (Hf & Hs & Hl & Hh); try assumption; try lia; try reflexivity.
      now apply format_f_whole. }
  destruct Hprod as (n & Hn & Htext).
  exists x, n. repeat (split; [assumption|]). split; [reflexivity|]. now split.
Qed.

Lemma percent_used_text_witness :
  exists percent_used n,
    int_truediv 750 1000 = Ret percent_used /\
    is_finite percent_used = true /\
    (0 <= value percent_used)%Q /\ (value percent_used <= 1)%Q /\
    of_int 100 = Ret hundred /\
    0 <= n <= 100 /\
    format_f 0 (mul percent_used hundred) = PyStr.of_int n.
Proof.
  apply (percent_used_text 750 1000); lia.
Defined.

(** ** The reports *)


















(** A memory map that reads the same at any time makes the value of the
    process stable. *)
Lemma stable_rss_of_source (w : world) (pid : string) (lines : list string)
    (values : list Z) :
  (forall n, w_open w n (smaps pid) = Ret lines) ->
  Forall2 (fun line v => field_int line = Ret v) (rss_lines lines) values ->
  stable_rss w pid (sum_values values).
Proof.
  intros Hopen Hvalues st. unfold rss_mem_of_pid. rewrite Hopen.
  now rewrite (rss_mem_of_pid_loop_sums lines values 0 Hvalues).
Qed.









(** ** Shares above one *)

(** Packing a mantissa of at most 2^53: an infinity, or a float whose
    integer part is the mantissa shifted. *)
Lemma assemble_cases s q g :
  0 <= q <= 2 ^ 53 -> -1074 <= g ->
  assemble s q g = S754_infinity s \/
  to_int (assemble s q g) = Ret (cond_Zopp s (Z.shiftl q g)).
Proof.
  intros Hq Hg.
  destruct (Z.le_gt_cases g 970) as [Hle|Hgt].
  - right. apply to_int_assemble; lia.
  - destruct (Z.eq_dec q 0) as [->|Hq0].
    + right. rewrite assemble_zero, Z.shiftl_0_l. destruct s; reflexivity.
    + destruct (Z.eq_dec q (2 ^ 53)) as [->|Hne].
      * left. rewrite assemble_carry by lia.
        destruct (Z.leb_spec (g + 1) 971); [lia | reflexivity].
      * destruct q as [|p|p]; try lia.
        rewrite assemble_fits; [| apply digits_le; lia | lia].
        destruct (Z.leb_spec g 971); [right; reflexivity | now left].
Qed.

Lemma shiftl_mono a b g : a <= b -> Z.shiftl a g <= Z.shiftl b g.
Proof.
  intros Hab. destruct (Z.le_gt_cases 0 g) as [Hg|Hg].
  - rewrite !Z.shiftl_mul_pow2 by assumption.
    assert (0 < 2 ^ g) by (apply Z.pow_pos_nonneg; lia). nia.
  - rewrite !shiftl_neg by lia.
    apply Z.div_le_mono; [apply Z.pow_pos_nonneg; lia | assumption].
Qed.

(** The exact product of a float of at least one and a length, rounded
    down to an integer, is at least the length. *)
Lemma product_floor (m1 : positive) e1 (m2 : positive) e2 L :
  (1 <= value (S754_finite false m1 e1))%Q ->
  e2 <= 0 -> Zpos m2 = L * 2 ^ (- e2) ->
  L <= Z.shiftl (Zpos (m1 * m2)) (e1 + e2).
Proof.
  intros Hv He2 Hm2.
  assert (Hp2 : 0 < 2 ^ (- e2)) by (apply Z.pow_pos_nonneg; lia).
  assert (HL : 0 < L) by nia.
  rewrite Pos2Z.inj_mul, Hm2.
  unfold value in Hv. cbn [cond_Zopp] in Hv.
  destruct (Z.leb_spec 0 e1) as [He1|He1].
  - assert (Hp1 : 0 < 2 ^ e1) by (apply Z.pow_pos_nonneg; lia).
    destruct (Z.le_gt_cases 0 (e1 + e2)) as [HE|HE].
    + rewrite Z.shiftl_mul_pow2 by assumption.
      assert (H2 : 2 ^ e1 = 2 ^ (e1 + e2) * 2 ^ (- e2))
        by (rewrite <- Z.pow_add_r by lia; f_equal; lia).
      assert (0 < 2 ^ (e1 + e2)) by (apply Z.pow_pos_nonneg; lia).
      nia.
    + rewrite shiftl_neg by lia.
      assert (H2 : 2 ^ (- e2) = 2 ^ e1 * 2 ^ (- (e1 + e2)))
        by (rewrite <- Z.pow_add_r by lia; f_equal; lia).
      assert (Hp : 0 < 2 ^ (- (e1 + e2))) by (apply Z.pow_pos_nonneg; lia).
      apply Z.div_le_lower_bound; [assumption|]. nia.
  - assert (Hp1 : 0 < 2 ^ (- e1)) by (apply Z.pow_pos_nonneg; lia).
    unfold Qle in Hv. cbn [Qnum Qden] in Hv. rewrite Z2Pos.id in Hv by assumption.
    rewrite shiftl_neg by lia.
    assert (H2 : 2 ^ (- (e1 + e2)) = 2 ^ (- e1) * 2 ^ (- e2))
      by (rewrite <- Z.pow_add_r by lia; f_equal; lia).
    assert (Hp : 0 < 2 ^ (- (e1 + e2))) by (apply Z.pow_pos_nonneg; lia).
    apply Z.div_le_lower_bound; [assumption|]. nia.
Qed.

(** A float of at least one times a length below 2^53: the rounded
    product, if finite, has an integer part of at least the length. *)
Lemma mul_above_one (m1 : positive) e1 (m2 : positive) e2 L :
  (1 <= value (S754_finite false m1 e1))%Q ->
  Zpos (digits2_pos m2) = 53 -> -52 <= e2 <= 0 -> Zpos m2 = L * 2 ^ (- e2) ->
  let x := mul (S754_finite false m1 e1) (S754_finite false m2 e2) in
  x = S754_infinity false \/ exists k, to_int x = Ret k /\ L <= k.
Proof.
  intros Hv Hd2 He2 Hm2 x. subst x.
  pose proof (product_floor m1 e1 m2 e2 L Hv ltac:(lia) Hm2) as Hfloor.
  assert (Hp2 : 0 < 2 ^ (- e2)) by (apply Z.pow_pos_nonneg; lia).
  assert (HL : 0 < L) by nia.
  pose proof (digits2_bounds m2) as [Hm2lo Hm2hi]. rewrite Hd2 in Hm2lo, Hm2hi.
  change (2 ^ (53 - 1)) with (2 ^ 52) in Hm2lo.
  assert (HL53 : L < 2 ^ 53) by nia.
  unfold mul, SFmul. cbn [xorb]. rewrite binary_round_aux_exact.
  set (P := (m1 * m2)%positive) in *.
  set (E := e1 + e2) in *.
  set (d := Zpos (digits2_pos P)).
  set (g := fexp64 (d + E)).
  pose proof (digits2_bounds P) as [HPlo HPhi]. fold d in HPlo, HPhi.
  assert (Hd : 1 <= d) by (subst d; lia).
  assert (Hfinish : forall Q G, 0 <= Q <= 2 ^ 53 -> -1074 <= G -> L <= Z.shiftl Q G ->
            assemble false Q G = S754_infinity false \/
            exists k, to_int (assemble false Q G) = Ret k /\ L <= k).
  { intros Q G HQ HG HLQ.
    destruct (assemble_cases false Q G HQ HG) as [Hinf|Hint]; [now left|].
    right. eexists. split; [exact Hint | exact HLQ]. }
  destruct (Z.leb_spec g E) as [Hstay|Hshift].
  - assert (Hd53 : d <= 53) by (subst g; unfold fexp64 in Hstay; lia).
    assert (2 ^ d <= 2 ^ 53) by (apply Z.pow_le_mono_r; lia).
    apply Hfinish; [lia | subst g; unfold fexp64 in *; lia | assumption].
  - set (n := g - E) in *.
    assert (Hn : 0 < n) by (subst n; lia).
    assert (Hpn : 0 < 2 ^ n) by (apply Z.pow_pos_nonneg; lia).
    pose proof (round_half_even_bounds (Zpos P) (2 ^ n) Hpn) as ([Hq1 Hq2] & _ & _).
    set (q := Zpos P / 2 ^ n) in *.
    set (q' := round_half_even (Zpos P) (2 ^ n)) in *.
    assert (Hq0 : 0 <= q) by (apply Z.div_pos; lia).
    assert (Hq53 : q < 2 ^ 53).
    { apply Z.div_lt_upper_bound; [assumption|].
      assert (2 ^ d <= 2 ^ (n + 53)).
      { apply Z.pow_le_mono_r; [lia|]. subst n g. unfold fexp64. lia. }
      rewrite <- Z.pow_add_r by lia. lia. }
    apply Hfinish; [lia | subst g; unfold fexp64; lia |].
    apply Z.le_trans with (Z.shiftl q g); [|apply shiftl_mono; lia].
    destruct (Z.le_gt_cases g 0) as [Hg0|Hg0].
    + (* the integer part of the product is kept *)
      rewrite shiftl_neg by assumption.
      rewrite shiftl_neg in Hfloor by lia.
      subst q. rewrite Z.div_div by (try apply Z.pow_pos_nonneg; lia).
      rewrite <- Z.pow_add_r by lia.
      replace (n + - g) with (- E) by (subst n; lia). exact Hfloor.
    + (* the product is beyond 2^53 *)
      assert (Hgd : g = d + E - 53) by (subst g; unfold fexp64 in *; lia).
      assert (Hnd : n = d - 53) by (subst n; lia).
      assert (Hq52 : 2 ^ 52 <= q).
      { subst q. apply Z.div_le_lower_bound; [assumption|].
        rewrite <- Z.pow_add_r by lia.
        replace (n + 52) with (d - 1) by lia. lia. }
      rewrite Z.shiftl_mul_pow2 by lia.
      assert (2 ^ 1 <= 2 ^ g) by (apply Z.pow_le_mono_r; lia).
      change (2 ^ 1) with 2 in *.
      change (2 ^ 52) with 4503599627370496 in *.
      change (2 ^ 53) with 9007199254740992 in *. nia.
Qed.

(** X23. For a finite fraction of at least one and a length from 1 to
    below 2^53, [percent_to_graph] does not clamp the bar to the length.
    When the float product overflows to an infinity, [int()] raises
    [OverflowError]. Otherwise the fill count is at least [bar_length] and
    no space follows: [percent_to_graph] raises [OverflowError] when the
    fill count is not index-sized, [MemoryError] when the fill cannot be
    allocated, and returns the fill characters in every other case. *)
Theorem percent_to_graph_above_one (memory : Z) (f : float) (L : Z) (len : float) :
  is_finite f = true -> (1 <= value f)%Q -> 0 < L < 2 ^ 53 ->
  of_int L = Ret len ->
  (is_finite (mul f len) = false ->
   percent_to_graph memory f L
   = Raise (Exn OverflowError "cannot convert float infinity to integer")) /\
  (is_finite (mul f len) = true ->
   let filled := Qtrunc (value (mul f len)) in
   L <= filled /\
   percent_to_graph memory f L
   = if max_index <? filled then index_error
     else if allocates memory filled then Ret (PyStr.mul "#" filled)
     else memory_error).
Proof.
  intros Hfin Hv HL Hlen.
  assert (Hcases : mul f len = S754_infinity false \/
                   exists k, to_int (mul f len) = Ret k /\ L <= k).
  { destruct L as [|z|z]; try lia.
    destruct (of_int_small z ltac:(lia)) as (m2 & e2 & Hof & Hd & He & Hm).
    rewrite Hof in Hlen. apply Ret_inj in Hlen. subst len.
    pose proof (digits2_bounds z) as [Hz1 Hz2].
    pose proof (digits_le z 53 ltac:(lia) ltac:(lia)) as Hdz.
    destruct f as [s|s| |s m1 e1]; try discriminate.
    { exfalso. unfold value, Qle in Hv. cbn in Hv. lia. }
    destruct s.
    { exfalso. unfold value in Hv. cbn [cond_Zopp] in Hv.
      destruct (Z.leb_spec 0 e1) as [He1|He1].
      - assert (0 < 2 ^ e1) by (apply Z.pow_pos_nonneg; lia).
        unfold Qle, inject_Z in Hv. cbn [Qnum Qden] in Hv. nia.
      - unfold Qle in Hv. cbn [Qnum Qden] in Hv. lia. }
    apply (mul_above_one m1 e1 m2 e2 (Zpos z) Hv Hd ltac:(lia) Hm). }
  split.
  { intros Hinf. destruct Hcases as [Hi | (k & Hk & _)].
    - unfold percent_to_graph. rewrite Hlen. cbn [obind]. now rewrite Hi.
    - destruct (mul f len); discriminate. }
  intros Hprod filled.
  pose proof (to_int_trunc _ Hprod) as Hk. fold filled in Hk.
  assert (Hfilled : L <= filled).
  { destruct Hcases as [Hi | (k & Hk' & HLk)].
    - rewrite Hi in Hprod. discriminate.
    - rewrite Hk in Hk'. apply Ret_inj in Hk'. now subst k. }
  split; [assumption|].
  destruct (percent_to_graph_spec memory f L len filled Hlen Hk) as (Hbad & _ & Hspec).
  destruct (Z.ltb_spec max_index filled) as [Hhigh|Hhigh].
  { apply Hbad. unfold index_sized. lia. }
  rewrite Hspec by (unfold index_sized, max_index in *; lia).
  destruct (allocates memory filled); cbn [negb]; [|reflexivity].
  assert (Halloc : allocates memory (L - filled) = true).
  { unfold allocates. destruct (Z.leb_spec (L - filled) 1); [reflexivity | lia]. }
  rewrite Halloc. cbn [negb].
  destruct (Z.leb_spec (L - filled) 0); [|lia]. rewrite orb_true_r.
  rewrite (mul_nat_nonpos " " (L - filled)) by assumption.
  now rewrite append_nil_r.
Qed.

Lemma percent_to_graph_above_one_witness :
  percent_to_graph 4096 (S754_finite false 6755399441055744 (-52)) 4 = Ret "######".
Proof.
  destruct (percent_to_graph_above_one 4096 (S754_finite false 6755399441055744 (-52)) 4
              (S754_finite false 4503599627370496 (-50))) as [_ H].
  - reflexivity.
  - unfold Qle. simpl. lia.
  - split; reflexivity.
  - reflexivity.
  - destruct (H eq_refl) as [_ Hrun]. rewrite Hrun. reflexivity.
Defined.
